(** * inih: the line-oriented INI parser of [lib/inih/ini.c]

    A shallow embedding of [ini_parse_stream] and of the helpers it is built
    from, followed by the properties of the parser that the specification
    states.

    Conventions of the embedding.
    - A C string is the [list ascii] of the characters before its NUL
      terminator.  A pointer into a string is the suffix that starts there, so
      "*s" is the head of the list ([deref], NUL on the empty list) and "s + 1"
      is its tail.
    - The compile-time options of [ini.h] are the fields of the record
      [config]; [default_config] holds the values [ini.h] gives them.
    - [int] values (line numbers, the error code, the handler's result) are
      [Z]; buffer sizes ([size_t]) are [nat].  The line counter is not
      wrapped: the model follows the source for the first [INT_MAX] lines of
      an input, after which the [int] of the source overflows.  The
      properties that speak of the value of the counter or of the value
      returned are stated for parses of at most [INT_MAX] lines.
    - The handler is a function on an explicit user state.  Every call of the
      handler is appended to the field [calls] of the parser state, and every
      line number at which the code reaches one of its "error = lineno" sites
      is appended to [flagged]; these two fields are observations and are read
      by no code path.
    - The reader is a parameter of [ini_parse_stream], as in the source.
      [ini_parse] and [ini_parse_file] pass it [fgets], which is not part of
      the source; [ini_parse_string] passes it [ini_reader_string], which is.
    - [malloc] and [realloc] are a parameter too: an [allocator] tells which
      requests succeed.  They are only called when the line buffer is on the
      heap ([INI_USE_STACK] off).
    - Loops that read from the source take fuel, because a reader may never
      report the end of its input.  [ini_reader_string] consumes a byte each
      time it succeeds, and [ini_parse_string_length] supplies enough fuel for
      the whole input (lemma [ini_parse_string_length_total]). *)

From Stdlib Require Import Ascii String List ZArith Bool Arith Lia.
From Stdlib Require Import Sorted.
Import ListNotations.

Local Open Scope char_scope.
Local Open Scope list_scope.

(** ** Characters and C strings *)

Definition NUL : ascii := "000".
Definition NL : ascii := "010".

(** A string literal as a C string. *)
Definition cs (s : string) : list ascii := list_ascii_of_string s.

(** "*s": the character a pointer designates, NUL at the end of the string. *)
Definition deref (s : list ascii) : ascii :=
  match s with
  | [] => NUL
  | c :: _ => c
  end.

(** [isspace] of <ctype.h> in the "C" locale: space, \t, \n, \v, \f, \r. *)
Definition isspace (c : ascii) : bool :=
  let n := nat_of_ascii c in
  Nat.eqb n 32 || (Nat.leb 9 n && Nat.leb n 13).

(** [strchr(chars, c) != NULL].  The terminator of [chars] is part of the
    string that is searched, so NUL is always found. *)
Definition strchr (chars : list ascii) (c : ascii) : bool :=
  Ascii.eqb c NUL || existsb (Ascii.eqb c) chars.

(** The string that [strlen] and the other string functions see in a buffer
    holding [bytes] followed by a terminator: it ends at the first NUL. *)
Fixpoint c_str (bytes : list ascii) : list ascii :=
  match bytes with
  | [] => []
  | c :: rest => if Ascii.eqb c NUL then [] else c :: c_str rest
  end.

Definition strlen (bytes : list ascii) : nat := length (c_str bytes).

(** "s[strlen(s) - 1]", the last character of a string.  On the empty string
    the source reads before the buffer; the model answers NUL there. *)
Definition last_char (s : list ascii) : ascii := last s NUL.

Fixpoint drop_while (p : ascii -> bool) (s : list ascii) : list ascii :=
  match s with
  | [] => []
  | c :: rest => if p c then drop_while p rest else s
  end.

(** ** The string helpers of ini.c *)

Definition MAX_SECTION : nat := 50.
Definition MAX_NAME : nat := 50.

(** [ini_rstrip(s, end)], for [end] the terminator of [s]: the loop walks back
    from [end] and overwrites whitespace with NUL until it meets a character
    that is not whitespace or reaches [s].  The result is the string then
    found at [s]. *)
Definition ini_rstrip (s : list ascii) : list ascii :=
  rev (drop_while isspace (rev s)).

(** [ini_lskip(s)]: pointer to the first character that is not whitespace. *)
Definition ini_lskip (s : list ascii) : list ascii :=
  drop_while isspace s.

(** [ini_find_chars_or_comment(s, chars)], with [chars = None] for a NULL
    argument.  The result is the pair of what lies before the returned
    pointer and the string that starts at it.  [inline] is
    [INI_ALLOW_INLINE_COMMENTS] and [prefixes] is
    [INI_INLINE_COMMENT_PREFIXES]. *)
Fixpoint find_loop (inline : bool) (prefixes : list ascii)
    (chars : option (list ascii)) (was_space : bool) (s : list ascii)
    : list ascii * list ascii :=
  match s with
  | [] => ([], [])
  | c :: rest =>
      if match chars with
         | None => true
         | Some cs => negb (strchr cs c)
         end
         && negb (inline && was_space && strchr prefixes c)
      then
        let '(before, found) :=
          find_loop inline prefixes chars (isspace c) rest in
        (c :: before, found)
      else ([], s)
  end.

Definition ini_find_chars_or_comment (inline : bool) (prefixes : list ascii)
    (s : list ascii) (chars : option (list ascii))
    : list ascii * list ascii :=
  find_loop inline prefixes chars false s.

(** [ini_strncpy0(dest, src, size)]: the string left in [dest]. *)
Definition ini_strncpy0 (src : list ascii) (size : nat) : list ascii :=
  firstn (size - 1) src.

(** ** Configuration: the options of ini.h *)

Record config := mkConfig {
  INI_HANDLER_LINENO : bool;
  INI_ALLOW_MULTILINE : bool;
  INI_ALLOW_BOM : bool;
  INI_START_COMMENT_PREFIXES : list ascii;
  INI_ALLOW_INLINE_COMMENTS : bool;
  INI_INLINE_COMMENT_PREFIXES : list ascii;
  INI_USE_STACK : bool;
  INI_MAX_LINE : nat;
  INI_ALLOW_REALLOC : bool;
  INI_INITIAL_ALLOC : nat;
  INI_STOP_ON_FIRST_ERROR : bool;
  INI_CALL_HANDLER_ON_NEW_SECTION : bool;
  INI_ALLOW_NO_VALUE : bool
}.

Definition default_config : config := {|
  INI_HANDLER_LINENO := false;
  INI_ALLOW_MULTILINE := true;
  INI_ALLOW_BOM := true;
  INI_START_COMMENT_PREFIXES := cs ";#";
  INI_ALLOW_INLINE_COMMENTS := true;
  INI_INLINE_COMMENT_PREFIXES := cs ";";
  INI_USE_STACK := true;
  INI_MAX_LINE := 200;
  INI_ALLOW_REALLOC := false;
  INI_INITIAL_ALLOC := 200;
  INI_STOP_ON_FIRST_ERROR := false;
  INI_CALL_HANDLER_ON_NEW_SECTION := false;
  INI_ALLOW_NO_VALUE := false
|}.

(** The allocation functions ([malloc]/[realloc], or the custom ones of
    [INI_CUSTOM_ALLOCATOR]): whether a request of a given size succeeds. *)
Record allocator := mkAllocator {
  ini_malloc : nat -> bool;
  ini_realloc : nat -> bool
}.

Definition always_allocates : allocator :=
  {| ini_malloc := fun _ => true; ini_realloc := fun _ => true |}.

(** ** Handler and parser state *)

(** [ini_handler]: user state, section, name, value (None for NULL) and the
    line number when [INI_HANDLER_LINENO] is set; the new user state and the
    [int] result, nonzero for success. *)
Definition ini_handler (U : Type) : Type :=
  U -> list ascii -> option (list ascii) -> option (list ascii) ->
  option Z -> U * Z.

(** One call of the handler, as observed. *)
Record call := mkCall {
  c_lineno : Z;
  c_section : list ascii;
  c_name : option (list ascii);
  c_value : option (list ascii);
  c_result : Z
}.

(** The local variables of [ini_parse_stream] that live across lines, the
    user state, and the two observation logs. *)
Record state (U : Type) := mkState {
  max_line : nat;
  section : list ascii;
  prev_name : list ascii;
  lineno : Z;
  error : Z;
  user : U;
  calls : list call;
  flagged : list Z
}.

Arguments mkState {U}.
Arguments max_line {U}.
Arguments section {U}.
Arguments prev_name {U}.
Arguments lineno {U}.
Arguments error {U}.
Arguments user {U}.
Arguments calls {U}.
Arguments flagged {U}.

(** The largest [int].  [lineno] and [error] are [int]s in ini.c; the model
    counts in [Z] and follows the source as long as the line counter is at
    most [INT_MAX]. *)
Definition INT_MAX : Z := 2147483647.

Definition set_max_line {U} (st : state U) (n : nat) : state U :=
  mkState n (section st) (prev_name st) (lineno st) (error st) (user st)
          (calls st) (flagged st).

Definition set_section {U} (st : state U) (s : list ascii) : state U :=
  mkState (max_line st) s (prev_name st) (lineno st) (error st) (user st)
          (calls st) (flagged st).

Definition set_prev_name {U} (st : state U) (n : list ascii) : state U :=
  mkState (max_line st) (section st) n (lineno st) (error st) (user st)
          (calls st) (flagged st).

Definition set_lineno {U} (st : state U) (n : Z) : state U :=
  mkState (max_line st) (section st) (prev_name st) n (error st) (user st)
          (calls st) (flagged st).

(** "if (!error) error = lineno;" *)
Definition record_error {U} (st : state U) : state U :=
  mkState (max_line st) (section st) (prev_name st) (lineno st)
          (if Z.eqb (error st) 0 then lineno st else error st)
          (user st) (calls st) (flagged st ++ [lineno st]).

(** What [ini_parse_stream] leaves behind: the value it returns, its state at
    that point, and the source as the reader left it. *)
Record outcome (U Stream : Type) := mkOutcome {
  ret : Z;
  final : state U;
  rest : Stream
}.

Arguments mkOutcome {U Stream}.
Arguments ret {U Stream}.
Arguments final {U Stream}.
Arguments rest {U Stream}.

(** "start[0] == 0xEF && start[1] == 0xBB && start[2] == 0xBF" *)
Definition has_bom (s : list ascii) : bool :=
  match s with
  | a :: b :: c :: _ =>
      Ascii.eqb a (ascii_of_nat 239) && Ascii.eqb b (ascii_of_nat 187)
      && Ascii.eqb c (ascii_of_nat 191)
  | _ => false
  end.

Definition nonempty (s : list ascii) : bool :=
  negb (Ascii.eqb (deref s) NUL).

(** ** ini_parse_stream *)

(** What the line-growing loop hands back: [realloc] failed, or the buffer
    size, the line and the source after it. *)
Inductive grown (Stream : Type) :=
| Grow_nomem
| Grown (size : nat) (line : list ascii) (stream : Stream).

Arguments Grow_nomem {Stream}.
Arguments Grown {Stream}.

(** "offset == max_line - 1 && line[offset - 1] != '\n'", for [offset] the
    length of [line]: the reader filled the buffer and met no newline. *)
Definition buffer_full (size : nat) (line : list ascii) : bool :=
  Nat.eqb (S (length line)) size && negb (Ascii.eqb (last_char line) NL).

Section Parser.

Context {U Stream : Type}.

Variable cfg : config.
Variable alloc : allocator.

(** [reader(str, num, stream)]: None for NULL, else the bytes written to
    [str] before the terminator and the source after the read.  A reader
    that returns NULL leaves the source as it was. *)
Variable reader : nat -> Stream -> option (list ascii * Stream).

Variable handler : ini_handler U.

Definition find_chars_or_comment :=
  ini_find_chars_or_comment (INI_ALLOW_INLINE_COMMENTS cfg)
                            (INI_INLINE_COMMENT_PREFIXES cfg).

(** The macro [HANDLER(user, s, n, v)]: one call of the handler, its result
    beside the state. *)
Definition HANDLER (st : state U) (s : list ascii)
    (n v : option (list ascii)) : state U * Z :=
  let '(u, r) :=
    handler (user st) s n v
            (if INI_HANDLER_LINENO cfg then Some (lineno st) else None) in
  (mkState (max_line st) (section st) (prev_name st) (lineno st)
           (error st) u
           (calls st ++ [mkCall (lineno st) s n v r]) (flagged st),
   r).

(** "if (!HANDLER(...) && !error) error = lineno;" *)
Definition handler_or_error (st : state U) (s : list ascii)
    (n v : option (list ascii)) : state U :=
  let '(st, r) := HANDLER st s n v in
  if Z.eqb r 0 then record_error st else st.

(** Lines 173-251 of ini.c: what the loop body does with the line it has
    read into [line], once [lineno] has been incremented. *)
Definition ini_parse_line (st : state U) (line : list ascii) : state U :=
  let start := line in
  let start :=
    if INI_ALLOW_BOM cfg && Z.eqb (lineno st) 1 && has_bom start
    then skipn 3 start else start in
  let start := ini_lskip start in
  (* "start > line", asked for below *)
  let start_gt_line := Nat.ltb (length start) (length line) in
  let start := ini_rstrip start in
  if strchr (INI_START_COMMENT_PREFIXES cfg) (deref start) then
    (* Start-of-line comment *)
    st
  else if INI_ALLOW_MULTILINE cfg && nonempty (prev_name st)
          && nonempty start && start_gt_line then
    let start :=
      if INI_ALLOW_INLINE_COMMENTS cfg
      then ini_rstrip (fst (find_chars_or_comment start None))
      else start in
    handler_or_error st (section st) (Some (prev_name st)) (Some start)
  else if Ascii.eqb (deref start) "[" then
    (* A "[section]" line *)
    let '(inside, found) :=
      find_chars_or_comment (tl start) (Some (cs "]")) in
    if Ascii.eqb (deref found) "]" then
      let st := set_section st (ini_strncpy0 inside MAX_SECTION) in
      let st :=
        if INI_ALLOW_MULTILINE cfg then set_prev_name st [] else st in
      if INI_CALL_HANDLER_ON_NEW_SECTION cfg
      then handler_or_error st (section st) None None
      else st
    else
      (* No ']' found on section line *)
      record_error st
  else if nonempty start then
    (* Not a comment, must be a name[=:]value pair *)
    let '(before, found) :=
      find_chars_or_comment start (Some (cs "=:")) in
    if Ascii.eqb (deref found) "=" || Ascii.eqb (deref found) ":" then
      let name := ini_rstrip before in
      let value := tl found in
      let value :=
        if INI_ALLOW_INLINE_COMMENTS cfg
        then fst (find_chars_or_comment value None) else value in
      let value := ini_lskip value in
      (* without inline comments "end" still precedes "value" and
         ini_rstrip(value, end) does nothing *)
      let value :=
        if INI_ALLOW_INLINE_COMMENTS cfg then ini_rstrip value
        else value in
      let st :=
        if INI_ALLOW_MULTILINE cfg
        then set_prev_name st (ini_strncpy0 name MAX_NAME) else st in
      (* Valid name[=:]value pair found, call handler *)
      handler_or_error st (section st) (Some name) (Some value)
    else if INI_ALLOW_NO_VALUE cfg then
      let name := ini_rstrip before in
      handler_or_error st (section st) (Some name) None
    else
      (* No '=' or ':' found on name[=:]value line *)
      record_error st
  else st.

(** Lines 143-158: double the heap buffer and read on while the line does
    not fit. *)
Fixpoint ini_grow_line (fuel : nat) (size : nat) (line : list ascii)
    (stream : Stream) : option (grown Stream) :=
  if buffer_full size line then
    match fuel with
    | O => None
    | S fuel =>
        let size := size * 2 in
        let size :=
          if Nat.ltb (INI_MAX_LINE cfg) size then INI_MAX_LINE cfg
          else size in
        if negb (ini_realloc alloc size) then Some Grow_nomem
        else
          match reader (size - length line) stream with
          | None => Some (Grown size line stream)
          | Some (chunk, stream) =>
              let line := line ++ c_str chunk in
              if Nat.leb (INI_MAX_LINE cfg) size
              then Some (Grown size line stream)
              else ini_grow_line fuel size line stream
          end
    end
  else Some (Grown size line stream).

(** Lines 165-170: read the rest of a line that did not fit into the
    16-byte buffer [abyss] and drop it. *)
Fixpoint ini_discard_line (fuel : nat) (st : state U) (stream : Stream)
    : option (state U * Stream) :=
  match fuel with
  | O => None
  | S fuel =>
      match reader 16 stream with
      | None => Some (st, stream)
      | Some (abyss, stream) =>
          let st := record_error st in
          if Ascii.eqb (last_char (c_str abyss)) NL then Some (st, stream)
          else ini_discard_line fuel st stream
      end
  end.

(** The loop of lines 139-257. *)
Fixpoint ini_parse_loop (fuel : nat) (st : state U) (stream : Stream)
    : option (outcome U Stream) :=
  match fuel with
  | O => None
  | S fuel =>
      match reader (max_line st) stream with
      | None => Some (mkOutcome (error st) st stream)
      | Some (chunk, stream) =>
          let line := c_str chunk in
          match
            (if INI_ALLOW_REALLOC cfg && negb (INI_USE_STACK cfg)
             then ini_grow_line fuel (max_line st) line stream
             else Some (Grown (max_line st) line stream))
          with
          | None => None
          | Some Grow_nomem => Some (mkOutcome (-2) st stream)
          | Some (Grown size line stream) =>
              let st := set_max_line st size in
              let st := set_lineno st (lineno st + 1) in
              match
                (if buffer_full size line
                 then ini_discard_line fuel st stream
                 else Some (st, stream))
              with
              | None => None
              | Some (st, stream) =>
                  let st := ini_parse_line st line in
                  if INI_STOP_ON_FIRST_ERROR cfg
                     && negb (Z.eqb (error st) 0)
                  then Some (mkOutcome (error st) st stream)
                  else ini_parse_loop fuel st stream
              end
          end
      end
  end.

Definition initial_state (u : U) : state U :=
  mkState (if INI_USE_STACK cfg then INI_MAX_LINE cfg
           else INI_INITIAL_ALLOC cfg)
          [] [] 0 0 u [] [].

Definition ini_parse_stream (fuel : nat) (stream : Stream) (u : U)
    : option (outcome U Stream) :=
  if negb (INI_USE_STACK cfg)
     && negb (ini_malloc alloc (INI_INITIAL_ALLOC cfg))
  then Some (mkOutcome (-2) (initial_state u) stream)
  else ini_parse_loop fuel (initial_state u) stream.

End Parser.

(** ** Parsing a string *)

(** The loop of [ini_reader_string]: copy up to [num - 1] bytes, stopping
    after a newline.  The context (ptr, num_left) is the list of the
    [num_left] bytes at [ptr]. *)
Fixpoint ini_reader_string_loop (num : nat) (ctx : list ascii)
    : list ascii * list ascii :=
  match ctx with
  | [] => ([], [])
  | c :: ctx' =>
      if Nat.ltb 1 num then
        if Ascii.eqb c NL then ([c], ctx')
        else
          let '(str, ctx'') := ini_reader_string_loop (num - 1) ctx' in
          (c :: str, ctx'')
      else ([], ctx)
  end.

Definition ini_reader_string (num : nat) (ctx : list ascii)
    : option (list ascii * list ascii) :=
  if Nat.eqb (length ctx) 0 || Nat.ltb num 2 then None
  else Some (ini_reader_string_loop num ctx).

(** [ini_parse_string_length(string, length, handler, user)], for [string]
    the bytes at the pointer, of which there are at least [length]. *)
Definition ini_parse_string_length {U} (cfg : config) (alloc : allocator)
    (handler : ini_handler U) (string : list ascii) (len : nat) (u : U)
    : option (outcome U (list ascii)) :=
  ini_parse_stream cfg alloc ini_reader_string handler (S len)
                   (firstn len string) u.

Definition ini_parse_string {U} (cfg : config) (alloc : allocator)
    (handler : ini_handler U) (string : list ascii) (u : U)
    : option (outcome U (list ascii)) :=
  ini_parse_string_length cfg alloc handler string (strlen string) u.

(** A handler that accepts every call and keeps no state. *)
Definition accept_all : ini_handler unit :=
  fun u _ _ _ _ => (u, 1%Z).

(** The calls of a parse, as (section, name, value) triples. *)
Definition triples (cl : list call)
    : list (list ascii * option (list ascii) * option (list ascii)) :=
  map (fun c => (c_section c, c_name c, c_value c)) cl.

(** ** Physical lines

    The vocabulary in which the properties below speak about the text of
    the input.  Nothing here is called by the parser. *)

(** The first physical line of [s], with its newline when it has one, and
    what follows it. *)
Fixpoint first_line (s : list ascii) : list ascii * list ascii :=
  match s with
  | [] => ([], [])
  | c :: s' =>
      if Ascii.eqb c NL then ([c], s')
      else let '(l, r) := first_line s' in (c :: l, r)
  end.

(** The physical lines of [s]: each ends with its newline, except a last
    line that the input does not terminate. *)
Fixpoint physical_lines (s : list ascii) : list (list ascii) :=
  match s with
  | [] => []
  | c :: s' =>
      if Ascii.eqb c NL then [c] :: physical_lines s'
      else
        match physical_lines s' with
        | [] => [[c]]
        | l :: ls => (c :: l) :: ls
        end
  end.

(** The number of reads of at most 15 characters that consume [n]
    characters. *)
Definition abyss_reads (n : nat) : nat := (n + 14) / 15.

(** What one iteration of the loop does with the physical line [pl] when the
    line buffer has [max_line st] bytes and does not grow: the line number
    advances, the characters that do not fit are read in pieces of 15 with an
    error recorded for each piece, and the first [max_line st - 1]
    characters are parsed. *)
Definition line_step {U} (cfg : config) (handler : ini_handler U)
    (st : state U) (pl : list ascii) : state U :=
  let size := max_line st in
  let st := set_lineno st (lineno st + 1) in
  let st :=
    Nat.iter (abyss_reads (length pl - (size - 1))) record_error st in
  ini_parse_line cfg handler st (firstn (size - 1) pl).

(** All the lines of a list, one after the other. *)
Definition ini_parse_lines {U} (cfg : config) (handler : ini_handler U)
    (st : state U) (lines : list (list ascii)) : state U :=
  fold_left (line_step cfg handler) lines st.

(** The checks the result of a parse passes (C1): the value returned is the
    first line number flagged, no flagged line number is lower, every call
    the handler rejected is flagged, and with stop-on-first-error off the
    loop has ended because the reader reported the end of the input. *)
Definition reports_first_error {U Stream} (cfg : config)
    (reader : nat -> Stream -> option (list ascii * Stream))
    (o : outcome U Stream) : Prop :=
  ret o = hd 0%Z (flagged (final o)) /\
  Forall (fun e => (ret o <= e)%Z /\ (1 <= e <= lineno (final o))%Z)
         (flagged (final o)) /\
  Forall (fun c => c_result c = 0%Z -> In (c_lineno c) (flagged (final o)))
         (calls (final o)) /\
  (INI_STOP_ON_FIRST_ERROR cfg = false ->
   reader (max_line (final o)) (rest o) = None).


(** The line buffer keeps the size it starts with: it is on the stack, or
    on the heap without [realloc]. *)
Definition fixed_buffer (cfg : config) : Prop :=
  INI_USE_STACK cfg = true \/ INI_ALLOW_REALLOC cfg = false.

(** A line buffer of [size] bytes has the [INI_MAX_LINE] bytes of ini.h, or
    grows to them: where the growing loop of lines 143-158 is compiled in
    (heap buffer with [realloc] allowed) the buffer holds a character, is
    not larger than [INI_MAX_LINE] and [realloc] succeeds; elsewhere its
    size is [INI_MAX_LINE], as it always is on the stack. *)
Definition buffer_reaches_max_line (cfg : config) (alloc : allocator)
    (size : nat) : Prop :=
  if INI_ALLOW_REALLOC cfg && negb (INI_USE_STACK cfg)
  then 2 <= size <= INI_MAX_LINE cfg /\ forall n, ini_realloc alloc n = true
  else size = INI_MAX_LINE cfg.


(** ** The text of a line

    [stripped cfg n line] is the text the parser looks at in line number [n]
    once the byte-order mark of a first line and the surrounding whitespace
    are gone; it is the value of "start" after line 181 of ini.c. *)
Definition unbom (cfg : config) (n : Z) (line : list ascii) : list ascii :=
  if INI_ALLOW_BOM cfg && Z.eqb n 1 && has_bom line then skipn 3 line
  else line.

Definition stripped (cfg : config) (n : Z) (line : list ascii) : list ascii :=
  ini_rstrip (ini_lskip (unbom cfg n line)).

(** The line has leading whitespace (or a byte-order mark that was
    skipped): "start > line". *)
Definition indented (cfg : config) (n : Z) (line : list ascii) : bool :=
  Nat.ltb (length (ini_lskip (unbom cfg n line))) (length line).

(** A blank line or a start-of-line comment: there is no first character
    that is not whitespace, or it is one of [INI_START_COMMENT_PREFIXES]. *)
Definition comment_or_blank (cfg : config) (n : Z) (line : list ascii)
    : bool :=
  strchr (INI_START_COMMENT_PREFIXES cfg) (deref (stripped cfg n line)).

(** The line is taken as the continuation of the value of the remembered
    name. *)
Definition continues {U} (cfg : config) (st : state U) (line : list ascii)
    : bool :=
  INI_ALLOW_MULTILINE cfg && nonempty (prev_name st)
  && nonempty (stripped cfg (lineno st) line)
  && indented cfg (lineno st) line.

(** [s] holds no inline comment: no character of the inline-comment prefixes
    comes after whitespace ([was_space] tells whether whitespace precedes
    [s]). *)
Fixpoint no_inline_comment (cfg : config) (was_space : bool)
    (s : list ascii) : bool :=
  match s with
  | [] => true
  | c :: s' =>
      negb (INI_ALLOW_INLINE_COMMENTS cfg && was_space
            && strchr (INI_INLINE_COMMENT_PREFIXES cfg) c)
      && no_inline_comment cfg (isspace c) s'
  end.

(** The value the parser reports for the text [rhs] after the separator:
    the inline comment removed when inline comments are enabled, and the
    whitespace on both sides removed. *)
Definition value_of (cfg : config) (rhs : list ascii) : list ascii :=
  if INI_ALLOW_INLINE_COMMENTS cfg
  then ini_rstrip
         (ini_lskip
            (fst (ini_find_chars_or_comment true
                    (INI_INLINE_COMMENT_PREFIXES cfg) rhs None)))
  else ini_lskip rhs.


(** The text after an opening bracket holds no closing bracket before any
    inline comment: it holds none at all, or none before a character of the
    inline-comment prefixes that follows whitespace. *)
Definition no_closing_bracket (cfg : config) (body : list ascii) : Prop :=
  ~ In "]" body \/
  (INI_ALLOW_INLINE_COMMENTS cfg = true /\
   exists a w p b,
     body = a ++ w :: p :: b /\ ~ In "]" a /\ isspace w = true /\
     isspace p = false /\ p <> "]" /\
     strchr (INI_INLINE_COMMENT_PREFIXES cfg) p = true).


(** [name] is scanned to its end when the parser looks for one of [chars]:
    it holds none of them, no NUL and no inline comment. *)
Definition plain (cfg : config) (chars : list ascii) (name : list ascii)
    : Prop :=
  no_inline_comment cfg false name = true /\
  forallb (fun x => negb (strchr chars x)) name = true.

(** The state in which the handler is called for a name=value line: the
    name is remembered when continuation lines are allowed. *)
Definition remember {U} (cfg : config) (st : state U) (name : list ascii)
    : state U :=
  if INI_ALLOW_MULTILINE cfg
  then set_prev_name st (ini_strncpy0 name MAX_NAME) else st.

(** The state after a section header with the text [name] between the
    brackets, before the handler is called for it. *)
Definition enter_section {U} (cfg : config) (st : state U)
    (name : list ascii) : state U :=
  let st := set_section st (ini_strncpy0 name MAX_SECTION) in
  if INI_ALLOW_MULTILINE cfg then set_prev_name st [] else st.


(** A well-formed section header: the first character of the line that is
    not whitespace is an opening bracket, and a closing bracket follows it
    before any inline comment. *)
Definition section_header (cfg : config) (n : Z) (line : list ascii)
    : bool :=
  Ascii.eqb (deref (stripped cfg n line)) "["
  && Ascii.eqb
       (deref (snd (ini_find_chars_or_comment
                      (INI_ALLOW_INLINE_COMMENTS cfg)
                      (INI_INLINE_COMMENT_PREFIXES cfg)
                      (tl (stripped cfg n line)) (Some (cs "]")))))
       "]".

(** What the line buffer holds of line number [k] (from 1) of [lines] when
    it has [size] bytes. *)
Definition line_at (size : nat) (lines : list (list ascii)) (k : Z)
    : list ascii :=
  firstn (size - 1) (nth (Z.to_nat (k - 1)) lines []).

(** The number of lines, numbered from [n], that are neither blank nor a
    comment. *)
Fixpoint content_lines (cfg : config) (size : nat) (n : Z)
    (lines : list (list ascii)) : nat :=
  match lines with
  | [] => 0
  | l :: ls =>
      (if comment_or_blank cfg n (firstn (size - 1) l) then 0 else 1)
      + content_lines cfg size (n + 1) ls
  end.

(** A line that opens with a bracket and is not a comment: it is a section
    header unless it is taken as a continuation line. *)
Definition header_line (cfg : config) (n : Z) (line : list ascii) : bool :=
  negb (comment_or_blank cfg n line)
  && Ascii.eqb (deref (stripped cfg n line)) "[".

(** The line can be taken as a continuation line: continuation lines are
    allowed, the line is indented, and it is not the first line, before
    which no name is remembered. *)
Definition may_continue (cfg : config) (n : Z) (line : list ascii) : bool :=
  INI_ALLOW_MULTILINE cfg && negb (Z.eqb n 1) && indented cfg n line.

(** The number of lines, numbered from [n], that open with a bracket. *)
Fixpoint header_lines (cfg : config) (size : nat) (n : Z)
    (lines : list (list ascii)) : nat :=
  match lines with
  | [] => 0
  | l :: ls =>
      (if header_line cfg n (firstn (size - 1) l) then 1 else 0)
      + header_lines cfg size (n + 1) ls
  end.

(** No line that opens with a bracket can be taken as a continuation
    line. *)
Fixpoint no_indented_header (cfg : config) (size : nat) (n : Z)
    (lines : list (list ascii)) : bool :=
  match lines with
  | [] => true
  | l :: ls =>
      negb (header_line cfg n (firstn (size - 1) l)
            && may_continue cfg n (firstn (size - 1) l))
      && no_indented_header cfg size (n + 1) ls
  end.

(** What a call passes to the handler, without the handler's answer. *)
Definition call_args (c : call)
    : Z * list ascii * option (list ascii) * option (list ascii) :=
  (c_lineno c, c_section c, c_name c, c_value c).

(** Two parser states, possibly of parses with different handlers, that
    agree on everything but the user state, the handler's answers and the
    errors. *)
Definition same_parse {U1 U2} (s1 : state U1) (s2 : state U2) : Prop :=
  max_line s1 = max_line s2 /\ section s1 = section s2 /\
  prev_name s1 = prev_name s2 /\ lineno s1 = lineno s2 /\
  map call_args (calls s1) = map call_args (calls s2).


(** The size of the line buffer at the start of a parse. *)
Definition buffer_size (cfg : config) : nat :=
  if INI_USE_STACK cfg then INI_MAX_LINE cfg else INI_INITIAL_ALLOC cfg.

(** The line buffer is there, keeps its size and holds a character: it is on
    the stack, or it is on the heap, its allocation succeeds and [realloc]
    is not used. *)
Definition fixed_line_buffer (cfg : config) (alloc : allocator) : Prop :=
  (INI_USE_STACK cfg = true \/
   (INI_ALLOW_REALLOC cfg = false /\
    ini_malloc alloc (INI_INITIAL_ALLOC cfg) = true)) /\
  2 <= buffer_size cfg.


(** The configuration of ini.h with its switches set as the arguments say;
    the line buffer is the default one and stop-on-first-error is off. *)
Definition options (handler_lineno bom multiline inline on_section
    no_value : bool) : config := {|
  INI_HANDLER_LINENO := handler_lineno;
  INI_ALLOW_MULTILINE := multiline;
  INI_ALLOW_BOM := bom;
  INI_START_COMMENT_PREFIXES := cs ";#";
  INI_ALLOW_INLINE_COMMENTS := inline;
  INI_INLINE_COMMENT_PREFIXES := cs ";";
  INI_USE_STACK := true;
  INI_MAX_LINE := 200;
  INI_ALLOW_REALLOC := false;
  INI_INITIAL_ALLOC := 200;
  INI_STOP_ON_FIRST_ERROR := false;
  INI_CALL_HANDLER_ON_NEW_SECTION := on_section;
  INI_ALLOW_NO_VALUE := no_value
|}.


(** A malformed line: it is neither blank, nor a comment, nor a
    continuation line, and it is a section header without closing bracket
    or, unless names without value are allowed, a line without separator. *)
Definition malformed {U} (cfg : config) (st : state U) (line : list ascii)
    : bool :=
  let start := stripped cfg (lineno st) line in
  negb (comment_or_blank cfg (lineno st) line)
  && negb (continues cfg st line)
  && (if Ascii.eqb (deref start) "["
      then negb (section_header cfg (lineno st) line)
      else
        let found :=
          snd (ini_find_chars_or_comment (INI_ALLOW_INLINE_COMMENTS cfg)
                 (INI_INLINE_COMMENT_PREFIXES cfg) start (Some (cs "=:"))) in
        negb (INI_ALLOW_NO_VALUE cfg)
        && negb (Ascii.eqb (deref found) "=" || Ascii.eqb (deref found) ":")).


(** ** Invariants and example inputs *)

(** [st1] differs from [st] at most in the section and the remembered
    name. *)
Definition same_logs {U} (st st1 : state U) : Prop :=
  max_line st1 = max_line st /\ lineno st1 = lineno st /\
  error st1 = error st /\ user st1 = user st /\
  calls st1 = calls st /\ flagged st1 = flagged st.

(** The four things [ini_parse_line] can do: nothing, change the names,
    call the handler once (after changing the names), or record an
    error. *)
Inductive line_effect (U : Type) (cfg : config) (handler : ini_handler U)
    (st : state U) : state U -> Prop :=
| effect_none : line_effect U cfg handler st st
| effect_names st1 : same_logs st st1 -> line_effect U cfg handler st st1
| effect_call st1 n v :
    same_logs st st1 ->
    line_effect U cfg handler st
      (handler_or_error cfg handler st1 (section st1) n v)
| effect_error : line_effect U cfg handler st (record_error st).

Arguments line_effect {U}.
Arguments effect_none {U}.
Arguments effect_names {U}.
Arguments effect_call {U}.
Arguments effect_error {U}.

(** What holds of the error code and the two logs at every point of a
    parse. *)
Definition first_error_inv {U} (st : state U) : Prop :=
  (0 <= lineno st)%Z /\
  error st = hd 0%Z (flagged st) /\
  Forall (fun e => (1 <= e <= lineno st)%Z) (flagged st) /\
  Forall (fun e => (error st <= e)%Z) (flagged st) /\
  Forall (fun c => c_result c = 0%Z -> In (c_lineno c) (flagged st))
         (calls st).

Definition allocates (alloc : allocator) : Prop :=
  forall n, ini_malloc alloc n = true /\ ini_realloc alloc n = true.

(** The state in which the first line of an input is parsed. *)
Definition at_line_1 : state unit := mkState 200 [] [] 1 0 tt [] [].

(** Three lines of which the first and the third are malformed. *)
Definition two_errors : list ascii :=
  cs "[bad" ++ [NL] ++ cs "k=v" ++ [NL] ++ cs "junk" ++ [NL].

(** A line of 250 characters, followed by a line that fits. *)
Definition overlong_input : list ascii :=
  repeat "a"%char 250 ++ [NL] ++ cs "k=v" ++ [NL].

(** A heap buffer of 8 bytes that may grow to 32, and a line of 42
    characters followed by a line that fits. *)
Definition growing_config : config := {|
  INI_HANDLER_LINENO := false;
  INI_ALLOW_MULTILINE := true;
  INI_ALLOW_BOM := true;
  INI_START_COMMENT_PREFIXES := cs ";#";
  INI_ALLOW_INLINE_COMMENTS := true;
  INI_INLINE_COMMENT_PREFIXES := cs ";";
  INI_USE_STACK := false;
  INI_MAX_LINE := 32;
  INI_ALLOW_REALLOC := true;
  INI_INITIAL_ALLOC := 8;
  INI_STOP_ON_FIRST_ERROR := false;
  INI_CALL_HANDLER_ON_NEW_SECTION := false;
  INI_ALLOW_NO_VALUE := false
|}.

Definition overlong_value : list ascii :=
  cs "k=" ++ repeat "v"%char 40 ++ [NL] ++ cs "a=b" ++ [NL].

(** A key before any section, a section header, a key in the section. *)
Definition scoped_input : list ascii :=
  cs "a=1" ++ [NL] ++ cs "[foo]" ++ [NL] ++ cs "b=2" ++ [NL].

(** A section header, a key and a continuation line. *)
Definition counted_input : list ascii :=
  cs "[s]" ++ [NL] ++ cs "k=v" ++ [NL] ++ cs "  more" ++ [NL].

(** A section header with a name of 60 characters. *)
Definition long_header : list ascii :=
  "["%char :: repeat "s"%char 60 ++ ["]"%char; NL].

(** The state after a first line "k=v": the name k is remembered. *)
Definition after_key : state unit := mkState 200 [] (cs "k") 1 0 tt [] [].

(** The section and the remembered name fit their buffers of [MAX_SECTION]
    and [MAX_NAME] bytes, and so did the section of every call made. *)
Definition names_bounded {U} (st : state U) : Prop :=
  length (section st) <= 49 /\ length (prev_name st) <= 49 /\
  Forall (fun c => length (c_section c) <= 49) (calls st).

(** The configuration of ini.h with stop-on-first-error switched on. *)
Definition stopping_config : config := {|
  INI_HANDLER_LINENO := false;
  INI_ALLOW_MULTILINE := true;
  INI_ALLOW_BOM := true;
  INI_START_COMMENT_PREFIXES := cs ";#";
  INI_ALLOW_INLINE_COMMENTS := true;
  INI_INLINE_COMMENT_PREFIXES := cs ";";
  INI_USE_STACK := true;
  INI_MAX_LINE := 200;
  INI_ALLOW_REALLOC := false;
  INI_INITIAL_ALLOC := 200;
  INI_STOP_ON_FIRST_ERROR := true;
  INI_CALL_HANDLER_ON_NEW_SECTION := false;
  INI_ALLOW_NO_VALUE := false
|}.


(** A comment, a blank line and an indented comment. *)
Definition only_comments : list ascii :=
  cs "; one" ++ [NL] ++ [NL] ++ cs "  # two" ++ [NL].

(** ** What the handler is given *)

(** A string with no whitespace at its start and none at its end. *)
Definition trimmed (s : list ascii) : Prop :=
  isspace (deref s) = false /\ isspace (last_char s) = false.

(** A name as the handler gets it: no whitespace at its start, no separator
    in it, and no whitespace at its end unless it has exactly the 49
    characters to which a remembered name is cut ([prev_name] has
    [MAX_NAME] bytes). *)
Definition clean_name (n : list ascii) : Prop :=
  isspace (deref n) = false /\ ~ In "="%char n /\ ~ In ":"%char n /\
  (isspace (last_char n) = false \/ length n = 49).

Definition clean_call (c : call) : Prop :=
  ~ In "]"%char (c_section c) /\
  (forall n, c_name c = Some n -> clean_name n) /\
  (forall v, c_value c = Some v -> trimmed v).

Definition clean_state {U} (st : state U) : Prop :=
  ~ In "]"%char (section st) /\ clean_name (prev_name st) /\
  Forall clean_call (calls st).

(** A line with whitespace around the name, the value and the comment. *)
Definition padded_line : list ascii :=
  cs "  key  =  some value  ; note" ++ [NL].

(** ** Parsing a file

    [fopen], [fgets] and [fclose] belong to <stdio.h>.  [fgets] is the
    reader and [fopen] tells which file names open ([None] for NULL); the
    model keeps no table of open files, so [fclose] does nothing in it. *)
Section File.

Context {U FILE : Type}.

Variable cfg : config.
Variable alloc : allocator.
Variable fgets : nat -> FILE -> option (list ascii * FILE).
Variable fopen : list ascii -> option FILE.
Variable handler : ini_handler U.

Definition ini_parse_file (fuel : nat) (file : FILE) (u : U)
    : option (outcome U FILE) :=
  ini_parse_stream cfg alloc fgets handler fuel file u.

(** [ini_parse(filename, handler, user)]: the [int] returned, and what the
    parse left behind when the file was opened. *)
Definition ini_parse (fuel : nat) (filename : list ascii) (u : U)
    : option (Z * option (outcome U FILE)) :=
  match fopen filename with
  | None => Some ((-1)%Z, None)
  | Some file =>
      match ini_parse_file fuel file u with
      | None => None
      | Some o => Some (ret o, Some o)
      end
  end.

End File.

(** A file system with the single file "a.ini", which holds
    [two_errors]. *)
Definition one_file (filename : list ascii) : option (list ascii) :=
  if list_eq_dec Ascii.ascii_dec filename (cs "a.ini") then Some two_errors
  else None.

(** A line of 21 characters, more than the 8 bytes the buffer of
    [growing_config] starts with and fewer than the 32 it may grow to,
    followed by a second line. *)
Definition fitting_input : list ascii :=
  cs "k=" ++ repeat "v"%char 18 ++ [NL] ++ cs "a=b" ++ [NL].

(** The UTF-8 byte-order mark, 0xEF 0xBB 0xBF. *)
Definition BOM : list ascii :=
  [ascii_of_nat 239; ascii_of_nat 187; ascii_of_nat 191].

(** A handler that rejects every call. *)
Definition reject_all : ini_handler unit :=
  fun u _ _ _ _ => (u, 0%Z).

(** The configuration [cfg] with another value for [INI_MAX_LINE]. *)
Definition with_max_line (cfg : config) (n : nat) : config := {|
  INI_HANDLER_LINENO := INI_HANDLER_LINENO cfg;
  INI_ALLOW_MULTILINE := INI_ALLOW_MULTILINE cfg;
  INI_ALLOW_BOM := INI_ALLOW_BOM cfg;
  INI_START_COMMENT_PREFIXES := INI_START_COMMENT_PREFIXES cfg;
  INI_ALLOW_INLINE_COMMENTS := INI_ALLOW_INLINE_COMMENTS cfg;
  INI_INLINE_COMMENT_PREFIXES := INI_INLINE_COMMENT_PREFIXES cfg;
  INI_USE_STACK := INI_USE_STACK cfg;
  INI_MAX_LINE := n;
  INI_ALLOW_REALLOC := INI_ALLOW_REALLOC cfg;
  INI_INITIAL_ALLOC := INI_INITIAL_ALLOC cfg;
  INI_STOP_ON_FIRST_ERROR := INI_STOP_ON_FIRST_ERROR cfg;
  INI_CALL_HANDLER_ON_NEW_SECTION := INI_CALL_HANDLER_ON_NEW_SECTION cfg;
  INI_ALLOW_NO_VALUE := INI_ALLOW_NO_VALUE cfg
|}.

(** The heap build without [realloc]: a buffer of 8 bytes, and 32 for
    [INI_MAX_LINE]. *)
Definition heap_config : config := {|
  INI_HANDLER_LINENO := false;
  INI_ALLOW_MULTILINE := true;
  INI_ALLOW_BOM := true;
  INI_START_COMMENT_PREFIXES := cs ";#";
  INI_ALLOW_INLINE_COMMENTS := true;
  INI_INLINE_COMMENT_PREFIXES := cs ";";
  INI_USE_STACK := false;
  INI_MAX_LINE := 32;
  INI_ALLOW_REALLOC := false;
  INI_INITIAL_ALLOC := 8;
  INI_STOP_ON_FIRST_ERROR := false;
  INI_CALL_HANDLER_ON_NEW_SECTION := false;
  INI_ALLOW_NO_VALUE := false
|}.

(** An allocator that refuses every request. *)
Definition never_allocates : allocator :=
  {| ini_malloc := fun _ => false; ini_realloc := fun _ => false |}.

(** A name with a value of 250 characters, followed by a second line. *)
Definition long_value : list ascii :=
  cs "k=" ++ repeat "v"%char 250 ++ [NL] ++ cs "a=b" ++ [NL].

(** ** Well-formed lines

    The vocabulary in which the properties below say which lines of an
    input are in error.  Nothing here is called by the parser. *)

(** The scan for one of [chars] stops in [s] at one of them: [s] holds a
    character of [chars], and the text before it holds none of them and no
    inline comment. *)
Definition separated (cfg : config) (chars s : list ascii) : Prop :=
  exists a c b, s = a ++ c :: b /\ In c chars /\ plain cfg chars a.

(** The text of a line that is neither blank nor a comment is well-formed:
    after an opening bracket a closing bracket follows before any inline
    comment; elsewhere a separator comes before any inline comment, or
    names without value are allowed. *)
Definition well_formed_text (cfg : config) (start : list ascii) : Prop :=
  if Ascii.eqb (deref start) "["
  then separated cfg (cs "]") (tl start)
  else INI_ALLOW_NO_VALUE cfg = true \/ separated cfg (cs "=:") start.

(** Line number [n], of which the line buffer holds [line], is malformed
    when the name [prev] is remembered: it is neither blank nor a comment,
    it is not a continuation line, and its text is not well-formed. *)
Definition ill_formed (cfg : config) (prev : list ascii) (n : Z)
    (line : list ascii) : Prop :=
  comment_or_blank cfg n line = false /\
  INI_ALLOW_MULTILINE cfg && nonempty prev && indented cfg n line = false /\
  ~ well_formed_text cfg (stripped cfg n line).

(** The parse of the first [k] lines of an input. *)
Definition parse_of_lines {U} (cfg : config) (alloc : allocator)
    (handler : ini_handler U) (lines : list (list ascii)) (u : U) (k : nat)
    : option (outcome U (list ascii)) :=
  ini_parse_string cfg alloc handler (concat (firstn k lines)) u.

(** The name remembered when line number [n] is read: what the parse of the
    lines before it has left in [prev_name]. *)
Definition remembered_at {U} (cfg : config) (alloc : allocator)
    (handler : ini_handler U) (lines : list (list ascii)) (u : U) (n : Z)
    : list ascii :=
  match parse_of_lines cfg alloc handler lines u (Z.to_nat (n - 1)) with
  | Some p => prev_name (final p)
  | None => []
  end.

(** Line number [n] of [lines] is in error in the parse with the outcome
    [o]: it does not fit the line buffer, it is malformed, or the handler
    has rejected the call made for it. *)
Definition bad_line {U} (cfg : config) (alloc : allocator)
    (handler : ini_handler U) (lines : list (list ascii)) (u : U)
    (o : outcome U (list ascii)) (n : Z) : Prop :=
  let pl := nth (Z.to_nat (n - 1)) lines [] in
  buffer_size cfg <= length pl \/
  ill_formed cfg (remembered_at cfg alloc handler lines u n) n
             (firstn (buffer_size cfg - 1) pl) \/
  exists c, In c (calls (final o)) /\ c_lineno c = n /\ c_result c = 0%Z.

(** A key, an indented section header, a key. *)
Definition indented_header_input : list ascii :=
  cs "a=1" ++ [NL] ++ cs " [foo]" ++ [NL] ++ cs "b=2" ++ [NL].

(** A blank line, a comment and an indented line. *)
Definition commented_input : list ascii :=
  [NL] ++ cs "; note" ++ [NL] ++ cs "  more" ++ [NL].

(** A key, a comment of 251 characters and an indented line. *)
Definition long_comment_input : list ascii :=
  cs "k=v" ++ [NL] ++ ";"%char :: repeat "x"%char 250 ++ [NL]
  ++ cs "  more" ++ [NL].

(** The state of the parse of [lines] once the first [k] of them are
    parsed, when no line has stopped it. *)
Definition state_after {U} (cfg : config) (handler : ini_handler U) (u : U)
    (lines : list (list ascii)) (k : nat) : state U :=
  ini_parse_lines cfg handler (initial_state cfg u) (firstn k lines).

(** * Properties *)

(** ** The reader of strings *)

Lemma ini_reader_string_loop_app num ctx :
  fst (ini_reader_string_loop num ctx) ++ snd (ini_reader_string_loop num ctx)
  = ctx.
Proof.
  revert num; induction ctx as [|c ctx IH]; intros num; simpl; auto.
  destruct (Nat.ltb 1 num); simpl; auto.
  destruct (Ascii.eqb c NL); simpl; auto.
  specialize (IH (num - 1)).
  destruct (ini_reader_string_loop (num - 1) ctx); simpl in *; congruence.
Qed.

Lemma ini_reader_string_loop_progress num c ctx :
  2 <= num -> fst (ini_reader_string_loop num (c :: ctx)) <> [].
Proof.
  intros H; simpl.
  destruct (Nat.ltb_spec 1 num); [|lia].
  destruct (Ascii.eqb c NL); simpl; [discriminate|].
  destruct (ini_reader_string_loop (num - 1) ctx); simpl; discriminate.
Qed.

(** A successful read returns a non-empty prefix of the context and leaves
    the rest. *)
Lemma ini_reader_string_some num ctx chunk ctx' :
  ini_reader_string num ctx = Some (chunk, ctx') ->
  ctx = chunk ++ ctx' /\ chunk <> [] /\ length ctx' < length ctx.
Proof.
  unfold ini_reader_string; intros H.
  destruct (Nat.eqb_spec (length ctx) 0); simpl in H; [discriminate|].
  destruct (Nat.ltb_spec num 2); [discriminate|].
  injection H as H.
  pose proof (ini_reader_string_loop_app num ctx) as Happ.
  destruct ctx as [|c ctx]; [simpl in *; lia|].
  pose proof (ini_reader_string_loop_progress num c ctx ltac:(lia)) as Hne.
  rewrite H in Happ, Hne; simpl in Happ, Hne.
  repeat split; auto.
  rewrite <- Happ, length_app.
  destruct chunk; [congruence | simpl; lia].
Qed.

(** ** Enough fuel: parsing a string always returns *)

Section Total.

Context {U : Type}.
Variable cfg : config.
Variable alloc : allocator.
Variable handler : ini_handler U.

Let grow := ini_grow_line (Stream := list ascii) cfg alloc ini_reader_string.
Let discard := ini_discard_line (U := U) ini_reader_string.
Let loop := ini_parse_loop cfg alloc ini_reader_string handler.

Lemma ini_grow_line_total fuel size line stream :
  length stream < fuel ->
  exists g, grow fuel size line stream = Some g /\
    match g with
    | Grow_nomem => True
    | Grown _ _ stream' => length stream' <= length stream
    end.
Proof.
  subst grow.
  revert size line stream; induction fuel as [|fuel IH];
    intros size line stream Hlen; [lia|].
  simpl.
  destruct (buffer_full size line); [|eexists; split; eauto; simpl; lia].
  set (size' := if Nat.ltb _ _ then _ else _).
  destruct (ini_realloc alloc size'); simpl;
    [|eexists; split; eauto; simpl; auto].
  destruct (ini_reader_string _ stream) as [[chunk stream']|] eqn:Hr;
    [|eexists; split; eauto; simpl; lia].
  apply ini_reader_string_some in Hr as (_ & _ & Hlt).
  destruct (Nat.leb _ size'); [eexists; split; eauto; simpl; lia|].
  destruct (IH size' (line ++ c_str chunk) stream' ltac:(lia))
    as (g & Hg & Hle).
  exists g; split; auto.
  destruct g; auto; lia.
Qed.

Lemma ini_discard_line_total fuel st stream :
  length stream < fuel ->
  exists st' stream', discard fuel st stream = Some (st', stream') /\
    length stream' <= length stream.
Proof.
  subst discard.
  revert st stream; induction fuel as [|fuel IH];
    intros st stream Hlen; [lia|].
  simpl.
  destruct (ini_reader_string 16 stream) as [[chunk stream']|] eqn:Hr;
    [|eauto].
  apply ini_reader_string_some in Hr as (_ & _ & Hlt).
  destruct (Ascii.eqb _ NL); [do 2 eexists; split; eauto; lia|].
  destruct (IH (record_error st) stream' ltac:(lia)) as (s1 & s2 & H & Hle).
  exists s1, s2; split; auto; lia.
Qed.

Lemma ini_parse_loop_total fuel st stream :
  length stream < fuel -> exists o, loop fuel st stream = Some o.
Proof.
  subst loop.
  revert st stream; induction fuel as [|fuel IH];
    intros st stream Hlen; [lia|].
  simpl.
  destruct (ini_reader_string _ stream) as [[chunk stream1]|] eqn:Hr;
    [|eauto].
  apply ini_reader_string_some in Hr as (_ & _ & Hlt).
  assert (Hg : exists g,
    (if INI_ALLOW_REALLOC cfg && negb (INI_USE_STACK cfg)
     then ini_grow_line cfg alloc ini_reader_string fuel (max_line st)
            (c_str chunk) stream1
     else Some (Grown (max_line st) (c_str chunk) stream1)) = Some g /\
    match g with
    | Grow_nomem => True
    | Grown _ _ stream' => length stream' <= length stream1
    end).
  { destruct (_ && _).
    - apply ini_grow_line_total; lia.
    - eexists; split; eauto; simpl; lia. }
  destruct Hg as (g & -> & Hle).
  destruct g as [|size line stream2]; [eauto|].
  set (st1 := set_lineno _ _).
  assert (Hd : exists st' stream',
    (if buffer_full size line
     then ini_discard_line ini_reader_string fuel st1 stream2
     else Some (st1, stream2)) = Some (st', stream') /\
    length stream' <= length stream2).
  { destruct (buffer_full size line).
    - apply ini_discard_line_total; lia.
    - do 2 eexists; split; eauto. }
  destruct Hd as (st2 & stream3 & -> & Hle3).
  destruct (_ && _); [eauto|].
  apply IH; lia.
Qed.

Theorem ini_parse_string_length_total string len (u : U) :
  exists o, ini_parse_string_length cfg alloc handler string len u = Some o.
Proof.
  unfold ini_parse_string_length, ini_parse_stream.
  destruct (_ && _); [eauto|].
  apply ini_parse_loop_total.
  rewrite length_firstn; lia.
Qed.

End Total.

(** ** What one line can do to the state *)

Lemma same_logs_refl {U} (st : state U) : same_logs st st.
Proof. repeat split. Qed.

Lemma same_logs_section {U} (st : state U) s : same_logs st (set_section st s).
Proof. repeat split. Qed.

Lemma same_logs_prev_name {U} (st : state U) s :
  same_logs st (set_prev_name st s).
Proof. repeat split. Qed.

Create HintDb ini.

#[local] Hint Resolve same_logs_refl same_logs_section same_logs_prev_name
  : ini.

Section LineEffect.

Context {U : Type}.
Variable cfg : config.
Variable handler : ini_handler U.

Lemma ini_parse_line_effect st line :
  line_effect cfg handler st (ini_parse_line cfg handler st line).
Proof.
  unfold ini_parse_line.
  repeat match goal with
  | |- context [if ?b then _ else _] => destruct b
  | |- context [let '(_, _) := ?p in _] => destruct p
  end;
  first
    [ apply effect_none
    | apply effect_error
    | solve [apply effect_call; auto with ini]
    | solve [apply (effect_call cfg handler st
               (set_prev_name (set_section st _) [])); repeat split]
    | solve [apply effect_names; repeat split] ].
Qed.

Lemma HANDLER_fields st s n v :
  let '(st', r) := HANDLER cfg handler st s n v in
  max_line st' = max_line st /\ section st' = section st /\
  prev_name st' = prev_name st /\ lineno st' = lineno st /\
  error st' = error st /\ flagged st' = flagged st /\
  calls st' = calls st ++ [mkCall (lineno st) s n v r].
Proof.
  unfold HANDLER.
  destruct (handler _ _ _ _ _) as [u r]; simpl; repeat split.
Qed.

End LineEffect.

(** ** The first error *)

Lemma record_error_inv {U} (st : state U) :
  (1 <= lineno st)%Z -> first_error_inv st -> first_error_inv (record_error st).
Proof.
  intros Hl (H0 & He & Hr & Hm & Hc).
  unfold first_error_inv, record_error; simpl.
  destruct (Z.eqb_spec (error st) 0) as [E|E].
  - assert (Hnil : flagged st = []).
    { destruct (flagged st) as [|e l]; auto.
      simpl in He; inversion Hr; subst; lia. }
    rewrite Hnil in *.
    simpl; repeat split; auto; try lia.
    + repeat constructor; lia.
    + repeat constructor; lia.
    + eapply Forall_impl; [|exact Hc]; simpl; intros c Hc' Hz.
      specialize (Hc' Hz); simpl in Hc'; contradiction.
  - assert (Hin : In (error st) (flagged st)).
    { destruct (flagged st); simpl in *; [congruence | auto]. }
    repeat split; auto.
    + destruct (flagged st); simpl in *; congruence.
    + apply Forall_app; split; auto. repeat constructor; lia.
    + apply Forall_app; split; auto. repeat constructor.
      rewrite Forall_forall in Hr. apply Hr in Hin; lia.
    + eapply Forall_impl; [|exact Hc]; simpl; intros c Hc' Hz.
      apply in_or_app; auto.
Qed.

Lemma same_logs_inv {U} (st st1 : state U) :
  same_logs st st1 -> first_error_inv st -> first_error_inv st1.
Proof.
  intros (_ & Hl & He & _ & Hc & Hf); unfold first_error_inv.
  rewrite Hl, He, Hc, Hf; auto.
Qed.

Section FirstError.

Context {U Stream : Type}.
Variable cfg : config.
Variable alloc : allocator.
Variable reader : nat -> Stream -> option (list ascii * Stream).
Variable handler : ini_handler U.

Lemma handler_or_error_inv st s n v :
  (1 <= lineno st)%Z -> first_error_inv st ->
  first_error_inv (handler_or_error cfg handler st s n v).
Proof.
  intros Hl Hinv. unfold handler_or_error.
  pose proof (HANDLER_fields cfg handler st s n v) as H.
  destruct (HANDLER cfg handler st s n v) as [st' r].
  destruct H as (_ & _ & _ & Hln & He & Hf & Hc).
  destruct (Z.eqb_spec r 0) as [E|E].
  - (* rejected: the call is flagged by record_error *)
    destruct Hinv as (H0 & Hh & Hr & Hm & Hcs).
    assert (Hpre : first_error_inv
              (mkState (max_line st') (section st') (prev_name st')
                 (lineno st') (error st') (user st') (calls st)
                 (flagged st'))).
    { unfold first_error_inv; simpl. rewrite Hln, He, Hf. auto. }
    apply record_error_inv in Hpre; [|simpl; lia].
    destruct Hpre as (P0 & P1 & P2 & P3 & P4).
    unfold record_error in *; simpl in *.
    repeat split; auto.
    rewrite Hc. apply Forall_app; split; auto.
    repeat constructor; simpl; intros _.
    apply in_or_app; right; left; auto.
  - destruct Hinv as (H0 & Hh & Hr & Hm & Hcs).
    unfold first_error_inv. rewrite Hln, He, Hf, Hc.
    repeat split; auto.
    apply Forall_app; split; auto.
    repeat constructor; simpl; congruence.
Qed.

Lemma ini_parse_line_inv st line :
  (1 <= lineno st)%Z -> first_error_inv st ->
  first_error_inv (ini_parse_line cfg handler st line).
Proof.
  intros Hl Hinv.
  destruct (ini_parse_line_effect cfg handler st line)
    as [|st1 Hs|st1 n v Hs|]; auto.
  - eapply same_logs_inv; eauto.
  - apply handler_or_error_inv.
    + destruct Hs as (_ & -> & _); auto.
    + eapply same_logs_inv; eauto.
  - apply record_error_inv; auto.
Qed.

Lemma ini_parse_line_lineno st line :
  lineno (ini_parse_line cfg handler st line) = lineno st /\
  max_line (ini_parse_line cfg handler st line) = max_line st.
Proof.
  destruct (ini_parse_line_effect cfg handler st line)
    as [|st1 Hs|st1 n v Hs|]; auto.
  - destruct Hs as (-> & -> & _); auto.
  - unfold handler_or_error.
    pose proof (HANDLER_fields cfg handler st1 (section st1) n v) as H.
    destruct (HANDLER _ _ _ _ _ _) as [st' r].
    destruct H as (Hm & _ & _ & Hln & _).
    destruct Hs as (Hm1 & Hl1 & _).
    destruct (Z.eqb r 0); simpl; split; congruence.
Qed.

Lemma ini_discard_line_inv fuel (st : state U) stream st' stream' :
  ini_discard_line reader fuel st stream = Some (st', stream') ->
  (1 <= lineno st)%Z -> first_error_inv st ->
  first_error_inv st' /\ lineno st' = lineno st /\
  max_line st' = max_line st.
Proof.
  revert st stream; induction fuel as [|fuel IH]; intros st stream;
    simpl; [discriminate|].
  destruct (reader 16 stream) as [[abyss stream1]|].
  - intros H Hl Hinv.
    destruct (Ascii.eqb _ NL).
    + injection H as <- <-. split; [apply record_error_inv; auto|auto].
    + apply IH in H; auto using record_error_inv.
  - intros H; injection H as <- <-; auto.
Qed.

Lemma ini_parse_loop_inv fuel st stream o :
  ini_parse_loop cfg alloc reader handler fuel st stream = Some o ->
  allocates alloc ->
  first_error_inv st ->
  first_error_inv (final o) /\ ret o = error (final o) /\
  (INI_STOP_ON_FIRST_ERROR cfg = false ->
   reader (max_line (final o)) (rest o) = None).
Proof.
  intros H Ha; revert st stream H.
  induction fuel as [|fuel IH]; intros st stream; simpl; [discriminate|].
  destruct (reader (max_line st) stream) as [[chunk stream1]|] eqn:Hr.
  2:{ intros H Hinv; injection H as <-; simpl; auto. }
  destruct (if _ && _ then _ else _) as [[|size line stream2]|] eqn:Hg;
    try discriminate.
  { (* realloc never fails *)
    exfalso. destruct (_ && _); [|discriminate].
    clear - Hg Ha. revert Hg. generalize (max_line st) (c_str chunk) stream1.
    induction fuel as [|fuel IH]; intros size line stream; simpl.
    - destruct (buffer_full size line); discriminate.
    - destruct (buffer_full size line); [|discriminate].
      set (size' := if Nat.ltb _ _ then _ else _).
      destruct (Ha size') as [_ ->]; simpl.
      destruct (reader _ stream) as [[c s]|]; [|discriminate].
      destruct (Nat.leb _ _); [discriminate|apply IH]. }
  set (st1 := set_lineno _ _).
  destruct (if buffer_full size line then _ else _)
    as [[st2 stream3]|] eqn:Hd; try discriminate.
  intros H Hinv.
  assert (H1 : first_error_inv st1 /\ (1 <= lineno st1)%Z).
  { destruct Hinv as (H0 & Hh & Hf & Hm & Hc); subst st1.
    unfold first_error_inv; simpl; repeat split; auto; try lia.
    eapply Forall_impl; [|exact Hf]; simpl; intros; lia. }
  destruct H1 as [Hinv1 Hl1].
  assert (H2 : first_error_inv st2 /\ lineno st2 = lineno st1).
  { destruct (buffer_full size line).
    - apply ini_discard_line_inv in Hd; tauto.
    - injection Hd as <- <-; auto. }
  destruct H2 as [Hinv2 Hl2].
  assert (Hinv3 := ini_parse_line_inv st2 line ltac:(lia) Hinv2).
  destruct (INI_STOP_ON_FIRST_ERROR cfg); simpl in H.
  - destruct (Z.eqb (error _) 0); simpl in H.
    + apply IH in H; auto.
    + injection H as <-; simpl.
      split; [exact Hinv3|split; [reflexivity|discriminate]].
  - apply IH in H; auto.
Qed.

End FirstError.

(** ** Reading physical lines *)

Lemma c_str_idem s : c_str (c_str s) = c_str s.
Proof.
  induction s as [|c s IH]; simpl; auto.
  destruct (Ascii.eqb c NUL) eqn:E; simpl; auto.
  rewrite E, IH; auto.
Qed.

Lemma c_str_app_inv a b :
  c_str (a ++ b) = a ++ b -> c_str a = a /\ c_str b = b.
Proof.
  induction a as [|c a IH]; simpl; auto.
  destruct (Ascii.eqb c NUL); [discriminate|].
  intros H; injection H as H. apply IH in H as [-> ->]; auto.
Qed.

Lemma c_str_firstn n s : c_str s = s -> c_str (firstn n s) = firstn n s.
Proof.
  intros H. rewrite <- (firstn_skipn n s) in H.
  apply c_str_app_inv in H; tauto.
Qed.

Lemma c_str_skipn n s : c_str s = s -> c_str (skipn n s) = skipn n s.
Proof.
  intros H. rewrite <- (firstn_skipn n s) in H.
  apply c_str_app_inv in H; tauto.
Qed.

Lemma first_line_app s : fst (first_line s) ++ snd (first_line s) = s.
Proof.
  induction s as [|c s IH]; simpl; auto.
  destruct (Ascii.eqb c NL); simpl; auto.
  destruct (first_line s); simpl in *; congruence.
Qed.

Lemma first_line_nonempty c s : fst (first_line (c :: s)) <> [].
Proof.
  simpl. destruct (Ascii.eqb c NL); simpl; [discriminate|].
  destruct (first_line s); simpl; discriminate.
Qed.

Lemma physical_lines_first_line c s :
  physical_lines (c :: s) =
  fst (first_line (c :: s)) :: physical_lines (snd (first_line (c :: s))).
Proof.
  revert c; induction s as [|d s IH]; intros c; simpl.
  - destruct (Ascii.eqb c NL); auto.
  - destruct (Ascii.eqb c NL); simpl; auto.
    specialize (IH d). simpl in IH. rewrite IH.
    destruct (Ascii.eqb d NL); simpl; auto.
    destruct (first_line s); simpl; auto.
Qed.

Lemma concat_physical_lines s : concat (physical_lines s) = s.
Proof.
  induction s as [|c s IH]; simpl; auto.
  destruct (Ascii.eqb c NL); simpl; [congruence|].
  destruct (physical_lines s); simpl in *; congruence.
Qed.

(** A newline can only be the last character of a first line, and a first
    line without one reaches the end of the input. *)
Lemma first_line_skipn s k :
  k < length (fst (first_line s)) ->
  first_line (skipn k s) =
    (skipn k (fst (first_line s)), snd (first_line s)) /\
  ~ In NL (firstn k (fst (first_line s))).
Proof.
  revert k; induction s as [|c s IH]; intros k; simpl; [lia|].
  destruct (Ascii.eqb_spec c NL) as [E|E]; simpl.
  - intros Hk. assert (k = 0) as -> by lia. simpl.
    subst c; rewrite Ascii.eqb_refl; auto.
  - destruct (first_line s) as [l r] eqn:Hs; simpl in *.
    destruct k as [|k]; simpl.
    + intros _.
      destruct (Ascii.eqb_spec c NL); [contradiction|].
      rewrite Hs; auto.
    + intros Hk. destruct (IH k ltac:(lia)) as [-> Hn].
      split; auto. intros [F|F]; auto.
Qed.

Lemma first_line_no_newline s :
  last_char (fst (first_line s)) <> NL -> snd (first_line s) = [].
Proof.
  unfold last_char.
  induction s as [|c s IH]; simpl; auto.
  destruct (Ascii.eqb_spec c NL) as [E|E]; simpl; [congruence|].
  pose proof (first_line_nonempty) as Hne.
  destruct s as [|d s]; [auto|].
  specialize (Hne d s).
  destruct (first_line (d :: s)) as [l r]; simpl in *.
  destruct l; [congruence|auto].
Qed.

Lemma last_in (l : list ascii) d : l <> [] -> In (last l d) l.
Proof.
  induction l as [|a l IH]; [congruence|].
  intros _. destruct l; [left; auto|].
  right. apply IH; discriminate.
Qed.

Lemma ini_reader_string_loop_first_line num s :
  ini_reader_string_loop num s =
  (firstn (num - 1) (fst (first_line s)),
   skipn (num - 1) (fst (first_line s)) ++ snd (first_line s)).
Proof.
  revert num; induction s as [|c s IH]; intros num; simpl.
  - rewrite firstn_nil, skipn_nil; auto.
  - destruct (Nat.ltb_spec 1 num) as [Hn|Hn].
    + destruct (num - 1) as [|k] eqn:Hk; [lia|].
      destruct (Ascii.eqb c NL); simpl.
      * rewrite firstn_nil, skipn_nil; auto.
      * rewrite IH. replace (S k - 1) with k by lia.
        destruct (first_line s); simpl; auto.
    + replace (num - 1) with 0 by lia. simpl.
      destruct (Ascii.eqb c NL); simpl; auto.
      pose proof (first_line_app s) as H.
      destruct (first_line s); simpl in *; congruence.
Qed.

Lemma ini_reader_string_first_line num c s :
  2 <= num ->
  ini_reader_string num (c :: s) =
  Some (firstn (num - 1) (fst (first_line (c :: s))),
        skipn (num - 1) (fst (first_line (c :: s)))
        ++ snd (first_line (c :: s))).
Proof.
  intros Hn. unfold ini_reader_string.
  destruct (Nat.ltb_spec num 2); [lia|].
  cbn [length Nat.eqb orb].
  rewrite ini_reader_string_loop_first_line; auto.
Qed.

Lemma abyss_reads_small n : 1 <= n <= 15 -> abyss_reads n = 1.
Proof.
  intros H. unfold abyss_reads. symmetry.
  apply (Nat.div_unique (n + 14) 15 1 (n - 1)); lia.
Qed.

Lemma abyss_reads_step n : 15 < n -> abyss_reads n = S (abyss_reads (n - 15)).
Proof.
  intros H. unfold abyss_reads.
  replace (n + 14) with ((n - 15 + 14) + 1 * 15) by lia.
  rewrite Nat.div_add by lia. lia.
Qed.

Section Discard.

Context {U : Type}.

(** The discarding loop reads to the end of the physical line. *)
Lemma ini_discard_line_first_line fuel (st : state U) s :
  c_str s = s -> length s < fuel ->
  ini_discard_line ini_reader_string fuel st s =
  Some (Nat.iter (abyss_reads (length (fst (first_line s)))) record_error st,
        snd (first_line s)).
Proof.
  revert st s; induction fuel as [|fuel IH]; intros st s Hs Hlen; [lia|].
  destruct s as [|c s].
  { reflexivity. }
  cbn [ini_discard_line].
  rewrite ini_reader_string_first_line by lia.
  replace (16 - 1) with 15 by lia.
  pose proof (first_line_app (c :: s)) as Happ.
  pose proof (first_line_nonempty c s) as Hne.
  set (pl := fst (first_line (c :: s))) in *.
  set (rs := snd (first_line (c :: s))) in *.
  assert (Hpl : c_str pl = pl /\ c_str rs = rs).
  { apply c_str_app_inv; rewrite Happ; auto. }
  destruct Hpl as [Hpl Hrs].
  rewrite (c_str_firstn 15 pl Hpl).
  assert (Hlpl : 1 <= length pl) by (destruct pl; simpl; [congruence|lia]).
  assert (Hls : length (c :: s) = length pl + length rs)
    by (rewrite <- Happ, length_app; auto).
  destruct (Nat.le_gt_cases (length pl) 15) as [Hle|Hgt].
  - rewrite firstn_all2, skipn_all2 by lia. simpl app.
    rewrite abyss_reads_small by lia.
    destruct (Ascii.eqb_spec (last_char pl) NL) as [E|E]; [reflexivity|].
    subst rs. rewrite (first_line_no_newline (c :: s)) by exact E.
    destruct fuel; [simpl in *; lia|reflexivity].
  - destruct (first_line_skipn (c :: s) 15 ltac:(fold pl; lia))
      as [Hfl Hno].
    fold pl rs in Hfl, Hno.
    assert (Hlast : last_char (firstn 15 pl) <> NL).
    { intros E. apply Hno. rewrite <- E. apply last_in.
      destruct pl; simpl in *; [lia|discriminate]. }
    destruct (Ascii.eqb_spec (last_char (firstn 15 pl)) NL);
      [contradiction|].
    assert (Hsk : skipn 15 pl ++ rs = skipn 15 (c :: s)).
    { rewrite <- Happ, skipn_app.
      replace (15 - length pl) with 0 by lia. reflexivity. }
    rewrite Hsk, IH.
    + rewrite Hfl. cbn [fst snd].
      rewrite length_skipn, (abyss_reads_step (length pl)) by lia.
      rewrite Nat.iter_succ_r. reflexivity.
    + apply c_str_skipn; auto.
    + rewrite length_skipn. simpl in *; lia.
Qed.

End Discard.

Lemma iter_record_error_fields {U} k (st : state U) :
  let st' := Nat.iter k record_error st in
  max_line st' = max_line st /\ section st' = section st /\
  prev_name st' = prev_name st /\ lineno st' = lineno st /\
  user st' = user st /\ calls st' = calls st.
Proof.
  induction k as [|k IH]; simpl; [repeat split|].
  destruct IH as (? & ? & ? & ? & ? & ?). repeat split; auto.
Qed.

Section Lines.

Context {U : Type}.
Variable cfg : config.
Variable alloc : allocator.
Variable handler : ini_handler U.

Lemma line_step_max_line (st : state U) pl :
  max_line (line_step cfg handler st pl) = max_line st.
Proof.
  unfold line_step.
  rewrite (proj2 (ini_parse_line_lineno cfg handler _ _)).
  apply (iter_record_error_fields _ (set_lineno st (lineno st + 1))).
Qed.

(** After the first read of a physical line, the rest of the line is
    discarded when it did not fit. *)
Lemma discard_rest_of_line fuel (st : state U) c s m :
  2 <= m -> c_str (c :: s) = c :: s -> length (c :: s) <= fuel ->
  let pl := fst (first_line (c :: s)) in
  let rs := snd (first_line (c :: s)) in
  (if buffer_full m (firstn (m - 1) pl)
   then ini_discard_line ini_reader_string fuel st (skipn (m - 1) pl ++ rs)
   else Some (st, skipn (m - 1) pl ++ rs))
  = Some (Nat.iter (abyss_reads (length pl - (m - 1))) record_error st, rs).
Proof.
  intros Hm Hs Hlen pl rs.
  pose proof (first_line_app (c :: s)) as Happ.
  pose proof (first_line_nonempty c s) as Hne.
  fold pl rs in Happ, Hne.
  assert (Hls : length (c :: s) = length pl + length rs)
    by (rewrite <- Happ, length_app; auto).
  destruct (Nat.le_gt_cases (length pl) (m - 1)) as [Hle|Hgt].
  - rewrite firstn_all2, skipn_all2 by lia. simpl app.
    replace (length pl - (m - 1)) with 0 by lia. simpl Nat.iter.
    destruct (buffer_full m pl) eqn:Hfull; auto.
    unfold buffer_full in Hfull. apply andb_true_iff in Hfull as [_ Hl].
    assert (Hrs : rs = []).
    { apply first_line_no_newline. fold pl.
      destruct (Ascii.eqb_spec (last_char pl) NL); [discriminate|auto]. }
    rewrite Hrs. destruct fuel; [simpl in *; lia|reflexivity].
  - destruct (first_line_skipn (c :: s) (m - 1) ltac:(fold pl; lia))
      as [Hfl Hno].
    fold pl rs in Hfl, Hno.
    assert (Hfull : buffer_full m (firstn (m - 1) pl) = true).
    { unfold buffer_full. rewrite length_firstn.
      replace (S (Nat.min (m - 1) (length pl))) with m by lia.
      rewrite Nat.eqb_refl. simpl.
      destruct (Ascii.eqb_spec (last_char (firstn (m - 1) pl)) NL) as [E|E];
        auto.
      exfalso. apply Hno. rewrite <- E. apply last_in.
      intros F. apply (f_equal (@length _)) in F.
      rewrite length_firstn in F. simpl in F. lia. }
    rewrite Hfull.
    assert (Hsk : skipn (m - 1) pl ++ rs = skipn (m - 1) (c :: s)).
    { rewrite <- Happ, skipn_app.
      replace (m - 1 - length pl) with 0 by lia. reflexivity. }
    rewrite Hsk, ini_discard_line_first_line.
    + rewrite Hfl. cbn [fst snd]. rewrite length_skipn. reflexivity.
    + apply c_str_skipn; auto.
    + rewrite length_skipn. lia.
Qed.

(** With a line buffer of fixed size the loop handles the physical lines
    of the string one by one, up to the line at which stop-on-first-error
    ends it. *)
Lemma ini_parse_loop_lines fuel (st : state U) s :
  fixed_buffer cfg -> 2 <= max_line st -> c_str s = s -> length s < fuel ->
  exists j,
    j <= length (physical_lines s) /\
    let st' :=
      ini_parse_lines cfg handler st (firstn j (physical_lines s)) in
    ini_parse_loop cfg alloc ini_reader_string handler fuel st s =
      Some (mkOutcome (error st') st'
                      (concat (skipn j (physical_lines s)))) /\
    (INI_STOP_ON_FIRST_ERROR cfg = false ->
     j = length (physical_lines s)) /\
    (j < length (physical_lines s) -> error st' <> 0%Z).
Proof.
  intros Hfix.
  assert (Hre : INI_ALLOW_REALLOC cfg && negb (INI_USE_STACK cfg) = false).
  { destruct Hfix as [-> | ->]; auto using andb_false_r. }
  revert st s; induction fuel as [|fuel IH]; intros st s Hm Hs Hlen; [lia|].
  destruct s as [|c s].
  { exists 0; simpl. repeat split; auto; lia. }
  pose proof (first_line_app (c :: s)) as Happ.
  pose proof (first_line_nonempty c s) as Hne.
  rewrite physical_lines_first_line.
  set (pl := fst (first_line (c :: s))) in *.
  set (rs := snd (first_line (c :: s))) in *.
  assert (Hpl : c_str pl = pl /\ c_str rs = rs).
  { apply c_str_app_inv; rewrite Happ; auto. }
  destruct Hpl as [Hpl Hrs].
  assert (Hls : length (c :: s) = length pl + length rs)
    by (rewrite <- Happ, length_app; auto).
  assert (Hlpl : 1 <= length pl) by (destruct pl; simpl; [congruence|lia]).
  set (st3 := line_step cfg handler st pl).
  assert (Hloop :
    ini_parse_loop cfg alloc ini_reader_string handler (S fuel) st (c :: s)
    = if INI_STOP_ON_FIRST_ERROR cfg && negb (Z.eqb (error st3) 0)
      then Some (mkOutcome (error st3) st3 rs)
      else ini_parse_loop cfg alloc ini_reader_string handler fuel st3 rs).
  { cbn [ini_parse_loop].
    rewrite ini_reader_string_first_line by lia.
    rewrite Hre. cbv beta iota zeta. fold pl rs.
    rewrite (c_str_firstn _ pl Hpl).
    pose proof (discard_rest_of_line fuel
      (set_lineno (set_max_line st (max_line st))
         (lineno (set_max_line st (max_line st)) + 1))
      c s (max_line st) Hm Hs ltac:(simpl in *; lia)) as Hd.
    cbv zeta in Hd. fold pl rs in Hd. rewrite Hd.
    reflexivity. }
  rewrite Hloop.
  assert (Hm3 : max_line st3 = max_line st) by apply line_step_max_line.
  destruct (INI_STOP_ON_FIRST_ERROR cfg && negb (Z.eqb (error st3) 0))
    eqn:Hstop.
  - exists 1. cbn [firstn skipn length].
    unfold ini_parse_lines. cbn [fold_left]. fold st3.
    rewrite concat_physical_lines.
    apply andb_true_iff in Hstop as [Hs1 Hs2].
    split; [lia|]. split; [reflexivity|]. split.
    + rewrite Hs1; discriminate.
    + intros _. destruct (Z.eqb_spec (error st3) 0); [discriminate|auto].
  - destruct (IH st3 rs ltac:(lia) Hrs ltac:(simpl in *; lia))
      as (j & Hj & Hrun & Hall & Herr).
    exists (S j). cbn [firstn skipn length].
    unfold ini_parse_lines in *. cbn [fold_left]. fold st3.
    cbv zeta in Hrun. rewrite Hrun.
    split; [lia|]. split; [reflexivity|]. split.
    + intros E. rewrite Hall; auto.
    + intros Hlt. apply Herr; lia.
Qed.

(** The same for [ini_parse_string]. *)
Lemma ini_parse_string_lines string (u : U) :
  fixed_line_buffer cfg alloc ->
  exists j,
    let lines := physical_lines (c_str string) in
    j <= length lines /\
    let st' :=
      ini_parse_lines cfg handler (initial_state cfg u) (firstn j lines) in
    ini_parse_string cfg alloc handler string u =
      Some (mkOutcome (error st') st' (concat (skipn j lines))) /\
    (INI_STOP_ON_FIRST_ERROR cfg = false -> j = length lines) /\
    (j < length lines -> error st' <> 0%Z).
Proof.
  intros [Hbuf Hm].
  unfold ini_parse_string, ini_parse_string_length, ini_parse_stream.
  assert (Hok : negb (INI_USE_STACK cfg)
                && negb (ini_malloc alloc (INI_INITIAL_ALLOC cfg)) = false).
  { destruct Hbuf as [-> | [_ ->]]; auto using andb_false_r. }
  rewrite Hok.
  assert (Hcs : firstn (strlen string) string = c_str string).
  { unfold strlen. clear. induction string as [|c s IH]; simpl; auto.
    destruct (Ascii.eqb c NUL); simpl; congruence. }
  rewrite Hcs.
  apply ini_parse_loop_lines;
    auto using c_str_idem; try (unfold strlen; lia).
  destruct Hbuf as [H | [H _]]; [left|right]; auto.
Qed.

End Lines.

(** ** The growing heap buffer *)

Lemma firstn_add_skipn {A} a b (l : list A) :
  firstn a l ++ firstn b (skipn a l) = firstn (a + b) l.
Proof.
  revert l; induction a as [|a IH]; intros l; simpl; auto.
  destruct l; simpl; [apply firstn_nil|]. f_equal; auto.
Qed.

(** A read that stops inside a physical line fills the buffer. *)
Lemma buffer_full_first_line s m :
  2 <= m -> m - 1 < length (fst (first_line s)) ->
  buffer_full m (firstn (m - 1) (fst (first_line s))) = true.
Proof.
  intros Hm Hlt.
  destruct (first_line_skipn s (m - 1) Hlt) as [_ Hno].
  unfold buffer_full. rewrite length_firstn.
  replace (S (Nat.min (m - 1) (length (fst (first_line s))))) with m by lia.
  rewrite Nat.eqb_refl. simpl.
  destruct (Ascii.eqb_spec (last_char (firstn (m - 1) (fst (first_line s))))
              NL) as [E|E]; auto.
  exfalso. apply Hno. rewrite <- E. apply last_in.
  intros F. apply (f_equal (@length _)) in F.
  rewrite length_firstn in F. simpl in F. lia.
Qed.

Section Growth.

Variable cfg : config.
Variable alloc : allocator.
Hypothesis Hrealloc : forall n, ini_realloc alloc n = true.

(** On a physical line of [INI_MAX_LINE] characters or more the growing
    loop doubles the buffer until it has [INI_MAX_LINE] bytes, and leaves in
    it the first [INI_MAX_LINE - 1] characters of the line. *)
Lemma ini_grow_line_first_line fuel size c s :
  2 <= size <= INI_MAX_LINE cfg ->
  c_str (c :: s) = c :: s ->
  INI_MAX_LINE cfg <= length (fst (first_line (c :: s))) ->
  INI_MAX_LINE cfg - size < fuel ->
  let pl := fst (first_line (c :: s)) in
  let rs := snd (first_line (c :: s)) in
  ini_grow_line cfg alloc ini_reader_string fuel size
    (firstn (size - 1) pl) (skipn (size - 1) pl ++ rs)
  = Some (Grown (INI_MAX_LINE cfg) (firstn (INI_MAX_LINE cfg - 1) pl)
                (skipn (INI_MAX_LINE cfg - 1) pl ++ rs)).
Proof.
  intros Hsize Hs Hlong Hfuel pl rs.
  pose proof (first_line_app (c :: s)) as Happ. fold pl rs in Happ.
  assert (Hpl : c_str pl = pl).
  { rewrite <- Happ in Hs. apply c_str_app_inv in Hs; tauto. }
  fold pl in Hlong.
  revert size Hsize Hfuel; induction fuel as [|fuel IH];
    intros size Hsize Hfuel; [lia|].
  cbn [ini_grow_line].
  pose proof (buffer_full_first_line (c :: s) size ltac:(lia)
                ltac:(fold pl; lia)) as Hfull.
  fold pl in Hfull. rewrite Hfull, Hrealloc. cbn [negb].
  rewrite length_firstn.
  replace (Nat.min (size - 1) (length pl)) with (size - 1) by lia.
  destruct (Nat.eq_dec size (INI_MAX_LINE cfg)) as [E|E].
  { (* the buffer cannot grow: the reader is asked for one byte *)
    destruct (Nat.ltb_spec (INI_MAX_LINE cfg) (size * 2)); [|lia].
    rewrite <- E. replace (size - (size - 1)) with 1 by lia.
    unfold ini_reader_string. cbn [Nat.ltb Nat.leb orb].
    rewrite orb_true_r. reflexivity. }
  destruct (first_line_skipn (c :: s) (size - 1) ltac:(fold pl; lia))
    as [Hfl _].
  fold pl rs in Hfl.
  assert (Hsk : skipn (size - 1) pl ++ rs = skipn (size - 1) (c :: s)).
  { rewrite <- Happ, skipn_app.
    replace (size - 1 - length pl) with 0 by lia. reflexivity. }
  rewrite Hsk.
  destruct (skipn (size - 1) (c :: s)) as [|d t] eqn:Hd.
  { apply (f_equal (@length _)) in Hsk.
    rewrite length_app, length_skipn in Hsk. simpl in Hsk. lia. }
  destruct (Nat.ltb_spec (INI_MAX_LINE cfg) (size * 2)) as [Hcap|Hcap].
  - rewrite ini_reader_string_first_line by lia.
    rewrite Hfl. cbn [fst snd].
    rewrite Nat.leb_refl.
    rewrite c_str_firstn by (apply c_str_skipn; exact Hpl).
    rewrite firstn_add_skipn, skipn_skipn.
    replace (size - 1 + (INI_MAX_LINE cfg - (size - 1) - 1))
      with (INI_MAX_LINE cfg - 1) by lia.
    replace (INI_MAX_LINE cfg - (size - 1) - 1 + (size - 1))
      with (INI_MAX_LINE cfg - 1) by lia.
    reflexivity.
  - rewrite ini_reader_string_first_line by lia.
    rewrite Hfl. cbn [fst snd].
    rewrite c_str_firstn by (apply c_str_skipn; exact Hpl).
    rewrite firstn_add_skipn, skipn_skipn.
    replace (size - 1 + (size * 2 - (size - 1) - 1))
      with (size * 2 - 1) by lia.
    replace (size * 2 - (size - 1) - 1 + (size - 1))
      with (size * 2 - 1) by lia.
    destruct (Nat.leb_spec (INI_MAX_LINE cfg) (size * 2)) as [Hle|Hgt].
    + replace (size * 2) with (INI_MAX_LINE cfg) by lia. reflexivity.
    + apply IH; lia.
Qed.

End Growth.

(** ** Lines that do not fit the buffer (C4) *)

Lemma iter_record_error_eq {U} k (st : state U) :
  Nat.iter (S k) record_error st =
  mkState (max_line st) (section st) (prev_name st) (lineno st)
          (if Z.eqb (error st) 0 then lineno st else error st)
          (user st) (calls st) (flagged st ++ repeat (lineno st) (S k)).
Proof.
  induction k as [|k IH].
  - reflexivity.
  - rewrite Nat.iter_succ, IH. unfold record_error; simpl.
    f_equal.
    + destruct (Z.eqb_spec (error st) 0) as [E|E].
      * destruct (Z.eqb (lineno st) 0) eqn:E'; auto.
      * destruct (Z.eqb_spec (error st) 0); [contradiction|auto].
    + rewrite <- app_assoc. f_equal. simpl. f_equal.
      symmetry; apply repeat_cons.
Qed.

Lemma abyss_reads_pos n : 1 <= n -> 1 <= abyss_reads n.
Proof.
  intros H. unfold abyss_reads.
  replace (n + 14) with ((n - 1) + 1 * 15) by lia.
  rewrite Nat.div_add by lia. lia.
Qed.

Section Sticky.

Context {U : Type}.
Variable cfg : config.
Variable handler : ini_handler U.

Lemma handler_or_error_sticky (st : state U) s n v :
  error st <> 0%Z ->
  error (handler_or_error cfg handler st s n v) = error st.
Proof.
  intros He. unfold handler_or_error.
  pose proof (HANDLER_fields cfg handler st s n v) as H.
  destruct (HANDLER cfg handler st s n v) as [st' r].
  destruct H as (_ & _ & _ & _ & Herr & _).
  destruct (Z.eqb r 0); auto.
  unfold record_error; simpl. rewrite Herr.
  destruct (Z.eqb_spec (error st) 0); [contradiction|auto].
Qed.

(** An error once recorded is not overwritten by a later line. *)
Lemma ini_parse_line_sticky (st : state U) line :
  error st <> 0%Z -> error (ini_parse_line cfg handler st line) = error st.
Proof.
  intros He.
  destruct (ini_parse_line_effect cfg handler st line)
    as [|st1 Hs|st1 n v Hs|]; auto.
  - destruct Hs as (_ & _ & -> & _); auto.
  - destruct Hs as (_ & _ & E & _).
    rewrite handler_or_error_sticky; congruence.
  - unfold record_error; simpl.
    destruct (Z.eqb_spec (error st) 0); [contradiction|auto].
Qed.

End Sticky.

(** C4.  With stop-on-first-error off and a line buffer that has the
    [INI_MAX_LINE] bytes of ini.h (the buffer on the stack) or grows to them
    (the heap buffer with [realloc]), a physical line that does not fit
    [INI_MAX_LINE] bytes is cut to the [INI_MAX_LINE - 1] characters the
    buffer holds; the rest of the physical line is read and dropped, up to
    and including its newline or up to the end of the input; the line's
    number becomes the error unless an error is already recorded; and the
    loop goes on with the text after that physical line, and returns. *)
Theorem overlong_line_is_truncated {U} cfg alloc (handler : ini_handler U)
    fuel (st : state U) s :
  buffer_reaches_max_line cfg alloc (max_line st) ->
  INI_STOP_ON_FIRST_ERROR cfg = false ->
  (0 <= lineno st)%Z ->
  2 <= INI_MAX_LINE cfg ->
  c_str s = s ->
  length s < fuel ->
  INI_MAX_LINE cfg <= length (fst (first_line s)) ->
  let pl := fst (first_line s) in
  let n := (lineno st + 1)%Z in
  exists k,
    1 <= k /\
    let st1 :=
      mkState (INI_MAX_LINE cfg) (section st) (prev_name st) n
              (if Z.eqb (error st) 0 then n else error st)
              (user st) (calls st) (flagged st ++ repeat n k) in
    let st2 :=
      ini_parse_line cfg handler st1 (firstn (INI_MAX_LINE cfg - 1) pl) in
    ini_parse_loop cfg alloc ini_reader_string handler fuel st s =
    ini_parse_loop cfg alloc ini_reader_string handler (fuel - 1) st2
                   (snd (first_line s)) /\
    (exists o,
        ini_parse_loop cfg alloc ini_reader_string handler fuel st s
        = Some o) /\
    error st2 = error st1.
Proof.
  intros Hbuf Hstop Hln Hm Hs Hlen Hlong pl n.
  destruct fuel as [|fuel]; [lia|].
  destruct s as [|c s]; [simpl in Hlong; lia|].
  exists (abyss_reads (length pl - (INI_MAX_LINE cfg - 1))).
  split; [apply abyss_reads_pos; subst pl; lia|].
  destruct (abyss_reads (length pl - (INI_MAX_LINE cfg - 1)))
    as [|k] eqn:Hk.
  { pose proof (abyss_reads_pos (length pl - (INI_MAX_LINE cfg - 1))
                  ltac:(subst pl; lia)). lia. }
  cbv zeta. split; [|split].
  2:{ apply ini_parse_loop_total. exact Hlen. }
  - replace (S fuel - 1) with fuel by lia.
    pose proof (first_line_app (c :: s)) as Happ. fold pl in Happ.
    assert (Hpl : c_str pl = pl).
    { rewrite <- Happ in Hs. apply c_str_app_inv in Hs; tauto. }
    assert (Hls : length pl <= length (c :: s)).
    { apply (f_equal (@length _)) in Happ.
      rewrite length_app in Happ. lia. }
    assert (Hfuel : INI_MAX_LINE cfg <= fuel).
    { fold pl in Hlong. cbn [length] in *. lia. }
    pose proof (discard_rest_of_line fuel
      (set_lineno (set_max_line st (INI_MAX_LINE cfg))
         (lineno (set_max_line st (INI_MAX_LINE cfg)) + 1))
      c s (INI_MAX_LINE cfg) Hm Hs ltac:(simpl in *; lia)) as Hd.
    cbv zeta in Hd. fold pl in Hd.
    unfold buffer_reaches_max_line in Hbuf.
    cbn [ini_parse_loop].
    destruct (INI_ALLOW_REALLOC cfg && negb (INI_USE_STACK cfg)).
    + destruct Hbuf as [Hsize Hrealloc].
      rewrite ini_reader_string_first_line by lia.
      cbv beta iota zeta. fold pl.
      rewrite (c_str_firstn _ pl Hpl).
      pose proof (ini_grow_line_first_line cfg alloc Hrealloc fuel
                    (max_line st) c s Hsize Hs Hlong ltac:(lia)) as Hg.
      cbv zeta in Hg. fold pl in Hg. rewrite Hg.
      rewrite Hd, Hk, Hstop.
      rewrite iter_record_error_eq. cbn [max_line section prev_name lineno
        error user calls flagged set_lineno set_max_line andb].
      reflexivity.
    + rewrite ini_reader_string_first_line by lia.
      cbv beta iota zeta. fold pl.
      rewrite Hbuf, (c_str_firstn _ pl Hpl).
      rewrite Hd, Hk, Hstop.
      rewrite iter_record_error_eq. cbn [max_line section prev_name lineno
        error user calls flagged set_lineno set_max_line andb].
      reflexivity.
  - apply ini_parse_line_sticky. cbn [error].
    destruct (Z.eqb_spec (error st) 0); lia.
Qed.

(** ** Facts about the string helpers *)

Lemma drop_while_snoc p l c :
  drop_while p (l ++ [c]) =
  match drop_while p l with
  | [] => if p c then [] else [c]
  | l' => l' ++ [c]
  end.
Proof.
  induction l as [|a l IH]; simpl; auto.
  destruct (p a); auto.
Qed.

Lemma ini_rstrip_cons c s :
  ini_rstrip (c :: s) =
  match ini_rstrip s with
  | [] => if isspace c then [] else [c]
  | t => c :: t
  end.
Proof.
  unfold ini_rstrip. simpl rev. rewrite drop_while_snoc.
  destruct (drop_while isspace (rev s)) as [|a l] eqn:E.
  - simpl. destruct (isspace c); auto.
  - rewrite rev_app_distr. simpl.
    destruct (rev l ++ [a]) eqn:E'; auto.
    destruct (rev l); discriminate.
Qed.

Lemma ini_rstrip_nonspace c s :
  isspace c = false -> ini_rstrip (c :: s) = c :: ini_rstrip s.
Proof.
  intros H. rewrite ini_rstrip_cons, H. destruct (ini_rstrip s); auto.
Qed.

Lemma ini_rstrip_app_nonspace a c s :
  isspace c = false -> ini_rstrip (a ++ c :: s) = a ++ c :: ini_rstrip s.
Proof.
  intros H. induction a as [|x a IH]; simpl.
  - apply ini_rstrip_nonspace; auto.
  - rewrite ini_rstrip_cons, IH. destruct a; auto.
Qed.

(** [ini_rstrip] keeps a prefix. *)
Lemma ini_rstrip_prefix s : exists t, s = ini_rstrip s ++ t.
Proof.
  induction s as [|c s [t IH]].
  - exists []; auto.
  - rewrite ini_rstrip_cons.
    destruct (ini_rstrip s) as [|a l] eqn:E.
    + destruct (isspace c).
      * exists (c :: s); auto.
      * exists s. simpl in IH. simpl. congruence.
    + exists t. simpl. rewrite IH at 1. reflexivity.
Qed.

Lemma ini_rstrip_incl s c : In c (ini_rstrip s) -> In c s.
Proof.
  destruct (ini_rstrip_prefix s) as [t H]. intros Hin.
  rewrite H. apply in_or_app; auto.
Qed.

Lemma ini_lskip_nonspace c s :
  isspace c = false -> ini_lskip (c :: s) = c :: s.
Proof. intros H. unfold ini_lskip. simpl. rewrite H. auto. Qed.

Lemma ini_lskip_app_spaces ws s :
  forallb isspace ws = true -> ini_lskip (ws ++ s) = ini_lskip s.
Proof.
  induction ws as [|w ws IH]; simpl; auto.
  intros H. apply andb_true_iff in H as [Hw Hws].
  unfold ini_lskip in *. simpl. rewrite Hw. auto.
Qed.

Lemma find_loop_app inline prefixes chars ws s :
  fst (find_loop inline prefixes chars ws s)
  ++ snd (find_loop inline prefixes chars ws s) = s.
Proof.
  revert ws; induction s as [|c s IH]; intros ws; simpl; auto.
  destruct (_ && _); simpl; auto.
  specialize (IH (isspace c)).
  destruct (find_loop inline prefixes chars (isspace c) s); simpl in *.
  congruence.
Qed.

(** The character at which the scan stops is a character of the string. *)
Lemma find_loop_found_in inline prefixes chars ws s :
  snd (find_loop inline prefixes chars ws s) <> [] ->
  In (deref (snd (find_loop inline prefixes chars ws s))) s.
Proof.
  intros H.
  pose proof (find_loop_app inline prefixes chars ws s) as Happ.
  destruct (snd (find_loop inline prefixes chars ws s)) as [|c t];
    [congruence|].
  rewrite <- Happ. apply in_or_app; right; left; auto.
Qed.

(** A scan over text without inline comment and without the characters
    looked for stops at the first of these characters. *)
Lemma find_loop_plain cfg chars ws name c t :
  no_inline_comment cfg ws name = true ->
  forallb (fun x => negb (strchr chars x)) name = true ->
  strchr chars c = true ->
  find_loop (INI_ALLOW_INLINE_COMMENTS cfg) (INI_INLINE_COMMENT_PREFIXES cfg)
            (Some chars) ws (name ++ c :: t)
  = (name, c :: t).
Proof.
  revert ws; induction name as [|x name IH]; intros ws Hni Hch Hc; simpl.
  - rewrite Hc. reflexivity.
  - simpl in Hni, Hch.
    apply andb_true_iff in Hni as [H1 H2].
    apply andb_true_iff in Hch as [H3 H4].
    rewrite H1, H3. simpl. rewrite IH; auto.
Qed.

(** An inline comment ends the scan at the latest where it starts. *)
Lemma find_loop_comment inline prefixes chars ws a w p b :
  inline = true -> isspace w = true -> strchr prefixes p = true ->
  In (deref (snd (find_loop inline prefixes chars ws (a ++ w :: p :: b))))
     (a ++ [w; p]).
Proof.
  intros -> Hw Hp.
  revert ws; induction a as [|x a IH]; intros ws; simpl.
  - destruct (_ && _); simpl; auto.
    rewrite Hw, Hp. simpl. rewrite andb_false_r. simpl. auto.
  - destruct (_ && _); simpl; auto.
    specialize (IH (isspace x)).
    destruct (find_loop true prefixes chars (isspace x) (a ++ w :: p :: b));
      simpl in *; auto.
Qed.

(** ** One line at a time *)

Lemma has_bom_head c s : has_bom (c :: s) = true -> c = ascii_of_nat 239.
Proof.
  simpl. destruct s as [|b [|d s]]; try discriminate.
  intros H. apply andb_true_iff in H as [H _].
  apply andb_true_iff in H as [H _].
  apply Ascii.eqb_eq; auto.
Qed.

Lemma unbom_head cfg n c s :
  c <> ascii_of_nat 239 -> unbom cfg n (c :: s) = c :: s.
Proof.
  intros H. unfold unbom.
  destruct (has_bom (c :: s)) eqn:E.
  - apply has_bom_head in E; contradiction.
  - rewrite andb_false_r; auto.
Qed.

Lemma isspace_not_bom c : isspace c = true -> c <> ascii_of_nat 239.
Proof. intros H E; subst c; discriminate. Qed.

Section OneLine.

Context {U : Type}.
Variable cfg : config.
Variable handler : ini_handler U.

Let parse_line := ini_parse_line cfg handler.
Let call_handler := handler_or_error cfg handler.

(** [ini_parse_line] in the vocabulary of the properties. *)
Lemma ini_parse_line_eq (st : state U) line :
  parse_line st line =
  let start := stripped cfg (lineno st) line in
  if comment_or_blank cfg (lineno st) line then st
  else if continues cfg st line then
    call_handler st (section st) (Some (prev_name st))
      (Some (if INI_ALLOW_INLINE_COMMENTS cfg
             then ini_rstrip (fst (find_chars_or_comment cfg start None))
             else start))
  else if Ascii.eqb (deref start) "[" then
    let '(inside, found) :=
      find_chars_or_comment cfg (tl start) (Some (cs "]")) in
    if Ascii.eqb (deref found) "]" then
      let st1 := set_section st (ini_strncpy0 inside MAX_SECTION) in
      let st2 :=
        if INI_ALLOW_MULTILINE cfg then set_prev_name st1 [] else st1 in
      if INI_CALL_HANDLER_ON_NEW_SECTION cfg
      then call_handler st2 (section st2) None None
      else st2
    else record_error st
  else if nonempty start then
    let '(before, found) :=
      find_chars_or_comment cfg start (Some (cs "=:")) in
    if Ascii.eqb (deref found) "=" || Ascii.eqb (deref found) ":" then
      let name := ini_rstrip before in
      let st1 :=
        if INI_ALLOW_MULTILINE cfg
        then set_prev_name st (ini_strncpy0 name MAX_NAME) else st in
      call_handler st1 (section st1) (Some name)
                   (Some (value_of cfg (tl found)))
    else if INI_ALLOW_NO_VALUE cfg then
      call_handler st (section st) (Some (ini_rstrip before)) None
    else record_error st
  else st.
Proof.
  subst parse_line call_handler.
  unfold ini_parse_line, stripped, comment_or_blank, continues, indented,
    stripped, unbom, value_of, find_chars_or_comment.
  cbv zeta.
  repeat match goal with
  | |- context [if ?b then _ else _] => destruct b eqn:?
  | |- context [let '(_, _) := ?p in _] => destruct p eqn:?
  end; try reflexivity; try congruence.
Qed.

(** The fields of the state after a call of the handler that may record
    an error. *)
Lemma handler_or_error_fields (st : state U) s n v :
  let st' := call_handler st s n v in
  let r := snd (handler (user st) s n v
                  (if INI_HANDLER_LINENO cfg then Some (lineno st)
                   else None)) in
  max_line st' = max_line st /\ section st' = section st /\
  prev_name st' = prev_name st /\ lineno st' = lineno st /\
  user st' = fst (handler (user st) s n v
                    (if INI_HANDLER_LINENO cfg then Some (lineno st)
                     else None)) /\
  calls st' = calls st ++ [mkCall (lineno st) s n v r] /\
  error st' = (if Z.eqb r 0 && Z.eqb (error st) 0 then lineno st
               else error st) /\
  flagged st' = (if Z.eqb r 0 then flagged st ++ [lineno st]
                 else flagged st).
Proof.
  subst call_handler. unfold handler_or_error, HANDLER. cbv zeta.
  destruct (handler _ _ _ _ _) as [u r]. simpl.
  destruct (Z.eqb r 0); simpl; repeat split; auto.
Qed.

End OneLine.

(** ** A section header without closing bracket (C7) *)

Lemma no_closing_bracket_found cfg body :
  no_closing_bracket cfg body ->
  Ascii.eqb
    (deref (snd (find_chars_or_comment cfg (ini_rstrip body)
                   (Some (cs "]"))))) "]" = false.
Proof.
  intros H. apply Ascii.eqb_neq. intros E.
  unfold find_chars_or_comment, ini_find_chars_or_comment in E.
  destruct H as [Hno | (Hin & a & w & p & b & -> & Hno & Hw & Hp & Hne & Hpre)].
  - apply Hno. apply ini_rstrip_incl. rewrite <- E.
    apply find_loop_found_in. intros F. rewrite F in E. discriminate.
  - replace (a ++ w :: p :: b) with ((a ++ [w]) ++ p :: b) in E
      by (rewrite <- app_assoc; reflexivity).
    rewrite ini_rstrip_app_nonspace in E by auto.
    rewrite <- app_assoc in E. simpl app in E.
    pose proof (find_loop_comment (INI_ALLOW_INLINE_COMMENTS cfg)
      (INI_INLINE_COMMENT_PREFIXES cfg) (Some (cs "]")) false a w p
      (ini_rstrip b) Hin Hw Hpre) as Hfound.
    rewrite E in Hfound.
    apply in_app_or in Hfound as [F|[F|[F|[]]]]; auto.
    subst w; discriminate.
Qed.

(** C7.  A line that begins with an opening bracket and holds no closing
    bracket before any inline comment records its line number as the error
    unless an error is already recorded, calls the handler not at all, and
    leaves the section, the remembered name and the user state as they
    were. *)
Theorem unterminated_section_header {U} cfg (handler : ini_handler U)
    (st : state U) body :
  strchr (INI_START_COMMENT_PREFIXES cfg) "[" = false ->
  no_closing_bracket cfg body ->
  let st' := ini_parse_line cfg handler st ("[" :: body) in
  error st' = (if Z.eqb (error st) 0 then lineno st else error st) /\
  flagged st' = flagged st ++ [lineno st] /\
  calls st' = calls st /\
  user st' = user st /\
  section st' = section st /\
  prev_name st' = prev_name st.
Proof.
  intros Hcomment Hno st'. subst st'.
  assert (Hst : stripped cfg (lineno st) ("[" :: body)
                = "[" :: ini_rstrip body).
  { unfold stripped. rewrite unbom_head by discriminate.
    rewrite ini_lskip_nonspace by reflexivity.
    apply ini_rstrip_nonspace; reflexivity. }
  assert (Hind : indented cfg (lineno st) ("[" :: body) = false).
  { unfold indented. rewrite unbom_head by discriminate.
    rewrite ini_lskip_nonspace by reflexivity.
    apply Nat.ltb_irrefl. }
  rewrite ini_parse_line_eq. cbv zeta.
  unfold comment_or_blank, continues.
  rewrite Hst, Hind. cbn [deref tl]. rewrite Hcomment.
  rewrite andb_false_r. cbn [Ascii.eqb Bool.eqb andb].
  pose proof (no_closing_bracket_found cfg body Hno) as Hf.
  destruct (find_chars_or_comment cfg (ini_rstrip body) (Some (cs "]")))
    as [inside found].
  cbn [snd] in Hf. rewrite Hf.
  unfold record_error; simpl. repeat split; auto.
Qed.

(** A scan over text that holds neither an inline comment nor one of the
    characters looked for runs to the end. *)
Lemma find_loop_none cfg chars ws s :
  no_inline_comment cfg ws s = true ->
  forallb (fun x => negb (strchr chars x)) s = true ->
  find_loop (INI_ALLOW_INLINE_COMMENTS cfg) (INI_INLINE_COMMENT_PREFIXES cfg)
            (Some chars) ws s
  = (s, []).
Proof.
  revert ws; induction s as [|x s IH]; intros ws Hp1 Hp2; simpl; auto.
  simpl in Hp1, Hp2.
  apply andb_true_iff in Hp1 as [Ha Hb].
  apply andb_true_iff in Hp2 as [Hc Hd].
  rewrite Ha, Hc. simpl. rewrite IH; auto.
Qed.

(** ** The branches of [ini_parse_line] *)

Section Branches.

Context {U : Type}.
Variable cfg : config.
Variable handler : ini_handler U.

Let parse_line := ini_parse_line cfg handler.
Let call_handler := handler_or_error cfg handler.

Lemma ini_parse_line_comment (st : state U) line :
  comment_or_blank cfg (lineno st) line = true -> parse_line st line = st.
Proof.
  intros H. subst parse_line. rewrite ini_parse_line_eq. cbv zeta.
  rewrite H. reflexivity.
Qed.

Lemma ini_parse_line_continuation (st : state U) line :
  comment_or_blank cfg (lineno st) line = false ->
  continues cfg st line = true ->
  parse_line st line =
  call_handler st (section st) (Some (prev_name st))
    (Some (if INI_ALLOW_INLINE_COMMENTS cfg
           then ini_rstrip
                  (fst (find_chars_or_comment cfg
                          (stripped cfg (lineno st) line) None))
           else stripped cfg (lineno st) line)).
Proof.
  intros H1 H2. subst parse_line. rewrite ini_parse_line_eq. cbv zeta.
  rewrite H1, H2. reflexivity.
Qed.

Lemma ini_parse_line_section (st : state U) line name tail :
  comment_or_blank cfg (lineno st) line = false ->
  continues cfg st line = false ->
  stripped cfg (lineno st) line = "[" :: name ++ "]" :: tail ->
  plain cfg (cs "]") name ->
  parse_line st line =
  if INI_CALL_HANDLER_ON_NEW_SECTION cfg
  then call_handler (enter_section cfg st name)
                    (section (enter_section cfg st name)) None None
  else enter_section cfg st name.
Proof.
  intros H1 H2 H3 [Hp1 Hp2]. subst parse_line.
  rewrite ini_parse_line_eq. cbv zeta.
  rewrite H1, H2, H3. cbn [deref tl].
  unfold find_chars_or_comment, ini_find_chars_or_comment.
  rewrite find_loop_plain by auto.
  reflexivity.
Qed.

Lemma ini_parse_line_unterminated (st : state U) line body :
  comment_or_blank cfg (lineno st) line = false ->
  continues cfg st line = false ->
  stripped cfg (lineno st) line = "[" :: ini_rstrip body ->
  no_closing_bracket cfg body ->
  parse_line st line = record_error st.
Proof.
  intros H1 H2 H3 Hno. subst parse_line.
  rewrite ini_parse_line_eq. cbv zeta.
  rewrite H1, H2, H3. cbn [deref tl].
  pose proof (no_closing_bracket_found cfg body Hno) as Hf.
  destruct (find_chars_or_comment cfg (ini_rstrip body) (Some (cs "]")))
    as [inside found].
  cbn [snd] in Hf. rewrite Hf. reflexivity.
Qed.

Lemma ini_parse_line_keyvalue (st : state U) line key sep rhs :
  comment_or_blank cfg (lineno st) line = false ->
  continues cfg st line = false ->
  stripped cfg (lineno st) line = key ++ sep :: rhs ->
  plain cfg (cs "=:") key ->
  deref key <> "[" ->
  sep = "=" \/ sep = ":" ->
  parse_line st line =
  call_handler (remember cfg st (ini_rstrip key))
               (section st) (Some (ini_rstrip key))
               (Some (value_of cfg rhs)).
Proof.
  intros H1 H2 H3 [Hp1 Hp2] Hk Hsep. subst parse_line.
  rewrite ini_parse_line_eq. cbv zeta.
  rewrite H1, H2, H3.
  assert (Hd : deref (key ++ sep :: rhs) <> "[" /\
               nonempty (key ++ sep :: rhs) = true).
  { destruct key as [|k key]; simpl.
    - destruct Hsep; subst sep; split; auto; discriminate.
    - split; auto. simpl in Hp2. apply andb_true_iff in Hp2 as [Hp2 _].
      unfold nonempty, strchr in *. simpl in *.
      destruct (Ascii.eqb k NUL); simpl in *; [discriminate|auto]. }
  destruct Hd as [Hd1 Hd2].
  apply Ascii.eqb_neq in Hd1. rewrite Hd1, Hd2.
  unfold find_chars_or_comment, ini_find_chars_or_comment.
  rewrite find_loop_plain; auto.
  2:{ destruct Hsep; subst sep; reflexivity. }
  cbn [deref tl].
  assert (Hs : Ascii.eqb sep "=" || Ascii.eqb sep ":" = true)
    by (destruct Hsep; subst sep; reflexivity).
  rewrite Hs. unfold remember.
  destruct (INI_ALLOW_MULTILINE cfg); reflexivity.
Qed.

Lemma ini_parse_line_no_separator (st : state U) line :
  comment_or_blank cfg (lineno st) line = false ->
  continues cfg st line = false ->
  deref (stripped cfg (lineno st) line) <> "[" ->
  plain cfg (cs "=:") (stripped cfg (lineno st) line) ->
  parse_line st line =
  if INI_ALLOW_NO_VALUE cfg
  then call_handler st (section st)
                    (Some (ini_rstrip (stripped cfg (lineno st) line)))
                    None
  else record_error st.
Proof.
  intros H1 H2 Hk [Hp1 Hp2]. subst parse_line.
  rewrite ini_parse_line_eq. cbv zeta.
  rewrite H1, H2.
  apply Ascii.eqb_neq in Hk. rewrite Hk.
  assert (Hne : nonempty (stripped cfg (lineno st) line) = true).
  { unfold comment_or_blank, strchr in H1. unfold nonempty.
    destruct (Ascii.eqb _ NUL); [discriminate|auto]. }
  rewrite Hne.
  assert (Hf : find_chars_or_comment cfg (stripped cfg (lineno st) line)
                 (Some (cs "=:"))
               = (stripped cfg (lineno st) line, [])).
  { apply find_loop_none; auto. }
  rewrite Hf. cbn [deref Ascii.eqb orb]. reflexivity.
Qed.

End Branches.

Lemma remember_same_logs {U} cfg (st : state U) name :
  same_logs st (remember cfg st name) /\
  section (remember cfg st name) = section st.
Proof.
  unfold remember. destruct (INI_ALLOW_MULTILINE cfg); repeat split.
Qed.

Lemma enter_section_same_logs {U} cfg (st : state U) name :
  same_logs st (enter_section cfg st name) /\
  section (enter_section cfg st name) = ini_strncpy0 name MAX_SECTION.
Proof.
  unfold enter_section. destruct (INI_ALLOW_MULTILINE cfg); repeat split.
Qed.

Lemma stripped_spaces cfg n ws c rest :
  forallb isspace ws = true -> isspace c = false ->
  (ws = [] -> c <> ascii_of_nat 239) ->
  stripped cfg n (ws ++ c :: rest) = c :: ini_rstrip rest /\
  indented cfg n (ws ++ c :: rest) = negb (Nat.eqb (length ws) 0).
Proof.
  intros Hws Hc Hb.
  assert (Hu : unbom cfg n (ws ++ c :: rest) = ws ++ c :: rest).
  { destruct ws as [|w ws]; simpl.
    - apply unbom_head; auto.
    - apply unbom_head. simpl in Hws. apply andb_true_iff in Hws as [Hw _].
      apply isspace_not_bom; auto. }
  unfold stripped, indented. rewrite Hu.
  rewrite ini_lskip_app_spaces, ini_lskip_nonspace by auto.
  split; [apply ini_rstrip_nonspace; auto|].
  rewrite length_app. simpl.
  destruct ws; simpl.
  - apply Nat.ltb_irrefl.
  - apply Nat.ltb_lt. lia.
Qed.

(** ** A line with an empty key (C10) *)

(** C10, as amended.  A line whose first character that is not whitespace
    is a separator, and which is not taken as a continuation line (no
    continuation lines, no remembered name, or no leading whitespace), calls
    the handler once with the empty name and with the text after the
    separator, stripped of its inline comment and of surrounding whitespace;
    no error is recorded for the line when the handler accepts the call. *)
Theorem empty_key_line {U} cfg (handler : ini_handler U) (st : state U)
    ws sep rhs :
  forallb isspace ws = true ->
  sep = "=" \/ sep = ":" ->
  strchr (INI_START_COMMENT_PREFIXES cfg) sep = false ->
  INI_ALLOW_MULTILINE cfg = false \/ prev_name st = [] \/ ws = [] ->
  let v := value_of cfg (ini_rstrip rhs) in
  let r := snd (handler (user st) (section st) (Some []) (Some v)
                  (if INI_HANDLER_LINENO cfg then Some (lineno st)
                   else None)) in
  let st' := ini_parse_line cfg handler st (ws ++ sep :: rhs) in
  calls st' =
    calls st ++ [mkCall (lineno st) (section st) (Some []) (Some v) r] /\
  (r <> 0%Z -> error st' = error st /\ flagged st' = flagged st).
Proof.
  intros Hws Hsep Hcomment Hcont v r st'. subst st'.
  assert (Hsp : isspace sep = false /\ sep <> ascii_of_nat 239).
  { destruct Hsep; subst sep; split; auto; discriminate. }
  destruct Hsp as [Hsp Hnb].
  destruct (stripped_spaces cfg (lineno st) ws sep rhs Hws Hsp
              (fun _ => Hnb)) as [Hst Hind].
  rewrite (ini_parse_line_keyvalue cfg handler st _ [] sep (ini_rstrip rhs));
    auto.
  - destruct (remember_same_logs cfg st (ini_rstrip []))
      as [(_ & Hl & He & Hu & Hc & Hf) Hsec].
    pose proof (handler_or_error_fields cfg handler
      (remember cfg st (ini_rstrip [])) (section st)
      (Some (ini_rstrip [])) (Some v)) as H.
    cbv zeta in H. rewrite Hl, He, Hu, Hc, Hf in H.
    change (ini_rstrip []) with (@nil ascii) in *.
    fold r in H.
    destruct H as (_ & _ & _ & _ & _ & Hcalls & Herr & Hflag).
    split; auto.
    intros Hr. apply Z.eqb_neq in Hr. rewrite Hr in Herr, Hflag.
    split; [exact Herr|exact Hflag].
  - unfold comment_or_blank. rewrite Hst. exact Hcomment.
  - unfold continues. rewrite Hind.
    destruct Hcont as [-> | [-> | ->]]; cbn;
      [reflexivity | destruct (INI_ALLOW_MULTILINE cfg); reflexivity
      | apply andb_false_r].
  - split; reflexivity.
  - discriminate.
Qed.

Lemma unterminated_section_header_witness :
  strchr (INI_START_COMMENT_PREFIXES default_config) "[" = false /\
  no_closing_bracket default_config (cs "section") /\
  error (ini_parse_line default_config accept_all at_line_1
           ("[" :: cs "section")) = 1%Z /\
  calls (ini_parse_line default_config accept_all at_line_1
           ("[" :: cs "section")) = [].
Proof.
  assert (Hno : no_closing_bracket default_config (cs "section")).
  { left. simpl. intuition discriminate. }
  split; [reflexivity|]. split; [exact Hno|].
  destruct (unterminated_section_header default_config accept_all at_line_1
              (cs "section") eq_refl Hno) as (He & _ & Hc & _).
  split; [exact He|exact Hc].
Defined.

(** C10 as stated fails: in the default configuration the second line of
    "k=v", "  =x" has "=" as its first character that is not whitespace, and
    the handler is called for it with the name "k" and the value "=x". *)
Lemma empty_key_counterexample :
  exists o,
    ini_parse_string default_config always_allocates accept_all
      (cs "k=v" ++ [NL] ++ cs "  =x" ++ [NL]) tt = Some o /\
    ret o = 0%Z /\
    triples (calls (final o)) =
      [([], Some (cs "k"), Some (cs "v"));
       ([], Some (cs "k"), Some (cs "=x"))].
Proof.
  eexists. split; [vm_compute; reflexivity|].
  split; reflexivity.
Qed.

Lemma empty_key_line_witness :
  calls (ini_parse_line default_config accept_all at_line_1
           (cs " " ++ "=" :: cs " x ")) =
  [mkCall 1 [] (Some []) (Some (cs "x")) 1].
Proof.
  destruct (empty_key_line default_config accept_all at_line_1
              (cs " ") "=" (cs " x ") eq_refl (or_introl eq_refl) eq_refl
              (or_intror (or_introl eq_refl))) as [H _].
  exact H.
Defined.

(** ** Long names (C8) *)

Section Bounded.

Context {U Stream : Type}.
Variable cfg : config.
Variable alloc : allocator.
Variable reader : nat -> Stream -> option (list ascii * Stream).
Variable handler : ini_handler U.

Lemma names_bounded_call (st : state U) n v :
  names_bounded st ->
  names_bounded (handler_or_error cfg handler st (section st) n v).
Proof.
  intros (Hs & Hp & Hc).
  pose proof (handler_or_error_fields cfg handler st (section st) n v) as H.
  cbv zeta in H. destruct H as (_ & Es & Ep & _ & _ & Ec & _).
  unfold names_bounded. rewrite Es, Ep, Ec.
  repeat split; auto.
  apply Forall_app; split; auto.
Qed.

Lemma ini_parse_line_bounded (st : state U) line :
  names_bounded st -> names_bounded (ini_parse_line cfg handler st line).
Proof.
  intros H. pose proof H as (Hs & Hp & Hc).
  assert (Hcut : forall (s : list ascii), length (firstn 49 s) <= 49)
    by (intros; rewrite length_firstn; lia).
  rewrite ini_parse_line_eq. cbv zeta.
  destruct (comment_or_blank _ _ _); [exact H|].
  destruct (continues _ _ _); [apply names_bounded_call; exact H|].
  destruct (Ascii.eqb _ "[").
  { destruct (find_chars_or_comment cfg _ _) as [inside found].
    destruct (Ascii.eqb (deref found) "]"); [|exact H].
    assert (H2 : names_bounded
      (if INI_ALLOW_MULTILINE cfg
       then set_prev_name (set_section st (ini_strncpy0 inside MAX_SECTION)) []
       else set_section st (ini_strncpy0 inside MAX_SECTION))).
    { destruct (INI_ALLOW_MULTILINE cfg); repeat split; simpl; auto;
        try apply Hcut; lia. }
    destruct (INI_CALL_HANDLER_ON_NEW_SECTION cfg); [|exact H2].
    apply names_bounded_call; exact H2. }
  destruct (nonempty _); [|exact H].
  destruct (find_chars_or_comment cfg _ _) as [before found].
  destruct (_ || _).
  - apply names_bounded_call.
    destruct (INI_ALLOW_MULTILINE cfg); [|exact H].
    repeat split; simpl; auto. apply Hcut.
  - destruct (INI_ALLOW_NO_VALUE cfg); [|exact H].
    apply names_bounded_call; exact H.
Qed.

Lemma ini_discard_line_bounded fuel (st : state U) stream st' stream' :
  ini_discard_line reader fuel st stream = Some (st', stream') ->
  names_bounded st -> names_bounded st'.
Proof.
  revert st stream; induction fuel as [|fuel IH]; intros st stream;
    simpl; [discriminate|].
  destruct (reader 16 stream) as [[abyss stream1]|].
  - intros H Hb. destruct (Ascii.eqb _ NL).
    + injection H as <- <-. exact Hb.
    + apply IH in H; auto.
  - intros H; injection H as <- <-; auto.
Qed.

Lemma ini_parse_loop_bounded fuel (st : state U) stream o :
  ini_parse_loop cfg alloc reader handler fuel st stream = Some o ->
  names_bounded st -> names_bounded (final o).
Proof.
  revert st stream; induction fuel as [|fuel IH]; intros st stream;
    simpl; [discriminate|].
  destruct (reader (max_line st) stream) as [[chunk stream1]|].
  2:{ intros H Hb; injection H as <-; exact Hb. }
  destruct (if _ && _ then _ else _) as [[|size line stream2]|];
    try discriminate.
  { intros H Hb; injection H as <-; exact Hb. }
  set (st1 := set_lineno _ _).
  destruct (if buffer_full size line then _ else _)
    as [[st2 stream3]|] eqn:Hd; try discriminate.
  intros H Hb.
  assert (H2 : names_bounded st2).
  { destruct (buffer_full size line).
    - apply ini_discard_line_bounded in Hd; auto.
    - injection Hd as <- <-; exact Hb. }
  pose proof (ini_parse_line_bounded st2 line H2) as H3.
  destruct (_ && _).
  - injection H as <-. exact H3.
  - apply IH in H; auto.
Qed.

Lemma ini_parse_stream_bounded fuel stream u o :
  ini_parse_stream cfg alloc reader handler fuel stream u = Some o ->
  names_bounded (final o).
Proof.
  unfold ini_parse_stream.
  assert (H0 : names_bounded (initial_state cfg u)).
  { repeat split; simpl; auto; lia. }
  destruct (_ && _).
  - intros H; injection H as <-; exact H0.
  - intros H. eapply ini_parse_loop_bounded; eauto.
Qed.

End Bounded.

(** C8.  A section header sets the section to the first 49 characters of
    the text between its brackets, and a name=value line remembers the first
    49 characters of its name (when continuation lines are allowed); this is
    what the handler receives as section, and as name on a continuation
    line.  The length of the name is no error: the line records one only when
    the handler is called for it and returns zero.  At the end of every
    parse the section and the remembered name have at most 49 characters,
    and so has the section of every call that was made. *)
Theorem long_names_are_truncated {U} cfg (handler : ini_handler U) :
  (forall (st : state U) line name tail,
      let st' := ini_parse_line cfg handler st line in
      comment_or_blank cfg (lineno st) line = false ->
      continues cfg st line = false ->
      stripped cfg (lineno st) line = "[" :: name ++ "]" :: tail ->
      plain cfg (cs "]") name ->
      section st' = firstn 49 name /\ length (section st') <= 49 /\
      ((calls st' = calls st /\ error st' = error st /\
        flagged st' = flagged st) \/
       (exists r,
           calls st' = calls st
                       ++ [mkCall (lineno st) (firstn 49 name) None None r] /\
           (r <> 0%Z -> error st' = error st /\ flagged st' = flagged st))))
  /\
  (forall (st : state U) line key sep rhs,
      let st' := ini_parse_line cfg handler st line in
      comment_or_blank cfg (lineno st) line = false ->
      continues cfg st line = false ->
      stripped cfg (lineno st) line = key ++ sep :: rhs ->
      plain cfg (cs "=:") key -> deref key <> "[" ->
      sep = "=" \/ sep = ":" ->
      (INI_ALLOW_MULTILINE cfg = true ->
       prev_name st' = firstn 49 (ini_rstrip key) /\
       length (prev_name st') <= 49) /\
      exists r,
        calls st' = calls st
                    ++ [mkCall (lineno st) (section st)
                               (Some (ini_rstrip key))
                               (Some (value_of cfg rhs)) r] /\
        (r <> 0%Z -> error st' = error st /\ flagged st' = flagged st))
  /\
  (forall (st : state U) line,
      let st' := ini_parse_line cfg handler st line in
      comment_or_blank cfg (lineno st) line = false ->
      continues cfg st line = true ->
      exists v r,
        calls st' = calls st
                    ++ [mkCall (lineno st) (section st) (Some (prev_name st))
                               (Some v) r])
  /\
  (forall Stream alloc
          (reader : nat -> Stream -> option (list ascii * Stream))
          fuel stream u o,
      ini_parse_stream cfg alloc reader handler fuel stream u = Some o ->
      names_bounded (final o)).
Proof.
  split; [|split; [|split]].
  - intros st line name tail st' Hcomment Hcont Hst Hplain. subst st'.
    rewrite (ini_parse_line_section cfg handler st line name tail); auto.
    destruct (enter_section_same_logs cfg st name)
      as [(_ & Hl & He & Hu & Hc & Hf) Hsec].
    change (ini_strncpy0 name MAX_SECTION) with (firstn 49 name) in Hsec.
    assert (Hlen : length (firstn 49 name) <= 49)
      by (rewrite length_firstn; lia).
    destruct (INI_CALL_HANDLER_ON_NEW_SECTION cfg).
    + rewrite Hsec.
      pose proof (handler_or_error_fields cfg handler
        (enter_section cfg st name) (firstn 49 name) None None) as H.
      cbv zeta in H. rewrite Hl, He, Hu, Hc, Hf, Hsec in H.
      destruct H as (_ & Hs & _ & _ & _ & Hcalls & Herr & Hflag).
      rewrite Hs. split; auto. split; auto.
      right. eexists. split; [exact Hcalls|].
      intros Hr. apply Z.eqb_neq in Hr. rewrite Hr in Herr, Hflag.
      split; [exact Herr|exact Hflag].
    + rewrite Hsec. split; auto.
  - intros st line key sep rhs st' Hcomment Hcont Hst Hplain Hk Hsep.
    subst st'.
    rewrite (ini_parse_line_keyvalue cfg handler st line key sep rhs); auto.
    destruct (remember_same_logs cfg st (ini_rstrip key))
      as [(_ & Hl & He & Hu & Hc & Hf) Hsec].
    pose proof (handler_or_error_fields cfg handler
      (remember cfg st (ini_rstrip key)) (section st)
      (Some (ini_rstrip key)) (Some (value_of cfg rhs))) as H.
    cbv zeta in H. rewrite Hl, He, Hu, Hc, Hf in H.
    destruct H as (_ & _ & Hp & _ & _ & Hcalls & Herr & Hflag).
    split.
    + intros Hm. rewrite Hp. unfold remember. rewrite Hm. cbn [prev_name
        set_prev_name].
      change (ini_strncpy0 (ini_rstrip key) MAX_NAME)
        with (firstn 49 (ini_rstrip key)).
      split; auto. rewrite length_firstn; lia.
    + eexists. split; [exact Hcalls|].
      intros Hr. apply Z.eqb_neq in Hr. rewrite Hr in Herr, Hflag.
      split; [exact Herr|exact Hflag].
  - intros st line st' Hcomment Hcont. subst st'.
    rewrite (ini_parse_line_continuation cfg handler st line); auto.
    match goal with
    | |- context [handler_or_error cfg handler st ?s ?n ?v] =>
        pose proof (handler_or_error_fields cfg handler st s n v) as H
    end.
    cbv zeta in H.
    destruct H as (_ & _ & _ & _ & _ & Hcalls & _).
    do 2 eexists. exact Hcalls.
  - intros Stream alloc reader fuel stream u o Ho.
    eapply ini_parse_stream_bounded; eauto.
Qed.

(** ** Blank lines and comments *)

Section Frame.

Context {U : Type}.
Variable cfg : config.
Variable handler : ini_handler U.

Lemma line_step_fields_before (st : state U) pl :
  let st1 :=
    Nat.iter (abyss_reads (length pl - (max_line st - 1))) record_error
             (set_lineno st (lineno st + 1)) in
  line_step cfg handler st pl =
    ini_parse_line cfg handler st1 (firstn (max_line st - 1) pl) /\
  max_line st1 = max_line st /\ section st1 = section st /\
  prev_name st1 = prev_name st /\ lineno st1 = (lineno st + 1)%Z /\
  user st1 = user st /\ calls st1 = calls st.
Proof.
  cbv zeta. split; [reflexivity|].
  apply (iter_record_error_fields _ (set_lineno st (lineno st + 1))).
Qed.

(** A blank line or a comment changes nothing but the line number (and the
    error, when the line is too long for the buffer). *)
Lemma line_step_comment (st : state U) pl :
  comment_or_blank cfg (lineno st + 1) (firstn (max_line st - 1) pl) = true ->
  let st' := line_step cfg handler st pl in
  max_line st' = max_line st /\ section st' = section st /\
  prev_name st' = prev_name st /\ lineno st' = (lineno st + 1)%Z /\
  user st' = user st /\ calls st' = calls st.
Proof.
  intros H.
  destruct (line_step_fields_before st pl)
    as (Heq & Hm & Hs & Hp & Hl & Hu & Hc).
  cbv zeta. rewrite Heq, ini_parse_line_comment; auto.
  - repeat split; auto.
  - rewrite Hl. exact H.
Qed.

End Frame.

(** ** The calls of a line and of a list of lines *)

Section Calls.

Context {U : Type}.
Variable cfg : config.
Variable handler : ini_handler U.

(** A line calls the handler at most once, with the section that is current
    after the line; only a well-formed section header changes the
    section. *)
Lemma ini_parse_line_calls (st : state U) line :
  let st' := ini_parse_line cfg handler st line in
  (calls st' = calls st \/
   exists n v r,
     calls st' = calls st ++ [mkCall (lineno st) (section st') n v r]) /\
  (section_header cfg (lineno st) line = false -> section st' = section st).
Proof.
  cbv zeta. rewrite ini_parse_line_eq. cbv zeta.
  unfold section_header.
  change (ini_find_chars_or_comment (INI_ALLOW_INLINE_COMMENTS cfg)
            (INI_INLINE_COMMENT_PREFIXES cfg))
    with (find_chars_or_comment cfg).
  assert (Hcall : forall (s : state U) n v,
    section (handler_or_error cfg handler s (section s) n v) = section s /\
    exists r,
      calls (handler_or_error cfg handler s (section s) n v) =
      calls s ++ [mkCall (lineno s)
                    (section (handler_or_error cfg handler s (section s) n v))
                    n v r]).
  { intros s n v.
    pose proof (handler_or_error_fields cfg handler s (section s) n v) as H.
    cbv zeta in H. destruct H as (_ & Hs & _ & _ & _ & Hc & _).
    split; auto. rewrite Hs. eexists; exact Hc. }
  destruct (comment_or_blank cfg (lineno st) line); [auto|].
  destruct (continues cfg st line).
  { destruct (Hcall st (Some (prev_name st))
      (Some (if INI_ALLOW_INLINE_COMMENTS cfg
             then ini_rstrip
                    (fst (find_chars_or_comment cfg
                            (stripped cfg (lineno st) line) None))
             else stripped cfg (lineno st) line))) as [Hs [r Hc]].
    split; [right; eauto|auto]. }
  destruct (Ascii.eqb (deref (stripped cfg (lineno st) line)) "[").
  { destruct (find_chars_or_comment cfg (tl (stripped cfg (lineno st) line))
                (Some (cs "]"))) as [inside found].
    cbn [snd andb].
    destruct (Ascii.eqb (deref found) "]").
    - split; [|discriminate].
      set (st2 := if INI_ALLOW_MULTILINE cfg then _ else _).
      assert (H2 : calls st2 = calls st /\ lineno st2 = lineno st)
        by (subst st2; destruct (INI_ALLOW_MULTILINE cfg); auto).
      destruct H2 as [H2 H3].
      destruct (INI_CALL_HANDLER_ON_NEW_SECTION cfg); [|auto].
      destruct (Hcall st2 None None) as [Hs [r Hc]].
      right. rewrite <- H2, <- H3. eauto.
    - split; auto. }
  cbn [andb].
  destruct (nonempty (stripped cfg (lineno st) line)); [|auto].
  destruct (find_chars_or_comment cfg (stripped cfg (lineno st) line)
              (Some (cs "=:"))) as [before found].
  destruct (_ || _).
  - set (st1 := if INI_ALLOW_MULTILINE cfg then _ else _).
    assert (H2 : calls st1 = calls st /\ lineno st1 = lineno st /\
                 section st1 = section st)
      by (subst st1; destruct (INI_ALLOW_MULTILINE cfg); auto).
    destruct H2 as (H2 & H3 & H4).
    destruct (Hcall st1 (Some (ini_rstrip before))
                (Some (value_of cfg (tl found)))) as [Hs [r Hc]].
    split; [right; rewrite <- H2, <- H3; eauto|].
    intros _. congruence.
  - destruct (INI_ALLOW_NO_VALUE cfg); [|auto].
    destruct (Hcall st (Some (ini_rstrip before)) None) as [Hs [r Hc]].
    split; [right; eauto|auto].
Qed.

Lemma line_step_calls (st : state U) pl :
  let st' := line_step cfg handler st pl in
  lineno st' = (lineno st + 1)%Z /\ max_line st' = max_line st /\
  (calls st' = calls st \/
   exists n v r,
     calls st' = calls st ++ [mkCall (lineno st + 1) (section st') n v r]) /\
  (section_header cfg (lineno st + 1) (firstn (max_line st - 1) pl) = false ->
   section st' = section st).
Proof.
  destruct (line_step_fields_before cfg handler st pl)
    as (Heq & Hm & Hs & Hp & Hl & Hu & Hc).
  set (st1 := Nat.iter _ record_error _) in *.
  cbv zeta. rewrite Heq.
  destruct (ini_parse_line_lineno cfg handler st1
              (firstn (max_line st - 1) pl)) as [Hl' Hm'].
  destruct (ini_parse_line_calls st1 (firstn (max_line st - 1) pl))
    as [Hcalls Hsec].
  rewrite Hl, Hc, Hs in *.
  repeat split; auto; congruence.
Qed.

(** Every call of a list of lines comes from one of them and carries the
    section that is current after that line. *)
Lemma ini_parse_lines_calls (st : state U) lines c :
  In c (calls (ini_parse_lines cfg handler st lines)) ->
  In c (calls st) \/
  exists k,
    k < length lines /\ c_lineno c = (lineno st + Z.of_nat k + 1)%Z /\
    c_section c =
      section (ini_parse_lines cfg handler st (firstn (S k) lines)).
Proof.
  revert st; induction lines as [|pl lines IH]; intros st; [auto|].
  unfold ini_parse_lines in *. cbn [fold_left].
  intros Hin. apply IH in Hin.
  destruct (line_step_calls st pl) as (Hl & Hm & Hcalls & _).
  destruct Hin as [Hin | (k & Hk & Hn & Hs)].
  - destruct Hcalls as [E | (n & v & r & E)]; rewrite E in Hin; auto.
    apply in_app_or in Hin as [Hin | [<- | []]]; auto.
    right. exists 0. cbn [firstn fold_left length c_lineno c_section].
    split; [lia|]. split; [lia|reflexivity].
  - right. exists (S k). cbn [length].
    split; [lia|]. split; [lia|].
    rewrite Hs. reflexivity.
Qed.

(** The section stays what it is as long as no line is a well-formed
    section header. *)
Lemma ini_parse_lines_section (st : state U) lines j :
  (forall k, k < j -> k < length lines ->
     section_header cfg (lineno st + Z.of_nat k + 1)
       (firstn (max_line st - 1) (nth k lines [])) = false) ->
  section (ini_parse_lines cfg handler st (firstn j lines)) = section st.
Proof.
  revert st j; induction lines as [|pl lines IH]; intros st j H.
  - rewrite firstn_nil. reflexivity.
  - destruct j as [|j]; [reflexivity|].
    unfold ini_parse_lines in *. cbn [firstn fold_left].
    destruct (line_step_calls st pl) as (Hl & Hm & _ & Hsec).
    rewrite IH.
    + apply Hsec. specialize (H 0 ltac:(lia) ltac:(simpl; lia)).
      cbn [nth] in H. rewrite <- H. f_equal. lia.
    + intros k Hk Hk'. rewrite Hl, Hm.
      specialize (H (S k) ltac:(lia) ltac:(simpl; lia)).
      cbn [nth] in H. rewrite <- H. f_equal. lia.
Qed.

End Calls.

(** ** Lines that are not indented *)

Section Scoping.

Context {U : Type}.
Variable cfg : config.
Variable handler : ini_handler U.

Lemma ini_parse_lines_cons (st : state U) pl lines :
  ini_parse_lines cfg handler st (pl :: lines)
  = ini_parse_lines cfg handler (line_step cfg handler st pl) lines.
Proof. reflexivity. Qed.

Lemma continues_not_indented (st : state U) line :
  indented cfg (lineno st) line = false -> continues cfg st line = false.
Proof. intros H. unfold continues. rewrite H. apply andb_false_r. Qed.

End Scoping.

(** ** Parses of the same text with different handlers *)

Section Simulation.

Context {U1 U2 : Type}.
Variable cfg : config.
Variable h1 : ini_handler U1.
Variable h2 : ini_handler U2.

Lemma same_parse_call (a : state U1) (b : state U2) s n v :
  same_parse a b ->
  same_parse (handler_or_error cfg h1 a s n v)
             (handler_or_error cfg h2 b s n v).
Proof.
  intros (Hm & Hs & Hp & Hl & Hc).
  pose proof (handler_or_error_fields cfg h1 a s n v) as Ha.
  pose proof (handler_or_error_fields cfg h2 b s n v) as Hb.
  cbv zeta in Ha, Hb.
  destruct Ha as (A1 & A2 & A3 & A4 & _ & A5 & _).
  destruct Hb as (B1 & B2 & B3 & B4 & _ & B5 & _).
  unfold same_parse.
  rewrite A1, A2, A3, A4, A5, B1, B2, B3, B4, B5, !map_app, Hc, Hl.
  repeat split; auto.
Qed.

Lemma same_parse_record_error (a : state U1) (b : state U2) :
  same_parse a b -> same_parse (record_error a) (record_error b).
Proof. intros (Hm & Hs & Hp & Hl & Hc). repeat split; auto. Qed.

Lemma same_parse_iter k (a : state U1) (b : state U2) :
  same_parse a b ->
  same_parse (Nat.iter k record_error a) (Nat.iter k record_error b).
Proof.
  intros H. induction k; simpl; auto using same_parse_record_error.
Qed.

Lemma ini_parse_line_same_parse (a : state U1) (b : state U2) line :
  same_parse a b ->
  same_parse (ini_parse_line cfg h1 a line) (ini_parse_line cfg h2 b line).
Proof.
  intros H. pose proof H as (Hm & Hs & Hp & Hl & Hc).
  rewrite !ini_parse_line_eq. cbv zeta.
  unfold continues. rewrite Hl, Hp, Hs.
  destruct (comment_or_blank cfg (lineno b) line); [exact H|].
  destruct (_ && _ && _ && _).
  { rewrite <- Hs at 1. rewrite <- Hp at 1.
    rewrite Hs, Hp. apply same_parse_call; auto. }
  destruct (Ascii.eqb _ "[").
  { destruct (find_chars_or_comment cfg _ _) as [inside found].
    destruct (Ascii.eqb (deref found) "]");
      [|apply same_parse_record_error; auto].
    destruct (INI_ALLOW_MULTILINE cfg);
      destruct (INI_CALL_HANDLER_ON_NEW_SECTION cfg);
      cbn [section set_section set_prev_name];
      try apply same_parse_call; repeat split; auto. }
  destruct (nonempty _); [|exact H].
  destruct (find_chars_or_comment cfg _ _) as [before found].
  destruct (_ || _).
  - destruct (INI_ALLOW_MULTILINE cfg);
      cbn [section set_section set_prev_name]; rewrite ?Hs;
      apply same_parse_call; repeat split; auto.
  - destruct (INI_ALLOW_NO_VALUE cfg).
    + apply same_parse_call; auto.
    + apply same_parse_record_error; auto.
Qed.

Lemma line_step_same_parse (a : state U1) (b : state U2) pl :
  same_parse a b ->
  same_parse (line_step cfg h1 a pl) (line_step cfg h2 b pl).
Proof.
  intros H. pose proof H as (Hm & Hs & Hp & Hl & Hc).
  unfold line_step. cbv zeta. rewrite Hm, Hl.
  apply ini_parse_line_same_parse, same_parse_iter.
  repeat split; auto.
Qed.

Lemma ini_parse_lines_same_parse (a : state U1) (b : state U2) lines :
  same_parse a b ->
  same_parse (ini_parse_lines cfg h1 a lines) (ini_parse_lines cfg h2 b lines).
Proof.
  revert a b; induction lines as [|pl lines IH]; intros a b H; [exact H|].
  unfold ini_parse_lines in *. cbn [fold_left].
  apply IH, line_step_same_parse, H.
Qed.

(** With stop-on-first-error off, two parses of a string pass the same
    text to their handlers. *)
Lemma ini_parse_string_same_parse alloc string u1 u2 :
  fixed_line_buffer cfg alloc ->
  INI_STOP_ON_FIRST_ERROR cfg = false ->
  exists o1 o2,
    ini_parse_string cfg alloc h1 string u1 = Some o1 /\
    ini_parse_string cfg alloc h2 string u2 = Some o2 /\
    same_parse (final o1) (final o2).
Proof.
  intros Hbuf Hstop.
  destruct (ini_parse_string_lines cfg alloc h1 string u1 Hbuf)
    as (j1 & _ & Hrun1 & Hall1 & _).
  destruct (ini_parse_string_lines cfg alloc h2 string u2 Hbuf)
    as (j2 & _ & Hrun2 & Hall2 & _).
  cbv zeta in *. rewrite (Hall1 Hstop) in Hrun1. rewrite (Hall2 Hstop) in Hrun2.
  do 2 eexists. split; [exact Hrun1|]. split; [exact Hrun2|].
  cbn [final]. apply ini_parse_lines_same_parse.
  repeat split.
Qed.

End Simulation.

(** ** One call for each line with content (C3) *)

Section Counting.

Context {U : Type}.
Variable cfg : config.
Variable handler : ini_handler U.

Lemma record_error_nonzero (st : state U) :
  (1 <= lineno st)%Z -> error (record_error st) <> 0%Z.
Proof.
  intros H. unfold record_error; simpl.
  destruct (Z.eqb_spec (error st) 0); lia.
Qed.

Lemma iter_record_error_sticky k (st : state U) :
  error st <> 0%Z -> error (Nat.iter k record_error st) = error st.
Proof.
  intros H. induction k as [|k IH]; [reflexivity|].
  rewrite Nat.iter_succ. unfold record_error at 1. cbn [error].
  rewrite IH. destruct (Z.eqb_spec (error st) 0); [contradiction|auto].
Qed.

Lemma line_step_sticky (st : state U) pl :
  error st <> 0%Z -> error (line_step cfg handler st pl) = error st.
Proof.
  intros H. unfold line_step. cbv zeta.
  rewrite ini_parse_line_sticky; rewrite iter_record_error_sticky; auto.
Qed.

Lemma ini_parse_lines_sticky (st : state U) lines :
  error st <> 0%Z -> error (ini_parse_lines cfg handler st lines) = error st.
Proof.
  revert st; induction lines as [|pl lines IH]; intros st H; [reflexivity|].
  rewrite ini_parse_lines_cons, IH; rewrite line_step_sticky; auto.
Qed.

(** A line that leaves no error behind has called the handler once, unless
    it is blank or a comment, or a section header for which the handler is
    not called. *)
Lemma ini_parse_line_count (st : state U) line :
  (1 <= lineno st)%Z ->
  error (ini_parse_line cfg handler st line) = 0%Z ->
  length (calls (ini_parse_line cfg handler st line)) =
  length (calls st)
  + (if comment_or_blank cfg (lineno st) line then 0
     else if negb (continues cfg st line)
             && header_line cfg (lineno st) line
             && negb (INI_CALL_HANDLER_ON_NEW_SECTION cfg)
          then 0 else 1).
Proof.
  intros Hl. rewrite ini_parse_line_eq. cbv zeta. unfold header_line.
  assert (Hcall : forall (s : state U) x n v,
    calls s = calls st ->
    length (calls (handler_or_error cfg handler s x n v))
    = length (calls st) + 1).
  { intros s x n v E.
    pose proof (handler_or_error_fields cfg handler s x n v) as H.
    cbv zeta in H. destruct H as (_ & _ & _ & _ & _ & -> & _).
    rewrite length_app, E. reflexivity. }
  destruct (comment_or_blank cfg (lineno st) line) eqn:Hcomment; [lia|].
  destruct (continues cfg st line); [intros _; apply Hcall; auto|].
  cbn [negb andb].
  destruct (Ascii.eqb _ "[").
  { destruct (find_chars_or_comment cfg _ _) as [inside found].
    destruct (Ascii.eqb (deref found) "]").
    - destruct (INI_CALL_HANDLER_ON_NEW_SECTION cfg); cbn [negb].
      + intros _. apply Hcall. destruct (INI_ALLOW_MULTILINE cfg); auto.
      + intros _. destruct (INI_ALLOW_MULTILINE cfg); cbn [calls
          set_prev_name set_section andb]; lia.
    - intros E. apply record_error_nonzero in E; tauto. }
  destruct (nonempty _) eqn:Hne.
  2:{ unfold comment_or_blank, strchr in Hcomment. unfold nonempty in Hne.
      destruct (Ascii.eqb _ NUL); discriminate. }
  destruct (find_chars_or_comment cfg _ _) as [before found].
  destruct (_ || _).
  - intros _. apply Hcall. destruct (INI_ALLOW_MULTILINE cfg); auto.
  - destruct (INI_ALLOW_NO_VALUE cfg).
    + intros _. apply Hcall; auto.
    + intros E. apply record_error_nonzero in E; tauto.
Qed.

(** A line is only taken as a continuation line when it can be. *)
Lemma continues_may_continue (st : state U) line :
  (lineno st = 1%Z -> prev_name st = []) ->
  continues cfg st line = true ->
  may_continue cfg (lineno st) line = true.
Proof.
  unfold continues, may_continue. intros H1 H.
  repeat (apply andb_true_iff in H as [H ?]).
  destruct (Z.eqb_spec (lineno st) 1) as [E|E].
  - rewrite (H1 E) in *. discriminate.
  - repeat (apply andb_true_iff; split); auto.
Qed.

Lemma ini_parse_lines_count (st : state U) lines :
  (0 <= lineno st)%Z ->
  (lineno st = 0%Z -> prev_name st = []) ->
  INI_CALL_HANDLER_ON_NEW_SECTION cfg = true \/
  no_indented_header cfg (max_line st) (lineno st + 1) lines = true ->
  error (ini_parse_lines cfg handler st lines) = 0%Z ->
  length (calls (ini_parse_lines cfg handler st lines))
  + (if INI_CALL_HANDLER_ON_NEW_SECTION cfg then 0
     else header_lines cfg (max_line st) (lineno st + 1) lines) =
  length (calls st)
  + content_lines cfg (max_line st) (lineno st + 1) lines.
Proof.
  revert st; induction lines as [|pl lines IH];
    intros st Hl Hp0 Hhdr He.
  { simpl. destruct (INI_CALL_HANDLER_ON_NEW_SECTION cfg); lia. }
  rewrite ini_parse_lines_cons in *.
  destruct (line_step_calls cfg handler st pl) as (Hl1 & Hm1 & _).
  assert (He1 : error (line_step cfg handler st pl) = 0%Z).
  { destruct (Z.eq_dec (error (line_step cfg handler st pl)) 0) as [E|E];
      auto.
    rewrite ini_parse_lines_sticky in He; auto. }
  assert (Hhdr' :
    INI_CALL_HANDLER_ON_NEW_SECTION cfg = true \/
    no_indented_header cfg (max_line st) (lineno st + 1 + 1) lines = true).
  { destruct Hhdr as [H|H]; [left; auto|right].
    cbn [no_indented_header] in H. apply andb_true_iff in H; tauto. }
  specialize (IH (line_step cfg handler st pl)).
  rewrite Hl1, Hm1 in IH.
  specialize (IH ltac:(lia) ltac:(lia) Hhdr' He).
  cbn [content_lines header_lines].
  destruct (line_step_fields_before cfg handler st pl)
    as (Heq & Hm & Hs & Hp & Hl' & Hu & Hc).
  set (st1 := Nat.iter _ record_error _) in *.
  rewrite Heq in *.
  pose proof (ini_parse_line_count st1 (firstn (max_line st - 1) pl)
                ltac:(lia) He1) as Hstep.
  rewrite Hc, Hl' in Hstep.
  assert (Hcont :
    continues cfg st1 (firstn (max_line st - 1) pl) = true ->
    may_continue cfg (lineno st + 1) (firstn (max_line st - 1) pl) = true).
  { intros H. rewrite <- Hl'. apply continues_may_continue; auto.
    rewrite Hl', Hp. intros E. apply Hp0. lia. }
  assert (Hhead :
    INI_CALL_HANDLER_ON_NEW_SECTION cfg = false ->
    header_line cfg (lineno st + 1) (firstn (max_line st - 1) pl) = true ->
    continues cfg st1 (firstn (max_line st - 1) pl) = false).
  { intros Hsec Hh. destruct Hhdr as [H|H]; [congruence|].
    cbn [no_indented_header] in H. apply andb_true_iff in H as [H _].
    rewrite Hh in H. cbn [andb] in H.
    destruct (continues cfg st1 (firstn (max_line st - 1) pl)); auto.
    rewrite Hcont in H by reflexivity. discriminate. }
  destruct (comment_or_blank cfg (lineno st + 1)
              (firstn (max_line st - 1) pl)) eqn:Hcomment.
  { unfold header_line. rewrite Hcomment. cbn [negb andb].
    destruct (INI_CALL_HANDLER_ON_NEW_SECTION cfg); lia. }
  destruct (INI_CALL_HANDLER_ON_NEW_SECTION cfg) eqn:Hsec.
  { rewrite andb_false_r in Hstep. lia. }
  rewrite andb_true_r in Hstep.
  destruct (header_line cfg (lineno st + 1) (firstn (max_line st - 1) pl)).
  - rewrite Hhead in Hstep by reflexivity. cbn [negb andb] in Hstep. lia.
  - rewrite andb_false_r in Hstep. lia.
Qed.

End Counting.

(** C3 as stated fails: in the default configuration the handler is not
    called for a section header.  The two lines "[s]" and "k=v" are
    well-formed and neither blank nor a comment, and the handler is called
    once. *)
Lemma event_count_counterexample :
  exists o,
    ini_parse_string default_config always_allocates accept_all
      (cs "[s]" ++ [NL] ++ cs "k=v" ++ [NL]) tt = Some o /\
    ret o = 0%Z /\
    length (calls (final o)) = 1 /\
    content_lines default_config 200 1
      (physical_lines (cs "[s]" ++ [NL] ++ cs "k=v" ++ [NL])) = 2.
Proof.
  eexists. split; [vm_compute; reflexivity|].
  repeat split; reflexivity.
Qed.

(** Why the header lines must not be indented: after a key, an indented
    line that opens with a bracket is a continuation line and makes a
    call. *)
Lemma indented_header_continues :
  exists o,
    ini_parse_string default_config always_allocates accept_all
      (cs "k=v" ++ [NL] ++ cs "  [s]" ++ [NL]) tt = Some o /\
    ret o = 0%Z /\
    map call_args (calls (final o)) =
      [(1%Z, [], Some (cs "k"), Some (cs "v"));
       (2%Z, [], Some (cs "k"), Some (cs "[s]"))].
Proof.
  eexists. split; [vm_compute; reflexivity|].
  repeat split; reflexivity.
Qed.

(** C3, as amended.  A parse that returns 0 has called the handler exactly
    once for each physical line that is neither blank nor a comment when the
    handler is also called for section headers
    ([INI_CALL_HANDLER_ON_NEW_SECTION]); when it is not (the default) a
    header makes no call, and the calls and the header lines together are as
    many as those lines, provided no header line can be taken as a
    continuation line.  With stop-on-first-error off the same count holds
    for every handler, whatever it answers, when the input is well-formed,
    that is, when a handler that accepts every call makes the parse return
    0.  A continuation line makes one call, with the remembered name. *)
Theorem one_call_per_content_line {U} cfg alloc (handler : ini_handler U)
    string u :
  fixed_line_buffer cfg alloc ->
  exists o,
    ini_parse_string cfg alloc handler string u = Some o /\
    let lines := physical_lines (c_str string) in
    let n := content_lines cfg (buffer_size cfg) 1 lines in
    let events :=
      length (calls (final o))
      + (if INI_CALL_HANDLER_ON_NEW_SECTION cfg then 0
         else header_lines cfg (buffer_size cfg) 1 lines) in
    (INI_CALL_HANDLER_ON_NEW_SECTION cfg = true \/
     no_indented_header cfg (buffer_size cfg) 1 lines = true ->
     (ret o = 0%Z -> events = n) /\
     (INI_STOP_ON_FIRST_ERROR cfg = false ->
      (exists o',
          ini_parse_string cfg alloc accept_all string tt = Some o' /\
          ret o' = 0%Z) ->
      events = n)) /\
    (forall (st : state U) line,
        comment_or_blank cfg (lineno st) line = false ->
        continues cfg st line = true ->
        exists v r,
          calls (ini_parse_line cfg handler st line) =
          calls st ++ [mkCall (lineno st) (section st) (Some (prev_name st))
                              (Some v) r]).
Proof.
  intros Hbuf.
  assert (Hzero : forall V (h : ini_handler V) v o,
    INI_CALL_HANDLER_ON_NEW_SECTION cfg = true \/
    no_indented_header cfg (buffer_size cfg) 1
      (physical_lines (c_str string)) = true ->
    ini_parse_string cfg alloc h string v = Some o -> ret o = 0%Z ->
    length (calls (final o))
    + (if INI_CALL_HANDLER_ON_NEW_SECTION cfg then 0
       else header_lines cfg (buffer_size cfg) 1
              (physical_lines (c_str string))) =
    content_lines cfg (buffer_size cfg) 1 (physical_lines (c_str string))).
  { intros V h v o Hhdr Ho Hret.
    destruct (ini_parse_string_lines cfg alloc h string v Hbuf)
      as (j & Hj & Hrun & _ & Herr).
    cbv zeta in *. rewrite Hrun in Ho. injection Ho as <-.
    cbn [ret final] in *.
    assert (Ej : j = length (physical_lines (c_str string))).
    { destruct (Nat.eq_dec j (length (physical_lines (c_str string))));
        auto.
      exfalso. apply Herr; [lia|auto]. }
    rewrite Ej, firstn_all in *.
    pose proof (ini_parse_lines_count cfg h (initial_state cfg v)
                  (physical_lines (c_str string))) as Hcount.
    cbn [lineno prev_name initial_state max_line calls length] in Hcount.
    fold (buffer_size cfg) in Hcount.
    apply Hcount; auto; lia. }
  destruct (ini_parse_string_length_total cfg alloc handler string
              (strlen string) u) as [o Ho].
  change (ini_parse_string cfg alloc handler string u = Some o) in Ho.
  exists o. split; [exact Ho|]. cbv zeta. split; [intros Hhdr; split|].
  - apply (Hzero U handler u o Hhdr Ho).
  - intros Hstop (o' & Ho' & Hret).
    destruct (ini_parse_string_same_parse cfg handler accept_all alloc
                string u tt Hbuf Hstop) as (o1 & o2 & H1 & H2 & Hsame).
    rewrite Ho in H1. injection H1 as <-.
    rewrite Ho' in H2. injection H2 as <-.
    destruct Hsame as (_ & _ & _ & _ & Hc).
    apply (f_equal (@length _)) in Hc. rewrite !length_map in Hc.
    rewrite Hc. apply (Hzero unit accept_all tt o' Hhdr Ho' Hret).
  - intros st line Hcomment Hcont.
    rewrite (ini_parse_line_continuation cfg handler st line Hcomment Hcont).
    pose proof (handler_or_error_fields cfg handler st (section st)
                  (Some (prev_name st))) as Hf.
    cbv zeta in Hf.
    match goal with
    | |- context [handler_or_error cfg handler st (section st)
                    (Some (prev_name st)) (Some ?v)] =>
        destruct (Hf (Some v)) as (_ & _ & _ & _ & _ & Hcalls & _);
        exists v
    end.
    eexists. exact Hcalls.
Qed.

(** ** Continuation lines and inline comments on examples (C5, C6) *)

Lemma options_default :
  options false true true true false false = default_config.
Proof. reflexivity. Qed.

Lemma options_fixed_line_buffer a b c d e f alloc :
  fixed_line_buffer (options a b c d e f) alloc.
Proof. split; [left; reflexivity|]. cbv; lia. Qed.

(** What a parse passes to its handler does not depend on the handler: it
    is what it passes to the handler that accepts everything. *)
Lemma calls_of_any_handler {U} cfg alloc (handler : ini_handler U) string u
    o' :
  fixed_line_buffer cfg alloc ->
  INI_STOP_ON_FIRST_ERROR cfg = false ->
  ini_parse_string cfg alloc accept_all string tt = Some o' ->
  exists o,
    ini_parse_string cfg alloc handler string u = Some o /\
    map call_args (calls (final o)) = map call_args (calls (final o')).
Proof.
  intros Hbuf Hstop Ho'.
  destruct (ini_parse_string_same_parse cfg handler accept_all alloc
              string u tt Hbuf Hstop) as (o1 & o2 & H1 & H2 & Hsame).
  rewrite Ho' in H2. injection H2 as <-.
  exists o1. split; [exact H1|]. apply Hsame.
Qed.

(** C5.  With continuation lines allowed, whatever the other switches and
    the handler, the two lines "key=first line" and "  second line" make
    exactly two calls of the handler, for the lines 1 and 2, both with the
    name "key", with the values "first line" and "second line". *)
Theorem continuation_line_example {U} handler_lineno bom inline on_section
    no_value alloc (handler : ini_handler U) u :
  exists o,
    ini_parse_string
      (options handler_lineno bom true inline on_section no_value)
      alloc handler
      (cs "key=first line" ++ [NL] ++ cs "  second line" ++ [NL]) u
    = Some o /\
    map call_args (calls (final o)) =
      [(1%Z, [], Some (cs "key"), Some (cs "first line"));
       (2%Z, [], Some (cs "key"), Some (cs "second line"))].
Proof.
  set (cfg := options handler_lineno bom true inline on_section no_value).
  set (input := cs "key=first line" ++ [NL] ++ cs "  second line" ++ [NL]).
  assert (Hrun : exists o',
    ini_parse_string cfg alloc accept_all input tt = Some o' /\
    map call_args (calls (final o')) =
      [(1%Z, [], Some (cs "key"), Some (cs "first line"));
       (2%Z, [], Some (cs "key"), Some (cs "second line"))]).
  { subst cfg input.
    destruct handler_lineno, bom, inline, on_section, no_value;
      eexists; (split; [vm_compute; reflexivity|reflexivity]). }
  destruct Hrun as (o' & Ho' & Hc').
  destruct (calls_of_any_handler cfg alloc handler input u o'
              (options_fixed_line_buffer _ _ _ _ _ _ alloc) eq_refl Ho')
    as (o & Ho & Hc).
  exists o. split; [exact Ho|]. rewrite Hc. exact Hc'.
Qed.

(** Where a scan stops before the end of the string, it has met one of the
    characters it looks for, or a character of the inline-comment prefixes
    that follows whitespace. *)
Lemma find_loop_stops inline prefixes chars ws s :
  snd (find_loop inline prefixes chars ws s) <> [] ->
  (exists l, chars = Some l /\
     strchr l (deref (snd (find_loop inline prefixes chars ws s))) = true) \/
  (inline = true /\
   strchr prefixes (deref (snd (find_loop inline prefixes chars ws s)))
   = true /\
   match fst (find_loop inline prefixes chars ws s) with
   | [] => ws = true
   | before => isspace (last_char before) = true
   end).
Proof.
  revert ws; induction s as [|c s IH]; intros ws; simpl; [congruence|].
  destruct (match chars with
            | Some l => negb (strchr l c)
            | None => true
            end) eqn:Hc; simpl.
  - destruct (inline && ws && strchr prefixes c) eqn:Hi; simpl.
    + intros _. right.
      apply andb_true_iff in Hi as [Hi Hp].
      apply andb_true_iff in Hi as [Hi Hw]. auto.
    + specialize (IH (isspace c)).
      destruct (find_loop inline prefixes chars (isspace c) s)
        as [before found]; simpl in *.
      intros Hne. destruct (IH Hne) as [H | (H1 & H2 & H3)]; auto.
      right. split; auto. split; auto.
      destruct before; auto.
  - intros _. left. destruct chars as [l|]; [|discriminate].
    exists l. split; auto. simpl.
    destruct (strchr l c); auto; discriminate.
Qed.

(** C6.  A scan for an inline comment stops only at a character of the
    inline-comment prefixes that immediately follows whitespace; and with
    inline comments allowed, whatever the other switches and the handler,
    the line "key=val ; comment" is reported with the value "val" and the
    line "key=val;nospace" with the value "val;nospace". *)
Theorem inline_comment_needs_space :
  (forall cfg s,
      let found := snd (find_chars_or_comment cfg s None) in
      let before := fst (find_chars_or_comment cfg s None) in
      s = before ++ found /\
      (found <> [] ->
       INI_ALLOW_INLINE_COMMENTS cfg = true /\
       strchr (INI_INLINE_COMMENT_PREFIXES cfg) (deref found) = true /\
       before <> [] /\ isspace (last_char before) = true)) /\
  (forall U handler_lineno bom multiline on_section no_value alloc
          (handler : ini_handler U) u,
      let cfg :=
        options handler_lineno bom multiline true on_section no_value in
      (exists o,
          ini_parse_string cfg alloc handler
            (cs "key=val ; comment" ++ [NL]) u = Some o /\
          map call_args (calls (final o)) =
            [(1%Z, [], Some (cs "key"), Some (cs "val"))]) /\
      (exists o,
          ini_parse_string cfg alloc handler
            (cs "key=val;nospace" ++ [NL]) u = Some o /\
          map call_args (calls (final o)) =
            [(1%Z, [], Some (cs "key"), Some (cs "val;nospace"))])).
Proof.
  split.
  - intros cfg s. cbv zeta.
    unfold find_chars_or_comment, ini_find_chars_or_comment.
    split; [symmetry; apply find_loop_app|].
    intros Hne.
    destruct (find_loop_stops _ _ _ _ _ Hne)
      as [(l & Hl & _) | (H1 & H2 & H3)]; [discriminate|].
    split; auto. split; auto.
    destruct (fst (find_loop _ _ _ _ _)); [discriminate|].
    split; [discriminate|auto].
  - intros U handler_lineno bom multiline on_section no_value alloc
      handler u cfg.
    assert (Hany : forall input expected,
      (exists o', ini_parse_string cfg alloc accept_all input tt = Some o' /\
                  map call_args (calls (final o')) = expected) ->
      exists o, ini_parse_string cfg alloc handler input u = Some o /\
                map call_args (calls (final o)) = expected).
    { intros input expected (o' & Ho' & Hc').
      destruct (calls_of_any_handler cfg alloc handler input u o'
                  (options_fixed_line_buffer _ _ _ _ _ _ alloc) eq_refl Ho')
        as (o & Ho & Hc).
      exists o. split; [exact Ho|]. rewrite Hc. exact Hc'. }
    split; apply Hany; subst cfg;
      destruct handler_lineno, bom, multiline, on_section, no_value;
      eexists; (split; [vm_compute; reflexivity|reflexivity]).
Qed.

(** ** The first error, continued *)


Lemma ini_parse_stream_inv {U Stream} cfg alloc
    (reader : nat -> Stream -> option (list ascii * Stream))
    (handler : ini_handler U) fuel stream u o :
  allocates alloc ->
  ini_parse_stream cfg alloc reader handler fuel stream u = Some o ->
  reports_first_error cfg reader o.
Proof.
  intros Ha H. unfold ini_parse_stream in H.
  destruct (Ha (INI_INITIAL_ALLOC cfg)) as [Hm _].
  rewrite Hm, andb_false_r in H.
  apply ini_parse_loop_inv in H; auto.
  - destruct H as ((H0 & Hh & Hr & Hm' & Hc) & Hret & Hstop).
    unfold reports_first_error; rewrite Hret.
    repeat split; auto.
    rewrite Forall_forall in *; intros e He; split; auto.
  - unfold first_error_inv, initial_state; simpl.
    repeat split; auto; lia.
Qed.

(** ** The theorems at concrete inputs *)

Lemma always_allocates_allocates : allocates always_allocates.
Proof. intros n; split; reflexivity. Defined.

Lemma default_fixed_line_buffer :
  fixed_line_buffer default_config always_allocates.
Proof. split; [left; reflexivity|]. apply Nat.leb_le. reflexivity. Defined.

(** The parse of [two_errors] returns 1, the first of the two lines
    flagged, and has called the handler for the line between them. *)
Lemma two_errors_parse :
  exists o,
    ini_parse_string default_config always_allocates accept_all
      two_errors tt = Some o /\
    ret o = 1%Z /\ flagged (final o) = [1%Z; 3%Z] /\
    map call_args (calls (final o)) = [(2%Z, [], Some (cs "k"), Some (cs "v"))]
    /\ rest o = [].
Proof.
  eexists. split; [vm_compute; reflexivity|].
  repeat split; reflexivity.
Qed.

Lemma overlong_line_is_truncated_witness :
  (INI_MAX_LINE default_config <= length (fst (first_line overlong_input))) /\
  exists k,
    1 <= k /\
    let st1 := mkState 200 [] [] 1 1 tt [] (repeat 1%Z k) in
    let st2 :=
      ini_parse_line default_config accept_all st1
        (firstn 199 (fst (first_line overlong_input))) in
    ini_parse_loop default_config always_allocates ini_reader_string
      accept_all 300 (initial_state default_config tt) overlong_input =
    ini_parse_loop default_config always_allocates ini_reader_string
      accept_all 299 st2 (snd (first_line overlong_input)) /\
    (exists o,
        ini_parse_loop default_config always_allocates ini_reader_string
          accept_all 300 (initial_state default_config tt) overlong_input
        = Some o) /\
    error st2 = error st1.
Proof.
  assert (Hlong : INI_MAX_LINE default_config
                  <= length (fst (first_line overlong_input))).
  { apply Nat.leb_le. vm_compute. reflexivity. }
  split; [exact Hlong|].
  refine (overlong_line_is_truncated default_config always_allocates
            accept_all 300 (initial_state default_config tt) overlong_input
            eq_refl eq_refl _ _ _ _ Hlong).
  - discriminate.
  - apply Nat.leb_le. reflexivity.
  - vm_compute. reflexivity.
  - apply Nat.ltb_lt. vm_compute. reflexivity.
Defined.

(** The same on the heap: the buffer of [growing_config] grows from 8 to
    16 and to 32 bytes, the first line is cut to its first 31 characters and
    flagged, and the second line is parsed. *)
Lemma overlong_value_parse :
  exists o,
    ini_parse_string growing_config always_allocates accept_all
      overlong_value tt = Some o /\
    ret o = 1%Z /\ flagged (final o) = [1%Z] /\
    max_line (final o) = 32 /\
    map call_args (calls (final o)) =
      [(1%Z, [], Some (cs "k"), Some (repeat "v"%char 29));
       (2%Z, [], Some (cs "a"), Some (cs "b"))] /\
    rest o = [].
Proof.
  eexists. split; [vm_compute; reflexivity|].
  repeat split; reflexivity.
Qed.

Lemma one_call_per_content_line_witness :
  fixed_line_buffer default_config always_allocates /\
  exists o,
    ini_parse_string default_config always_allocates accept_all
      counted_input tt = Some o /\
    ret o = 0%Z /\
    header_lines default_config 200 1 (physical_lines counted_input) = 1 /\
    content_lines default_config 200 1 (physical_lines counted_input) = 3 /\
    length (calls (final o)) + 1 = 3.
Proof.
  split; [apply default_fixed_line_buffer|].
  pose proof (one_call_per_content_line
                default_config always_allocates
                accept_all counted_input tt
                default_fixed_line_buffer) as H.
  cbv zeta in H. destruct H as (o & Ho & Hcount & _).
  exists o. split; [exact Ho|].
  assert (Hret : ret o = 0%Z).
  { vm_compute in Ho. injection Ho as <-. reflexivity. }
  split; [exact Hret|]. split; [reflexivity|]. split; [reflexivity|].
  exact (proj1 (Hcount (or_intror eq_refl)) Hret).
Defined.

Lemma long_names_are_truncated_witness :
  comment_or_blank default_config 1 long_header = false /\
  section (ini_parse_line default_config accept_all at_line_1 long_header)
  = repeat "s"%char 49.
Proof.
  split; [reflexivity|].
  pose proof (proj1 (long_names_are_truncated default_config accept_all)
                at_line_1 long_header (repeat "s"%char 60) []) as H.
  cbv zeta in H.
  destruct (H eq_refl eq_refl eq_refl (conj eq_refl eq_refl)) as (Hs & _).
  exact Hs.
Defined.

(** A blank line and a comment between the line "k=v" and an indented line
    change nothing: the indented line continues the value of k. *)
Lemma blank_lines_parse :
  exists o,
    ini_parse_string default_config always_allocates accept_all
      (cs "k=v" ++ [NL; NL] ++ cs "; note" ++ [NL] ++ cs "  more" ++ [NL]) tt
    = Some o /\
    ret o = 0%Z /\
    map call_args (calls (final o)) =
      [(1%Z, [], Some (cs "k"), Some (cs "v"));
       (4%Z, [], Some (cs "k"), Some (cs "more"))].
Proof.
  eexists. split; [vm_compute; reflexivity|].
  split; reflexivity.
Qed.

Lemma inline_comment_needs_space_witness :
  snd (find_chars_or_comment default_config (cs "val ; comment") None)
  = cs "; comment" /\
  isspace (last_char (fst (find_chars_or_comment default_config
                             (cs "val ; comment") None))) = true.
Proof.
  split; [reflexivity|].
  pose proof (proj1 inline_comment_needs_space default_config
                (cs "val ; comment")) as H.
  cbv zeta in H. destruct H as [_ H].
  destruct (H ltac:(discriminate)) as (_ & _ & _ & Hs).
  exact Hs.
Defined.

(** * Further properties of the code *)

(** ** The string helpers *)

Lemma drop_while_split p (l : list ascii) :
  exists ws,
    l = ws ++ drop_while p l /\ forallb p ws = true /\
    match drop_while p l with
    | [] => True
    | c :: _ => p c = false
    end.
Proof.
  induction l as [|c l IH]; simpl.
  - exists []; auto.
  - destruct (p c) eqn:E.
    + destruct IH as (ws & H1 & H2 & H3).
      exists (c :: ws); simpl. rewrite E, H2. rewrite <- H1. auto.
    + exists []; simpl; auto.
Qed.

Lemma forallb_rev (p : ascii -> bool) l :
  forallb p l = true -> forallb p (rev l) = true.
Proof.
  rewrite !forallb_forall. intros H x Hx. apply H. apply in_rev; auto.
Qed.

Lemma ini_rstrip_spaces ws : forallb isspace ws = true -> ini_rstrip ws = [].
Proof.
  intros H. unfold ini_rstrip.
  apply forallb_rev in H. revert H. generalize (rev ws) as l.
  induction l as [|c l IH]; simpl; auto.
  intros H. apply andb_true_iff in H as [-> H]. auto.
Qed.

Lemma ini_rstrip_last s : isspace (last_char (ini_rstrip s)) = false.
Proof.
  unfold ini_rstrip, last_char.
  destruct (drop_while_split isspace (rev s)) as (ws & _ & _ & H).
  destruct (drop_while isspace (rev s)) as [|c t]; [reflexivity|].
  simpl rev. rewrite last_last. exact H.
Qed.

Lemma ini_rstrip_unique a ws :
  forallb isspace ws = true -> isspace (last_char a) = false ->
  ini_rstrip (a ++ ws) = a.
Proof.
  intros Hws Ha.
  destruct a as [|c a' _] using rev_ind.
  - simpl. apply ini_rstrip_spaces; auto.
  - unfold last_char in Ha. rewrite last_last in Ha.
    rewrite <- app_assoc. simpl.
    rewrite ini_rstrip_app_nonspace by exact Ha.
    rewrite ini_rstrip_spaces; auto.
Qed.

(** X1.  [ini_rstrip] removes exactly the whitespace at the end of a
    string: what it cuts off is whitespace, what it leaves does not end
    with whitespace, and it is the only way to split the string so. *)
Theorem ini_rstrip_strips s :
  (exists ws,
      s = ini_rstrip s ++ ws /\ forallb isspace ws = true /\
      isspace (last_char (ini_rstrip s)) = false) /\
  (forall a ws,
      s = a ++ ws -> forallb isspace ws = true ->
      isspace (last_char a) = false -> ini_rstrip s = a).
Proof.
  split.
  - unfold ini_rstrip.
    destruct (drop_while_split isspace (rev s)) as (ws & H1 & H2 & _).
    exists (rev ws). split; [|split].
    + rewrite <- rev_app_distr, <- H1, rev_involutive. reflexivity.
    + apply forallb_rev; exact H2.
    + apply ini_rstrip_last.
  - intros a ws -> Hws Ha. apply ini_rstrip_unique; auto.
Qed.

(** X2.  [ini_lskip] removes exactly the whitespace at the start of a
    string: what it skips is whitespace, and what it returns does not start
    with whitespace. *)
Theorem ini_lskip_skips s :
  (exists ws,
      s = ws ++ ini_lskip s /\ forallb isspace ws = true /\
      isspace (deref (ini_lskip s)) = false) /\
  (forall ws t,
      s = ws ++ t -> forallb isspace ws = true ->
      isspace (deref t) = false -> ini_lskip s = t).
Proof.
  split.
  - unfold ini_lskip.
    destruct (drop_while_split isspace s) as (ws & H1 & H2 & H3).
    exists ws. split; [exact H1|]. split; [exact H2|].
    destruct (drop_while isspace s); [reflexivity|exact H3].
  - intros ws t -> Hws Ht. rewrite ini_lskip_app_spaces by exact Hws.
    destruct t as [|c t]; [reflexivity|].
    apply ini_lskip_nonspace. exact Ht.
Qed.

Lemma find_loop_stop cfg chars ws s :
  let r := find_loop (INI_ALLOW_INLINE_COMMENTS cfg)
                     (INI_INLINE_COMMENT_PREFIXES cfg) chars ws s in
  no_inline_comment cfg ws (fst r) = true /\
  (forall cs, chars = Some cs ->
              forallb (fun x => negb (strchr cs x)) (fst r) = true) /\
  (snd r = [] \/
   (exists cs, chars = Some cs /\ strchr cs (deref (snd r)) = true) \/
   (INI_ALLOW_INLINE_COMMENTS cfg = true /\
    strchr (INI_INLINE_COMMENT_PREFIXES cfg) (deref (snd r)) = true /\
    match fst r with
    | [] => ws
    | _ => isspace (last_char (fst r))
    end = true)).
Proof.
  cbv zeta. revert ws; induction s as [|c s IH]; intros ws.
  - simpl. split; [reflexivity|]. split; [reflexivity|]. left; reflexivity.
  - cbn [find_loop].
    destruct (match chars with
              | Some cs0 => negb (strchr cs0 c)
              | None => true
              end) eqn:Hc.
    + destruct (INI_ALLOW_INLINE_COMMENTS cfg && ws
                && strchr (INI_INLINE_COMMENT_PREFIXES cfg) c) eqn:Hi;
        cbn [andb negb].
      * cbn [fst snd deref no_inline_comment forallb].
        split; [reflexivity|]. split; [reflexivity|].
        right; right.
        apply andb_true_iff in Hi as [Hi H3].
        apply andb_true_iff in Hi as [H1 H2]. auto.
      * specialize (IH (isspace c)).
        destruct (find_loop _ _ chars (isspace c) s) as [before found].
        cbn [fst snd] in *. destruct IH as (H1 & H2 & H3).
        split; [cbn [no_inline_comment]; rewrite Hi, H1; reflexivity|].
        split.
        { intros cs E. cbn [forallb]. rewrite (H2 cs E). subst chars.
          rewrite Hc. reflexivity. }
        destruct H3 as [H3|[H3|(Ha & Hb & Hl)]]; auto.
        right; right. split; [exact Ha|]. split; [exact Hb|].
        destruct before as [|b before]; [exact Hl|].
        unfold last_char in *. exact Hl.
    + cbn [andb fst snd deref no_inline_comment forallb].
      split; [reflexivity|]. split; [reflexivity|].
      right; left. destruct chars as [cs0|]; [|discriminate].
      exists cs0. split; [reflexivity|].
      destruct (strchr cs0 c); [reflexivity|discriminate].
Qed.

Lemma c_str_no_nul s : c_str s = s -> ~ In NUL s.
Proof.
  induction s as [|c s IH]; simpl; [tauto|].
  destruct (Ascii.eqb_spec c NUL) as [E|E]; intros H; [discriminate H|].
  injection H as H. intros [F|F]; [congruence|]. exact (IH H F).
Qed.

Lemma strchr_in chars c : strchr chars c = true -> c <> NUL -> In c chars.
Proof.
  unfold strchr. intros H Hc.
  destruct (Ascii.eqb_spec c NUL); [contradiction|]. simpl in H.
  apply existsb_exists in H as (x & Hx & E).
  apply Ascii.eqb_eq in E. subst x. exact Hx.
Qed.

(** X3.  [ini_find_chars_or_comment] splits a string at the first
    character that is one of [chars], or that starts an inline comment: a
    character of the inline-comment prefixes that follows whitespace, when
    inline comments are enabled.  Nothing before the split is such a
    character, and the split is at the end of the string when there is
    none. *)
Theorem ini_find_chars_or_comment_first cfg s chars :
  c_str s = s ->
  let before := fst (find_chars_or_comment cfg s chars) in
  let found := snd (find_chars_or_comment cfg s chars) in
  before ++ found = s /\
  no_inline_comment cfg false before = true /\
  (forall cs, chars = Some cs -> forall x, In x before -> ~ In x cs) /\
  (found = [] \/
   (exists cs, chars = Some cs /\ In (deref found) cs) \/
   (INI_ALLOW_INLINE_COMMENTS cfg = true /\
    In (deref found) (INI_INLINE_COMMENT_PREFIXES cfg) /\
    before <> [] /\ isspace (last_char before) = true)).
Proof.
  intros Hs. cbv zeta.
  unfold find_chars_or_comment, ini_find_chars_or_comment.
  pose proof (find_loop_app (INI_ALLOW_INLINE_COMMENTS cfg)
                (INI_INLINE_COMMENT_PREFIXES cfg) chars false s) as Happ.
  pose proof (find_loop_stop cfg chars false s) as H. cbv zeta in H.
  destruct (find_loop _ _ chars false s) as [before found].
  cbn [fst snd] in *. destruct H as (H1 & H2 & H3).
  assert (Hnul : found <> [] -> deref found <> NUL).
  { intros Hne E. apply (c_str_no_nul s Hs). rewrite <- Happ.
    apply in_or_app. right. destruct found; [contradiction|].
    simpl in E. left; exact E. }
  split; [exact Happ|]. split; [exact H1|]. split.
  - intros cs E x Hx Hin. specialize (H2 cs E).
    rewrite forallb_forall in H2. specialize (H2 x Hx).
    apply negb_true_iff in H2. unfold strchr in H2.
    apply orb_false_iff in H2 as [_ H2].
    assert (existsb (Ascii.eqb x) cs = true).
    { apply existsb_exists. exists x. split; auto. apply Ascii.eqb_refl. }
    congruence.
  - destruct found as [|f found]; [left; reflexivity|right].
    specialize (Hnul ltac:(discriminate)).
    destruct H3 as [H3|[(cs & E & H3)|(Ha & Hb & Hl)]]; [discriminate| |].
    + left. exists cs. split; [exact E|]. apply strchr_in; auto.
    + right. split; [exact Ha|]. split; [apply strchr_in; auto|].
      destruct before; [discriminate|]. split; [discriminate|exact Hl].
Qed.

Lemma ini_find_chars_or_comment_first_witness :
  c_str (cs "a=b ; c") = cs "a=b ; c" /\
  fst (find_chars_or_comment default_config (cs "a=b ; c") (Some (cs "=:")))
  ++ snd (find_chars_or_comment default_config (cs "a=b ; c")
            (Some (cs "=:")))
  = cs "a=b ; c".
Proof.
  split; [reflexivity|].
  exact (proj1 (ini_find_chars_or_comment_first default_config
                  (cs "a=b ; c") (Some (cs "=:")) eq_refl)).
Defined.

(** ** The string reader *)

Lemma in_removelast (x : ascii) l : In x (removelast l) -> In x l.
Proof.
  induction l as [|a l IH]; simpl; auto.
  destruct l; [tauto|]. intros [H|H]; auto.
Qed.

Lemma removelast_firstn_in (x : ascii) k l :
  In x (removelast (firstn k l)) -> In x (firstn (length l - 1) l).
Proof.
  replace (length l - 1) with (pred (length l)) by lia.
  rewrite <- removelast_firstn_len.
  revert l; induction k as [|k IH]; intros l; [simpl; tauto|].
  destruct l as [|a l]; [simpl; tauto|].
  cbn [firstn].
  specialize (IH l).
  destruct (firstn k l) as [|b t] eqn:E; [simpl; tauto|].
  destruct l as [|b' l]; [destruct k; discriminate|].
  change (In x (a :: removelast (b :: t)) ->
          In x (a :: removelast (b' :: l))).
  intros [H|H]; [left; auto|right; auto].
Qed.

(** X4.  [ini_reader_string] reads like [fgets]: it returns NULL exactly
    when no byte is left or the buffer has no room for a character; else it
    takes at least one byte and at most [num - 1] from the front of what is
    left, nothing after a newline, and it stops short only after a newline
    or at the end of the input. *)
Theorem ini_reader_string_reads num ctx :
  (ini_reader_string num ctx = None <-> ctx = [] \/ num < 2) /\
  (forall chunk rest,
      ini_reader_string num ctx = Some (chunk, rest) ->
      chunk ++ rest = ctx /\
      1 <= length chunk <= num - 1 /\
      ~ In NL (removelast chunk) /\
      (last_char chunk = NL \/ length chunk = num - 1 \/ rest = [])).
Proof.
  split.
  - unfold ini_reader_string.
    destruct ctx as [|c ctx]; cbn [length Nat.eqb orb].
    + split; auto.
    + destruct (Nat.ltb_spec num 2); split; auto; try discriminate.
      intros [F|F]; [discriminate|lia].
  - intros chunk rest H.
    destruct ctx as [|c ctx]; [discriminate|].
    destruct (Nat.lt_ge_cases num 2) as [Hn|Hn].
    { unfold ini_reader_string in H. cbn [length Nat.eqb orb] in H.
      destruct (Nat.ltb_spec num 2); [discriminate|lia]. }
    rewrite ini_reader_string_first_line in H by exact Hn.
    pose proof (first_line_app (c :: ctx)) as Happ.
    pose proof (first_line_nonempty c ctx) as Hne.
    set (pl := fst (first_line (c :: ctx))) in *.
    set (rs := snd (first_line (c :: ctx))) in *.
    assert (Hc : chunk = firstn (num - 1) pl) by congruence.
    assert (Hr : rest = skipn (num - 1) pl ++ rs) by congruence.
    clear H. subst chunk rest.
    assert (Hlen : 1 <= length pl) by (destruct pl; simpl; [congruence|lia]).
    split; [rewrite app_assoc, firstn_skipn; exact Happ|].
    split; [rewrite length_firstn; lia|].
    split.
    + intros F. apply removelast_firstn_in in F.
      destruct (first_line_skipn (c :: ctx) (length pl - 1)
                  ltac:(fold pl; lia)) as [_ Hno].
      apply Hno. exact F.
    + destruct (Nat.le_gt_cases (length pl) (num - 1)) as [Hle|Hgt].
      * rewrite firstn_all2, skipn_all2 by lia. cbn [app].
        destruct (Ascii.eqb_spec (last_char pl) NL) as [E|E]; [auto|].
        right; right. apply first_line_no_newline. exact E.
      * right; left. rewrite length_firstn. lia.
Qed.

(** ** A rule for the loop of ini_parse_stream *)

Section LoopRule.

Context {U Stream : Type}.
Variable cfg : config.
Variable alloc : allocator.
Variable reader : nat -> Stream -> option (list ascii * Stream).
Variable handler : ini_handler U.

(** [Before] holds of the state when a line is about to be read, [During]
    from the moment its number is counted until it is parsed, and [After]
    once it is parsed. *)
Variable Before : state U -> Prop.
Variable During : state U -> Prop.
Variable After : state U -> Prop.

Hypothesis read_line : forall st size,
  Before st -> During (set_lineno (set_max_line st size) (lineno st + 1)).
Hypothesis drop_piece : forall st, During st -> During (record_error st).
Hypothesis parse_line : forall st line,
  During st -> After (ini_parse_line cfg handler st line).
Hypothesis next_line : forall st,
  After st ->
  INI_STOP_ON_FIRST_ERROR cfg = false \/ error st = 0%Z -> Before st.

Lemma ini_grow_line_nomem fuel size line stream :
  ini_grow_line cfg alloc reader fuel size line stream = Some Grow_nomem ->
  exists n, ini_realloc alloc n = false.
Proof.
  revert size line stream; induction fuel as [|fuel IH];
    intros size line stream; simpl.
  - destruct (buffer_full size line); discriminate.
  - destruct (buffer_full size line); [|discriminate].
    set (size' := if Nat.ltb _ _ then _ else _).
    destruct (ini_realloc alloc size') eqn:E; simpl; [|eauto].
    destruct (reader _ stream) as [[c s]|]; [|discriminate].
    destruct (Nat.leb _ _); [discriminate|apply IH].
Qed.

Lemma ini_discard_line_rule fuel (st : state U) stream st' stream' :
  ini_discard_line reader fuel st stream = Some (st', stream') ->
  During st -> During st'.
Proof.
  revert st stream; induction fuel as [|fuel IH]; intros st stream;
    simpl; [discriminate|].
  destruct (reader 16 stream) as [[abyss stream1]|].
  - intros H Hd. destruct (Ascii.eqb _ NL).
    + injection H as <- <-. auto.
    + apply IH in H; auto.
  - intros H; injection H as <- <-; auto.
Qed.

Lemma ini_parse_loop_rule fuel (st : state U) stream o :
  ini_parse_loop cfg alloc reader handler fuel st stream = Some o ->
  Before st ->
  (Before (final o) \/ After (final o)) /\
  (ret o = error (final o) \/
   (ret o = (-2)%Z /\
    INI_ALLOW_REALLOC cfg && negb (INI_USE_STACK cfg) = true /\
    exists n, ini_realloc alloc n = false)).
Proof.
  revert st stream; induction fuel as [|fuel IH]; intros st stream;
    simpl; [discriminate|].
  destruct (reader (max_line st) stream) as [[chunk stream1]|].
  2:{ intros H Hb; injection H as <-; simpl; auto. }
  destruct (INI_ALLOW_REALLOC cfg && negb (INI_USE_STACK cfg)) eqn:Hre.
  - destruct (ini_grow_line _ _ _ _ _ _ _) as [[|size line stream2]|] eqn:Hg;
      try discriminate.
    { intros H Hb; injection H as <-; simpl. split; [auto|].
      right. split; [reflexivity|]. split; [reflexivity|].
      eapply ini_grow_line_nomem; eauto. }
    set (st1 := set_lineno _ _).
    destruct (if buffer_full size line then _ else _)
      as [[st2 stream3]|] eqn:Hd; try discriminate.
    intros H Hb.
    assert (H2 : During st2).
    { destruct (buffer_full size line).
      - apply ini_discard_line_rule in Hd; auto. apply read_line; auto.
      - injection Hd as <- <-. apply read_line; auto. }
    pose proof (parse_line st2 line H2) as H3.
    destruct (INI_STOP_ON_FIRST_ERROR cfg) eqn:Hstop; cbn [andb] in H.
    + destruct (Z.eqb_spec (error (ini_parse_line cfg handler st2 line)) 0)
        as [E|E]; cbn [negb] in H.
      * apply IH in H; auto.
      * injection H as <-; simpl; auto.
    + apply IH in H; auto.
  - set (st1 := set_lineno _ _).
    destruct (if buffer_full (max_line st) (c_str chunk) then _ else _)
      as [[st2 stream3]|] eqn:Hd; try discriminate.
    intros H Hb.
    assert (H2 : During st2).
    { destruct (buffer_full (max_line st) (c_str chunk)).
      - apply ini_discard_line_rule in Hd; auto. apply read_line; auto.
      - injection Hd as <- <-. apply read_line; auto. }
    pose proof (parse_line st2 (c_str chunk) H2) as H3.
    destruct (INI_STOP_ON_FIRST_ERROR cfg) eqn:Hstop; cbn [andb] in H.
    + destruct (Z.eqb_spec
                  (error (ini_parse_line cfg handler st2 (c_str chunk))) 0)
        as [E|E]; cbn [negb] in H.
      * apply IH in H; auto.
      * injection H as <-; simpl; auto.
    + apply IH in H; auto.
Qed.

Lemma ini_parse_stream_rule fuel stream u o :
  ini_parse_stream cfg alloc reader handler fuel stream u = Some o ->
  Before (initial_state cfg u) ->
  (Before (final o) \/ After (final o)) /\
  (ret o = error (final o) \/
   (ret o = (-2)%Z /\ INI_USE_STACK cfg = false /\
    (ini_malloc alloc (INI_INITIAL_ALLOC cfg) = false \/
     (INI_ALLOW_REALLOC cfg = true /\ exists n, ini_realloc alloc n = false)))).
Proof.
  unfold ini_parse_stream.
  destruct (negb (INI_USE_STACK cfg)
            && negb (ini_malloc alloc (INI_INITIAL_ALLOC cfg))) eqn:E.
  - intros H Hb; injection H as <-; simpl. split; [auto|right].
    apply andb_true_iff in E as [E1 E2].
    apply negb_true_iff in E1, E2. auto.
  - intros H Hb. apply ini_parse_loop_rule in H; auto.
    destruct H as [H1 [H2|(H2 & H3 & H4)]]; split; auto.
    right. apply andb_true_iff in H3 as [H3 H5].
    apply negb_true_iff in H5. auto.
Qed.

End LoopRule.

(** ** The value returned *)

Lemma first_error_inv_range {U} (st : state U) :
  first_error_inv st -> (0 <= error st <= lineno st)%Z.
Proof.
  intros (H0 & Hh & Hf & _). rewrite Hh.
  destruct (flagged st) as [|e l]; simpl; [lia|].
  apply Forall_inv in Hf. lia.
Qed.

Lemma first_error_inv_initial {U} cfg (u : U) :
  first_error_inv (initial_state cfg u).
Proof. repeat split; simpl; auto; lia. Qed.

Lemma first_error_inv_read_line {U} (st : state U) size :
  first_error_inv st ->
  first_error_inv (set_lineno (set_max_line st size) (lineno st + 1)) /\
  (1 <= lineno (set_lineno (set_max_line st size) (lineno st + 1)))%Z.
Proof.
  intros (H0 & Hh & Hf & Hm & Hc).
  unfold first_error_inv; simpl; repeat split; auto; try lia.
  eapply Forall_impl; [|exact Hf]; simpl; intros; lia.
Qed.

Lemma ini_parse_stream_first_error_inv {U Stream} cfg alloc
    (reader : nat -> Stream -> option (list ascii * Stream))
    (handler : ini_handler U) fuel stream u o :
  ini_parse_stream cfg alloc reader handler fuel stream u = Some o ->
  first_error_inv (final o) /\
  (ret o = error (final o) \/
   (ret o = (-2)%Z /\ INI_USE_STACK cfg = false /\
    (ini_malloc alloc (INI_INITIAL_ALLOC cfg) = false \/
     (INI_ALLOW_REALLOC cfg = true /\ exists n, ini_realloc alloc n = false)))).
Proof.
  intros H.
  apply (ini_parse_stream_rule cfg alloc reader handler
           first_error_inv
           (fun st => first_error_inv st /\ (1 <= lineno st)%Z)
           first_error_inv) in H.
  - destruct H as [[H|H] H']; auto.
  - intros st size Hb. apply first_error_inv_read_line; auto.
  - intros st [Hd Hl]. split; [apply record_error_inv; auto|exact Hl].
  - intros st line [Hd Hl]. apply ini_parse_line_inv; auto.
  - auto.
  - apply first_error_inv_initial.
Qed.

(** ** The number of lines of a string *)

Section Count.

Context {U : Type}.
Variable cfg : config.
Variable alloc : allocator.
Variable handler : ini_handler U.

Lemma ini_discard_line_lineno {Stream}
    (reader : nat -> Stream -> option (list ascii * Stream))
    fuel (st : state U) stream st' stream' :
  ini_discard_line reader fuel st stream = Some (st', stream') ->
  lineno st' = lineno st.
Proof.
  intros H.
  apply (ini_discard_line_rule reader (fun s => lineno s = lineno st)
           (fun s (E : lineno s = lineno st) => E)) in H; auto.
Qed.

(** The parse of a string counts no more lines than the string has
    characters. *)
Lemma ini_parse_loop_string_lineno fuel (st : state U) s :
  length s < fuel ->
  exists o,
    ini_parse_loop cfg alloc ini_reader_string handler fuel st s = Some o /\
    (lineno st <= lineno (final o) <= lineno st + Z.of_nat (length s))%Z.
Proof.
  revert st s; induction fuel as [|fuel IH]; intros st s Hlen; [lia|].
  cbn [ini_parse_loop].
  destruct (ini_reader_string _ s) as [[chunk s1]|] eqn:Hr.
  2:{ eexists. split; [reflexivity|]. cbn [final]. lia. }
  apply ini_reader_string_some in Hr as (_ & _ & Hlt).
  assert (Hg : exists g,
    (if INI_ALLOW_REALLOC cfg && negb (INI_USE_STACK cfg)
     then ini_grow_line cfg alloc ini_reader_string fuel (max_line st)
            (c_str chunk) s1
     else Some (Grown (max_line st) (c_str chunk) s1)) = Some g /\
    match g with
    | Grow_nomem => True
    | Grown _ _ s' => length s' <= length s1
    end).
  { destruct (_ && _).
    - apply ini_grow_line_total; lia.
    - eexists; split; eauto; simpl; lia. }
  destruct Hg as (g & -> & Hle).
  destruct g as [|size line s2].
  { eexists. split; [reflexivity|]. cbn [final]. lia. }
  set (st1 := set_lineno _ _).
  assert (Hd : exists st' s',
    (if buffer_full size line
     then ini_discard_line ini_reader_string fuel st1 s2
     else Some (st1, s2)) = Some (st', s') /\
    length s' <= length s2 /\ lineno st' = lineno st1).
  { destruct (buffer_full size line).
    - destruct (ini_discard_line_total fuel st1 s2 ltac:(lia))
        as (st' & s' & Hd & Hl).
      exists st', s'. split; [exact Hd|]. split; [exact Hl|].
      eapply ini_discard_line_lineno; eauto.
    - do 2 eexists; split; eauto. }
  destruct Hd as (st2 & s3 & -> & Hle3 & Hl2).
  assert (Hl3 : lineno (ini_parse_line cfg handler st2 line)
                = (lineno st + 1)%Z).
  { rewrite (proj1 (ini_parse_line_lineno cfg handler st2 line)), Hl2.
    reflexivity. }
  destruct (_ && _).
  - eexists. split; [reflexivity|]. cbn [final]. lia.
  - destruct (IH (ini_parse_line cfg handler st2 line) s3 ltac:(lia))
      as (o & Ho & Hb).
    exists o. split; [exact Ho|]. lia.
Qed.

Lemma ini_parse_string_length_lineno string len (u : U) :
  exists o,
    ini_parse_string_length cfg alloc handler string len u = Some o /\
    (0 <= lineno (final o) <= Z.of_nat len)%Z.
Proof.
  unfold ini_parse_string_length, ini_parse_stream.
  destruct (_ && _).
  - eexists. split; [reflexivity|]. cbn [final lineno initial_state]. lia.
  - destruct (ini_parse_loop_string_lineno (S len) (initial_state cfg u)
                (firstn len string)) as (o & Ho & Hb).
    { rewrite length_firstn. lia. }
    exists o. split; [exact Ho|].
    rewrite length_firstn in Hb. cbn [lineno initial_state] in Hb. lia.
Qed.

End Count.

(** X5.  The value [ini_parse_stream] returns is -2 or, when the parse has
    read at most [INT_MAX] lines, lies between 0 and the number of lines
    read.  It is -2 only with the line buffer on the heap, when [malloc]
    failed, or [realloc] did where it is allowed; when [malloc] fails
    nothing is read and the handler is not called.  On a string the parse
    always returns, and it counts no more lines than the string has
    characters. *)
Theorem ini_parse_stream_result {U} cfg alloc (handler : ini_handler U) :
  (forall Stream (reader : nat -> Stream -> option (list ascii * Stream))
          fuel stream u o,
      ini_parse_stream cfg alloc reader handler fuel stream u = Some o ->
      (lineno (final o) <= INT_MAX)%Z ->
      (0 <= ret o <= lineno (final o))%Z \/
      (ret o = (-2)%Z /\ INI_USE_STACK cfg = false /\
       (ini_malloc alloc (INI_INITIAL_ALLOC cfg) = false \/
        (INI_ALLOW_REALLOC cfg = true /\
         exists n, ini_realloc alloc n = false)))) /\
  (forall Stream (reader : nat -> Stream -> option (list ascii * Stream))
          fuel stream u,
      INI_USE_STACK cfg = false ->
      ini_malloc alloc (INI_INITIAL_ALLOC cfg) = false ->
      ini_parse_stream cfg alloc reader handler fuel stream u =
      Some (mkOutcome (-2) (initial_state cfg u) stream)) /\
  (forall string len u,
      (Z.of_nat len <= INT_MAX)%Z ->
      exists o,
        ini_parse_string_length cfg alloc handler string len u = Some o /\
        (lineno (final o) <= Z.of_nat len)%Z /\
        ((0 <= ret o <= lineno (final o))%Z \/ ret o = (-2)%Z)).
Proof.
  split; [|split].
  - intros Stream reader fuel stream u o H _.
    apply ini_parse_stream_first_error_inv in H as [Hinv [E|E]].
    + left. rewrite E. apply first_error_inv_range; exact Hinv.
    + right. exact E.
  - intros Stream reader fuel stream u Hs Hm.
    unfold ini_parse_stream. rewrite Hs, Hm. reflexivity.
  - intros string len u _.
    destruct (ini_parse_string_length_lineno cfg alloc handler string len u)
      as (o & Ho & Hl).
    exists o. split; [exact Ho|]. split; [lia|].
    apply ini_parse_stream_first_error_inv in Ho as [Hinv [E|E]].
    + left. rewrite E. apply first_error_inv_range; exact Hinv.
    + right. tauto.
Qed.

(** [ini_parse_string] as a call of [ini_parse_stream], and its totality. *)
Lemma ini_parse_string_stream {U} cfg alloc (handler : ini_handler U)
    string u :
  ini_parse_string cfg alloc handler string u =
  ini_parse_stream cfg alloc ini_reader_string handler (S (strlen string))
    (firstn (strlen string) string) u.
Proof. reflexivity. Qed.

Lemma ini_parse_string_total {U} cfg alloc (handler : ini_handler U)
    string u :
  exists o, ini_parse_string cfg alloc handler string u = Some o.
Proof.
  apply (ini_parse_string_length_total cfg alloc handler string
           (strlen string) u).
Qed.

(** ** The order of the calls *)

Lemma StronglySorted_snoc (l : list Z) x :
  StronglySorted Z.lt l -> Forall (fun y => (y < x)%Z) l ->
  StronglySorted Z.lt (l ++ [x]).
Proof.
  induction 1 as [|a l Hs IH Ha]; intros Hx; simpl.
  - repeat constructor.
  - inversion Hx as [|? ? Hax Hlx]; subst. constructor.
    + apply IH. exact Hlx.
    + apply Forall_app; split; [exact Ha|].
      constructor; [exact Hax|constructor].
Qed.

Lemma ini_parse_stream_calls_sorted {U Stream} cfg alloc
    (reader : nat -> Stream -> option (list ascii * Stream))
    (handler : ini_handler U) fuel stream u o :
  ini_parse_stream cfg alloc reader handler fuel stream u = Some o ->
  StronglySorted Z.lt (map c_lineno (calls (final o))) /\
  Forall (fun c => (1 <= c_lineno c <= lineno (final o))%Z)
         (calls (final o)).
Proof.
  intros H.
  apply (ini_parse_stream_rule cfg alloc reader handler
    (fun st => (0 <= lineno st)%Z /\
               StronglySorted Z.lt (map c_lineno (calls st)) /\
               Forall (fun c => (1 <= c_lineno c <= lineno st)%Z) (calls st))
    (fun st => (1 <= lineno st)%Z /\
               StronglySorted Z.lt (map c_lineno (calls st)) /\
               Forall (fun c => (1 <= c_lineno c < lineno st)%Z) (calls st))
    (fun st => (0 <= lineno st)%Z /\
               StronglySorted Z.lt (map c_lineno (calls st)) /\
               Forall (fun c => (1 <= c_lineno c <= lineno st)%Z) (calls st)))
    in H.
  - destruct H as [[H|H] _]; tauto.
  - intros st size (H0 & Hs & Hf). simpl. split; [lia|]. split; [exact Hs|].
    eapply Forall_impl; [|exact Hf]. simpl; intros; lia.
  - intros st Hd. exact Hd.
  - intros st line (H1 & Hs & Hf).
    destruct (ini_parse_line_lineno cfg handler st line) as [El _].
    destruct (ini_parse_line_calls cfg handler st line) as [Hc _].
    cbv zeta in Hc. rewrite El.
    destruct Hc as [-> | (n & v & r & ->)].
    + split; [lia|]. split; [exact Hs|].
      eapply Forall_impl; [|exact Hf]. simpl; intros; lia.
    + split; [lia|]. split.
      * rewrite map_app. simpl. apply StronglySorted_snoc; [exact Hs|].
        rewrite Forall_map. eapply Forall_impl; [|exact Hf].
        simpl; intros; lia.
      * apply Forall_app. split.
        { eapply Forall_impl; [|exact Hf]. simpl; intros; lia. }
        constructor; [simpl; lia|constructor].
  - auto.
  - simpl. split; [lia|]. split; constructor.
Qed.

(** X6.  The handler is called at most once for a line, in the order of
    the lines: in a parse of at most [INT_MAX] lines the line numbers of
    its calls increase strictly, from 1 at least to the number of the last
    line read at most. *)
Theorem calls_follow_the_lines {U Stream} cfg alloc
    (reader : nat -> Stream -> option (list ascii * Stream))
    (handler : ini_handler U) fuel stream u o :
  ini_parse_stream cfg alloc reader handler fuel stream u = Some o ->
  (lineno (final o) <= INT_MAX)%Z ->
  StronglySorted Z.lt (map c_lineno (calls (final o))) /\
  Forall (fun c => (1 <= c_lineno c <= lineno (final o))%Z)
         (calls (final o)).
Proof. intros H _. revert H. apply ini_parse_stream_calls_sorted. Qed.

Lemma calls_follow_the_lines_witness :
  exists o,
    ini_parse_string default_config always_allocates accept_all
      counted_input tt = Some o /\
    (lineno (final o) <= INT_MAX)%Z /\
    StronglySorted Z.lt (map c_lineno (calls (final o))) /\
    map c_lineno (calls (final o)) = [2%Z; 3%Z].
Proof.
  destruct (ini_parse_string_total default_config always_allocates
              accept_all counted_input tt) as [o E].
  assert (Hl : lineno (final o) = 3%Z).
  { vm_compute in E. injection E as <-. reflexivity. }
  assert (Hb : (lineno (final o) <= INT_MAX)%Z).
  { rewrite Hl. intros H; discriminate H. }
  exists o. split; [exact E|]. split; [exact Hb|]. split.
  - pose proof E as E'. rewrite ini_parse_string_stream in E'.
    exact (proj1 (calls_follow_the_lines _ _ _ _ _ _ _ _ E' Hb)).
  - vm_compute in E. injection E as <-. reflexivity.
Defined.

(** ** Stop on first error *)

Section Stop.

Context {U : Type}.
Variable cfg : config.
Variable handler : ini_handler U.


Lemma ini_parse_lines_lineno (st : state U) lines :
  lineno (ini_parse_lines cfg handler st lines)
  = (lineno st + Z.of_nat (length lines))%Z.
Proof.
  revert st; induction lines as [|pl lines IH]; intros st.
  - simpl. lia.
  - rewrite ini_parse_lines_cons, IH.
    destruct (line_step_calls cfg handler st pl) as (-> & _).
    cbn [length]. lia.
Qed.

End Stop.




(** ** Inputs without content *)

Section NoContent.

Context {U : Type}.
Variable cfg : config.
Variable handler : ini_handler U.

Lemma line_step_fits_comment (st : state U) pl :
  length pl < max_line st ->
  comment_or_blank cfg (lineno st + 1) pl = true ->
  line_step cfg handler st pl = set_lineno st (lineno st + 1).
Proof.
  intros Hfit Hc. unfold line_step. cbv zeta.
  replace (length pl - (max_line st - 1)) with 0 by lia.
  cbn [abyss_reads Nat.add Nat.div Nat.divmod fst Nat.iter nat_rect].
  rewrite firstn_all2 by lia.
  apply ini_parse_line_comment. exact Hc.
Qed.

Lemma ini_parse_lines_no_content (st : state U) lines j :
  content_lines cfg (max_line st) (lineno st + 1) lines = 0 ->
  let st' := ini_parse_lines cfg handler st (firstn j lines) in
  (max_line st' = max_line st /\ section st' = section st /\
   prev_name st' = prev_name st /\ user st' = user st /\
   calls st' = calls st) /\
  (Forall (fun pl => length pl < max_line st) lines ->
   error st' = error st /\ flagged st' = flagged st).
Proof.
  cbv zeta. revert st j; induction lines as [|pl lines IH]; intros st j Hn.
  { rewrite firstn_nil. simpl. repeat split; auto. }
  destruct j as [|j]; [simpl; repeat split; auto|].
  cbn [firstn]. rewrite ini_parse_lines_cons.
  cbn [content_lines] in Hn.
  destruct (comment_or_blank cfg (lineno st + 1)
              (firstn (max_line st - 1) pl)) eqn:Hc; [|discriminate].
  destruct (line_step_comment cfg handler st pl Hc)
    as (Hm & Hs & Hp & Hl & Hu & Hcl).
  specialize (IH (line_step cfg handler st pl) j).
  rewrite Hm, Hl in IH. specialize (IH Hn).
  destruct IH as [(E1 & E2 & E3 & E4 & E5) IH].
  split.
  - rewrite E1, E2, E3, E4, E5. auto.
  - intros Hfit. inversion Hfit as [|? ? Hpl Hrest]; subst.
    destruct (IH Hrest) as [-> ->].
    rewrite firstn_all2 in Hc by lia.
    rewrite (line_step_fits_comment st pl Hpl Hc). auto.
Qed.

End NoContent.

(** X8.  A string of blank lines and comments only is parsed without a
    call of the handler, and the user state and the section stay as they
    were; when each of its lines fits the line buffer the parse returns 0
    and has read the whole string. *)
Theorem comments_only {U} cfg alloc (handler : ini_handler U) string u :
  fixed_line_buffer cfg alloc ->
  content_lines cfg (buffer_size cfg) 1 (physical_lines (c_str string)) = 0 ->
  exists o,
    ini_parse_string cfg alloc handler string u = Some o /\
    calls (final o) = [] /\ user (final o) = u /\ section (final o) = [] /\
    (Forall (fun pl => length pl < buffer_size cfg)
            (physical_lines (c_str string)) ->
     ret o = 0%Z /\ rest o = []).
Proof.
  intros Hbuf Hn.
  destruct (ini_parse_string_lines cfg alloc handler string u Hbuf)
    as (j & Hj & Hrun & _ & Herr).
  cbv zeta in *.
  pose proof (ini_parse_lines_no_content cfg handler (initial_state cfg u)
                (physical_lines (c_str string)) j) as H.
  cbn [max_line lineno initial_state] in H.
  fold (buffer_size cfg) in H. specialize (H Hn). cbv zeta in H.
  destruct H as [(_ & Hs & _ & Hu & Hc) Hfit].
  eexists. split; [exact Hrun|]. cbn [final ret rest].
  split; [exact Hc|]. split; [exact Hu|]. split; [exact Hs|].
  intros Hall. destruct (Hfit Hall) as [He _].
  cbn [error initial_state] in He.
  split; [exact He|].
  destruct (Nat.eq_dec j (length (physical_lines (c_str string)))) as [E|E].
  - rewrite E, skipn_all. reflexivity.
  - exfalso. apply Herr; [lia|exact He].
Qed.

Lemma comments_only_witness :
  fixed_line_buffer default_config always_allocates /\
  content_lines default_config 200 1 (physical_lines only_comments) = 0 /\
  exists o,
    ini_parse_string default_config always_allocates accept_all
      only_comments tt = Some o /\
    calls (final o) = [] /\ ret o = 0%Z /\ lineno (final o) = 3%Z.
Proof.
  split; [apply default_fixed_line_buffer|]. split; [reflexivity|].
  destruct (comments_only default_config always_allocates accept_all
              only_comments tt default_fixed_line_buffer eq_refl)
    as (o & Ho & Hc & _ & _ & Hret).
  exists o. split; [exact Ho|]. split; [exact Hc|].
  pose proof Ho as E. vm_compute in E. injection E as <-.
  split; reflexivity.
Defined.

(** ** What the handler is given *)

Lemma ini_lskip_head s : isspace (deref (ini_lskip s)) = false.
Proof.
  unfold ini_lskip.
  destruct (drop_while_split isspace s) as (ws & _ & _ & H).
  destruct (drop_while isspace s); [reflexivity|exact H].
Qed.

Lemma ini_rstrip_head s :
  isspace (deref s) = false -> isspace (deref (ini_rstrip s)) = false.
Proof.
  destruct s as [|c s]; [reflexivity|]. simpl. intros H.
  rewrite ini_rstrip_nonspace by exact H. exact H.
Qed.

Lemma prefix_head (a b : list ascii) :
  isspace (deref (a ++ b)) = false -> isspace (deref a) = false.
Proof. destruct a; [reflexivity|exact (fun H => H)]. Qed.

Lemma last_char_suffix (a b : list ascii) :
  b <> [] -> last_char (a ++ b) = last_char b.
Proof.
  unfold last_char. intros Hb. induction a as [|c a IH]; [reflexivity|].
  simpl. destruct (a ++ b) eqn:E; [|exact IH].
  apply app_eq_nil in E. tauto.
Qed.

Lemma in_firstn (x : ascii) n l : In x (firstn n l) -> In x l.
Proof.
  intros H. rewrite <- (firstn_skipn n l). apply in_or_app. left; exact H.
Qed.

Lemma stripped_trimmed cfg n line : trimmed (stripped cfg n line).
Proof.
  unfold stripped. split.
  - apply ini_rstrip_head, ini_lskip_head.
  - apply ini_rstrip_last.
Qed.

Lemma clean_name_cut name :
  isspace (deref name) = false -> isspace (last_char name) = false ->
  ~ In "=" name -> ~ In ":" name ->
  clean_name name /\ clean_name (ini_strncpy0 name MAX_NAME).
Proof.
  intros Hh Hl He Hc. split; [repeat split; auto|].
  unfold ini_strncpy0, MAX_NAME. cbn [Nat.sub].
  split; [|split; [|split]].
  - destruct name; [reflexivity|exact Hh].
  - intros F; apply He; eapply in_firstn; eauto.
  - intros F; apply Hc; eapply in_firstn; eauto.
  - rewrite length_firstn.
    destruct (Nat.le_gt_cases (length name) 49) as [Hlen|Hlen].
    + left. rewrite firstn_all2 by lia. exact Hl.
    + right. lia.
Qed.

Section Clean.

Context {U : Type}.
Variable cfg : config.
Variable handler : ini_handler U.

Lemma clean_state_call (st : state U) n v :
  clean_state st ->
  (forall x, n = Some x -> clean_name x) ->
  (forall x, v = Some x -> trimmed x) ->
  clean_state (handler_or_error cfg handler st (section st) n v).
Proof.
  intros (Hs & Hp & Hc) Hn Hv.
  pose proof (handler_or_error_fields cfg handler st (section st) n v) as H.
  cbv zeta in H. destruct H as (_ & Es & Ep & _ & _ & Ec & _).
  unfold clean_state. rewrite Es, Ep, Ec.
  split; [exact Hs|]. split; [exact Hp|].
  apply Forall_app. split; [exact Hc|].
  constructor; [|constructor]. split; [exact Hs|]. split; assumption.
Qed.

Lemma find_before_clean start chars :
  isspace (deref start) = false ->
  let before := fst (find_chars_or_comment cfg start (Some chars)) in
  isspace (deref (ini_rstrip before)) = false /\
  isspace (last_char (ini_rstrip before)) = false /\
  (forall x, In x chars -> ~ In x (ini_rstrip before)).
Proof.
  intros Hh. cbv zeta.
  unfold find_chars_or_comment, ini_find_chars_or_comment.
  pose proof (find_loop_app (INI_ALLOW_INLINE_COMMENTS cfg)
                (INI_INLINE_COMMENT_PREFIXES cfg) (Some chars) false start)
    as Happ.
  pose proof (find_loop_stop cfg (Some chars) false start) as H.
  cbv zeta in H.
  destruct (find_loop _ _ (Some chars) false start) as [before found].
  cbn [fst snd] in *. destruct H as (_ & H2 & _).
  split; [|split].
  - apply ini_rstrip_head. rewrite <- Happ in Hh.
    eapply prefix_head; eauto.
  - apply ini_rstrip_last.
  - intros x Hx F. apply ini_rstrip_incl in F.
    specialize (H2 chars eq_refl). rewrite forallb_forall in H2.
    specialize (H2 x F). apply negb_true_iff in H2.
    unfold strchr in H2. apply orb_false_iff in H2 as [_ H2].
    assert (existsb (Ascii.eqb x) chars = true).
    { apply existsb_exists. exists x. split; auto. apply Ascii.eqb_refl. }
    congruence.
Qed.

Lemma value_of_trimmed start a f t :
  trimmed start -> start = a ++ f :: t -> trimmed (value_of cfg t).
Proof.
  intros [Hh Hl] E. unfold value_of.
  destruct (INI_ALLOW_INLINE_COMMENTS cfg).
  - split; [apply ini_rstrip_head, ini_lskip_head|apply ini_rstrip_last].
  - split; [apply ini_lskip_head|].
    destruct (drop_while_split isspace t) as (ws & Ht & _ & _).
    fold (ini_lskip t) in Ht.
    destruct (ini_lskip t) as [|c r] eqn:El; [reflexivity|].
    rewrite <- Hl, E.
    replace (a ++ f :: t) with ((a ++ f :: ws) ++ c :: r).
    + rewrite last_char_suffix by discriminate. reflexivity.
    + rewrite <- app_assoc. simpl. rewrite <- Ht. reflexivity.
Qed.

Lemma ini_parse_line_clean (st : state U) line :
  clean_state st -> clean_state (ini_parse_line cfg handler st line).
Proof.
  intros H. pose proof H as (Hs & Hp & Hc).
  pose proof (stripped_trimmed cfg (lineno st) line) as [Hh Hl].
  rewrite ini_parse_line_eq. cbv zeta.
  destruct (comment_or_blank _ _ _); [exact H|].
  destruct (continues _ _ _).
  { apply clean_state_call; [exact H| |].
    - intros x E; injection E as <-; exact Hp.
    - intros x E; injection E as <-.
      destruct (INI_ALLOW_INLINE_COMMENTS cfg); [|split; assumption].
      split; [|apply ini_rstrip_last].
      apply ini_rstrip_head.
      unfold find_chars_or_comment, ini_find_chars_or_comment.
      pose proof (find_loop_app (INI_ALLOW_INLINE_COMMENTS cfg)
                    (INI_INLINE_COMMENT_PREFIXES cfg) None false
                    (stripped cfg (lineno st) line)) as Happ.
      rewrite <- Happ in Hh. eapply prefix_head; eauto. }
  destruct (Ascii.eqb _ "[").
  { pose proof (find_loop_stop cfg (Some (cs "]")) false
                  (tl (stripped cfg (lineno st) line))) as Hstop.
    cbv zeta in Hstop.
    unfold find_chars_or_comment, ini_find_chars_or_comment.
    destruct (find_loop _ _ (Some (cs "]")) false _) as [inside found].
    cbn [fst snd] in Hstop. destruct Hstop as (_ & H2 & _).
    destruct (Ascii.eqb (deref found) "]"); [|exact H].
    assert (Hin : ~ In "]" (ini_strncpy0 inside MAX_SECTION)).
    { intros F. apply in_firstn in F.
      specialize (H2 _ eq_refl). rewrite forallb_forall in H2.
      specialize (H2 _ F). vm_compute in H2. discriminate. }
    assert (H3 : clean_state
      (if INI_ALLOW_MULTILINE cfg
       then set_prev_name (set_section st (ini_strncpy0 inside MAX_SECTION)) []
       else set_section st (ini_strncpy0 inside MAX_SECTION))).
    { destruct (INI_ALLOW_MULTILINE cfg); split; simpl; auto.
      split; [|exact Hc]. repeat split; auto. }
    destruct (INI_CALL_HANDLER_ON_NEW_SECTION cfg); [|exact H3].
    apply clean_state_call; [exact H3| |]; intros x E; discriminate E. }
  destruct (nonempty _); [|exact H].
  pose proof (find_before_clean (stripped cfg (lineno st) line) (cs "=:")
                Hh) as Hb.
  cbv zeta in Hb.
  pose proof (find_loop_app (INI_ALLOW_INLINE_COMMENTS cfg)
                (INI_INLINE_COMMENT_PREFIXES cfg) (Some (cs "=:")) false
                (stripped cfg (lineno st) line)) as Happ.
  fold (ini_find_chars_or_comment (INI_ALLOW_INLINE_COMMENTS cfg)
          (INI_INLINE_COMMENT_PREFIXES cfg)
          (stripped cfg (lineno st) line) (Some (cs "=:"))) in Happ.
  fold (find_chars_or_comment cfg (stripped cfg (lineno st) line)
          (Some (cs "=:"))) in Happ.
  destruct (find_chars_or_comment cfg _ _) as [before found].
  cbn [fst snd] in Hb, Happ. destruct Hb as (Hb1 & Hb2 & Hb3).
  destruct (clean_name_cut (ini_rstrip before) Hb1 Hb2
              (Hb3 "=" ltac:(simpl; auto)) (Hb3 ":" ltac:(simpl; auto)))
    as [Hn Hcut].
  destruct (_ || _).
  - assert (H3 : clean_state
      (if INI_ALLOW_MULTILINE cfg
       then set_prev_name st (ini_strncpy0 (ini_rstrip before) MAX_NAME)
       else st)).
    { destruct (INI_ALLOW_MULTILINE cfg); [|exact H].
      split; [exact Hs|]. split; [exact Hcut|exact Hc]. }
    apply clean_state_call; [exact H3| |].
    + intros x E; injection E as <-; exact Hn.
    + intros x E; injection E as <-.
      destruct found as [|f t].
      * simpl. unfold value_of.
        destruct (INI_ALLOW_INLINE_COMMENTS cfg); split; reflexivity.
      * apply (value_of_trimmed (stripped cfg (lineno st) line) before f t);
          [split; assumption|symmetry; exact Happ].
  - destruct (INI_ALLOW_NO_VALUE cfg); [|exact H].
    apply clean_state_call; [exact H| |].
    + intros x E; injection E as <-; exact Hn.
    + intros x E; discriminate E.
Qed.

End Clean.

Lemma ini_parse_stream_clean {U Stream} cfg alloc
    (reader : nat -> Stream -> option (list ascii * Stream))
    (handler : ini_handler U) fuel stream u o :
  ini_parse_stream cfg alloc reader handler fuel stream u = Some o ->
  clean_state (final o).
Proof.
  intros H.
  apply (ini_parse_stream_rule cfg alloc reader handler
           clean_state clean_state clean_state) in H.
  - destruct H as [[H|H] _]; exact H.
  - intros st size Hc. exact Hc.
  - intros st Hc. exact Hc.
  - intros st line Hc. apply ini_parse_line_clean; exact Hc.
  - auto.
  - split; [simpl; tauto|]. split; [|constructor].
    repeat split; simpl; auto.
Qed.

(** X9.  What the handler is given is clean: a section has no closing
    bracket in it; a name does not start with whitespace, holds neither
    "=" nor ":" and does not end with whitespace unless it has exactly 49
    characters, the length to which a remembered name is cut; a value
    neither starts nor ends with whitespace. *)
Theorem handler_arguments_are_clean {U Stream} cfg alloc
    (reader : nat -> Stream -> option (list ascii * Stream))
    (handler : ini_handler U) fuel stream u o :
  ini_parse_stream cfg alloc reader handler fuel stream u = Some o ->
  Forall clean_call (calls (final o)).
Proof.
  intros H. apply ini_parse_stream_clean in H. apply H.
Qed.

Lemma handler_arguments_are_clean_witness :
  exists o,
    ini_parse_string default_config always_allocates accept_all
      padded_line tt = Some o /\
    Forall clean_call (calls (final o)) /\
    map call_args (calls (final o)) =
      [(1%Z, [], Some (cs "key"), Some (cs "some value"))].
Proof.
  destruct (ini_parse_string_total default_config always_allocates
              accept_all padded_line tt) as [o E].
  exists o. split; [exact E|]. split.
  - pose proof E as E'. rewrite ini_parse_string_stream in E'.
    exact (handler_arguments_are_clean _ _ _ _ _ _ _ _ E').
  - vm_compute in E. injection E as <-. reflexivity.
Defined.

(** ** Names without a value, and section headers *)

(** X10.  A line with text but no "=" or ":" is a name without a value.
    When these are allowed the handler is called with the text as the name
    and NULL as the value, and the name is not remembered for continuation
    lines; when they are not, the line is an error, and the handler is not
    called. *)
Theorem name_without_value {U} cfg (handler : ini_handler U) (st : state U)
    line :
  comment_or_blank cfg (lineno st) line = false ->
  continues cfg st line = false ->
  deref (stripped cfg (lineno st) line) <> "[" ->
  plain cfg (cs "=:") (stripped cfg (lineno st) line) ->
  let name := stripped cfg (lineno st) line in
  let r := snd (handler (user st) (section st) (Some name) None
                  (if INI_HANDLER_LINENO cfg then Some (lineno st)
                   else None)) in
  let st' := ini_parse_line cfg handler st line in
  (INI_ALLOW_NO_VALUE cfg = true ->
   prev_name st' = prev_name st /\ section st' = section st /\
   calls st' =
     calls st ++ [mkCall (lineno st) (section st) (Some name) None r] /\
   (r <> 0%Z -> error st' = error st /\ flagged st' = flagged st)) /\
  (INI_ALLOW_NO_VALUE cfg = false ->
   st' = record_error st /\ calls st' = calls st /\ user st' = user st /\
   error st' = (if Z.eqb (error st) 0 then lineno st else error st)).
Proof.
  intros Hc Hn Hb Hp. cbv zeta.
  rewrite (ini_parse_line_no_separator cfg handler st line Hc Hn Hb Hp).
  assert (Hr : ini_rstrip (stripped cfg (lineno st) line)
               = stripped cfg (lineno st) line).
  { rewrite <- (app_nil_r (stripped cfg (lineno st) line)) at 1.
    apply ini_rstrip_unique; [reflexivity|].
    apply stripped_trimmed. }
  split; intros Hv; rewrite Hv.
  - rewrite Hr.
    pose proof (handler_or_error_fields cfg handler st (section st)
                  (Some (stripped cfg (lineno st) line)) None) as H.
    cbv zeta in H.
    destruct H as (_ & Hs & Hpn & _ & _ & Hcalls & He & Hf).
    split; [exact Hpn|]. split; [exact Hs|].
    split; [exact Hcalls|].
    intros Hr0. rewrite He, Hf.
    destruct (Z.eqb_spec (snd (handler (user st) (section st)
                (Some (stripped cfg (lineno st) line)) None
                (if INI_HANDLER_LINENO cfg then Some (lineno st) else None)))
              0); [contradiction|auto].
  - repeat split; reflexivity.
Qed.

Lemma name_without_value_witness :
  calls (ini_parse_line (options false true true true false true) accept_all
           at_line_1 (cs "  verbose  "))
  = [mkCall 1 [] (Some (cs "verbose")) None 1] /\
  error (ini_parse_line default_config accept_all at_line_1
           (cs "  verbose  ")) = 1%Z.
Proof.
  assert (Hp : forall c, plain c (cs "=:") (cs "verbose")).
  { intros c. split; [|reflexivity].
    unfold no_inline_comment, cs. simpl.
    rewrite !andb_false_r. reflexivity. }
  split.
  - destruct (proj1 (name_without_value
        (options false true true true false true) accept_all at_line_1
        (cs "  verbose  ") eq_refl eq_refl ltac:(discriminate) (Hp _))
        eq_refl) as (_ & _ & Hcalls & _).
    exact Hcalls.
  - destruct (proj2 (name_without_value default_config accept_all at_line_1
        (cs "  verbose  ") eq_refl eq_refl ltac:(discriminate) (Hp _))
        eq_refl) as (-> & _).
    reflexivity.
Defined.

Section Header.

Context {U : Type}.
Variable cfg : config.
Variable handler : ini_handler U.

Lemma header_line_stripped n name tail :
  stripped cfg n ("[" :: name ++ "]" :: tail)
  = "[" :: name ++ "]" :: ini_rstrip tail /\
  indented cfg n ("[" :: name ++ "]" :: tail) = false.
Proof.
  destruct (stripped_spaces cfg n [] "[" (name ++ "]" :: tail)
              eq_refl eq_refl ltac:(discriminate)) as [Hs Hi].
  cbn [app] in Hs, Hi. split; [|exact Hi].
  rewrite Hs. rewrite ini_rstrip_app_nonspace by reflexivity. reflexivity.
Qed.

Lemma ini_parse_line_header (st : state U) name tail :
  strchr (INI_START_COMMENT_PREFIXES cfg) "[" = false ->
  plain cfg (cs "]") name ->
  ini_parse_line cfg handler st ("[" :: name ++ "]" :: tail) =
  if INI_CALL_HANDLER_ON_NEW_SECTION cfg
  then handler_or_error cfg handler (enter_section cfg st name)
         (section (enter_section cfg st name)) None None
  else enter_section cfg st name.
Proof.
  intros Hc Hp.
  destruct (header_line_stripped (lineno st) name tail) as [Hs Hi].
  apply (ini_parse_line_section cfg handler st _ name (ini_rstrip tail));
    auto.
  - unfold comment_or_blank. rewrite Hs. exact Hc.
  - apply continues_not_indented. exact Hi.
Qed.

End Header.

(** X11.  In a section header, what follows the closing bracket is
    ignored, with inline comments enabled or not: the line does what the
    header alone does.  A header also forgets the remembered name, so that
    the line after it is never taken as a continuation line. *)
Theorem text_after_header_is_ignored {U} cfg (handler : ini_handler U)
    (st : state U) name tail :
  strchr (INI_START_COMMENT_PREFIXES cfg) "[" = false ->
  plain cfg (cs "]") name ->
  let st' := ini_parse_line cfg handler st ("[" :: name ++ "]" :: tail) in
  st' = ini_parse_line cfg handler st ("[" :: name ++ ["]"]) /\
  section st' = firstn 49 name /\
  (forall next, continues cfg st' next = false).
Proof.
  intros Hc Hp. cbv zeta.
  rewrite !ini_parse_line_header by assumption.
  split; [reflexivity|].
  assert (H : section (enter_section cfg st name) = firstn 49 name /\
              (INI_ALLOW_MULTILINE cfg = true ->
               prev_name (enter_section cfg st name) = [])).
  { unfold enter_section.
    destruct (INI_ALLOW_MULTILINE cfg); split; try reflexivity;
      discriminate. }
  destruct H as [Hs Hn].
  assert (Hcont : forall (s : state U) next,
    (INI_ALLOW_MULTILINE cfg = true -> prev_name s = []) ->
    continues cfg s next = false).
  { intros s next Hs'. unfold continues.
    destruct (INI_ALLOW_MULTILINE cfg); [|reflexivity].
    rewrite Hs' by reflexivity. reflexivity. }
  destruct (INI_CALL_HANDLER_ON_NEW_SECTION cfg).
  - pose proof (handler_or_error_fields cfg handler
                  (enter_section cfg st name)
                  (section (enter_section cfg st name)) None None) as H.
    cbv zeta in H. destruct H as (_ & Es & Ep & _).
    split; [rewrite Es; exact Hs|].
    intros next. apply Hcont. rewrite Ep. exact Hn.
  - split; [exact Hs|]. intros next. apply Hcont. exact Hn.
Qed.

Lemma text_after_header_is_ignored_witness :
  section (ini_parse_line default_config accept_all after_key
             (cs "[sec] trailing text")) = cs "sec" /\
  continues default_config
    (ini_parse_line default_config accept_all after_key
       (cs "[sec] trailing text")) (cs "  more") = false /\
  error (ini_parse_line default_config accept_all after_key
           (cs "[sec] trailing text")) = 0%Z.
Proof.
  assert (Hp : plain default_config (cs "]") (cs "sec")).
  { split; reflexivity. }
  pose proof (text_after_header_is_ignored default_config accept_all
                after_key (cs "sec") (cs " trailing text") eq_refl Hp) as H.
  cbv zeta in H. destruct H as (He & Hs & Hn).
  split; [exact Hs|]. split; [apply Hn|].
  change (cs "[sec] trailing text")
    with ("["%char :: cs "sec" ++ "]"%char :: cs " trailing text").
  rewrite He. reflexivity.
Defined.

(** ** Parsing a file *)

(** X12.  [ini_parse] returns -1 when the file cannot be opened, and then
    nothing is parsed; else it returns what [ini_parse_file] returns for
    the file, which for a parse of at most [INT_MAX] lines is never -1: it
    is -2, with the line buffer on the heap only, or it is 0 or a line
    number.  For such parses -1 is returned exactly when the file cannot be
    opened. *)
Theorem ini_parse_result {U FILE} cfg alloc
    (fgets : nat -> FILE -> option (list ascii * FILE))
    (fopen : list ascii -> option FILE) (handler : ini_handler U)
    fuel filename u r obs :
  ini_parse cfg alloc fgets fopen handler fuel filename u = Some (r, obs) ->
  (forall o, obs = Some o -> (lineno (final o) <= INT_MAX)%Z) ->
  (r = (-1)%Z <-> fopen filename = None) /\
  (fopen filename = None -> obs = None) /\
  (forall file,
      fopen filename = Some file ->
      exists o,
        ini_parse_file cfg alloc fgets handler fuel file u = Some o /\
        obs = Some o /\ r = ret o /\
        ((0 <= r <= lineno (final o))%Z \/
         (r = (-2)%Z /\ INI_USE_STACK cfg = false))).
Proof.
  unfold ini_parse. destruct (fopen filename) as [file|].
  - destruct (ini_parse_file cfg alloc fgets handler fuel file u)
      as [o|] eqn:E; [|discriminate].
    intros H _. injection H as <- <-.
    unfold ini_parse_file in E.
    pose proof (ini_parse_stream_first_error_inv cfg alloc fgets handler
                  fuel file u o E) as [Hinv Hret].
    pose proof (first_error_inv_range _ Hinv) as Hrange.
    assert (Hr : (0 <= ret o <= lineno (final o))%Z \/
                 (ret o = (-2)%Z /\ INI_USE_STACK cfg = false)).
    { destruct Hret as [->|(H2 & Hs & _)]; auto. }
    split; [|split].
    + split; [|discriminate]. intros F. exfalso. lia.
    + discriminate.
    + intros file' Hf. injection Hf as <-.
      exists o. repeat split; auto.
  - intros H _. injection H as <- <-.
    split; [tauto|]. split; [reflexivity|]. discriminate.
Qed.

Lemma ini_parse_result_witness :
  ini_parse default_config always_allocates ini_reader_string one_file
    accept_all 100 (cs "b.ini") tt = Some ((-1)%Z, None) /\
  exists o,
    ini_parse default_config always_allocates ini_reader_string one_file
      accept_all 100 (cs "a.ini") tt = Some (1%Z, Some o) /\
    (lineno (final o) <= INT_MAX)%Z /\
    (1%Z = (-1)%Z <-> one_file (cs "a.ini") = None).
Proof.
  split; [reflexivity|].
  destruct (ini_parse default_config always_allocates ini_reader_string
              one_file accept_all 100 (cs "a.ini") tt)
    as [[r [o|]]|] eqn:E; try (vm_compute in E; discriminate E).
  assert (Hr : r = 1%Z /\ lineno (final o) = 3%Z).
  { vm_compute in E. injection E as <- <-. split; reflexivity. }
  destruct Hr as [-> Hl].
  assert (Hb : (lineno (final o) <= INT_MAX)%Z).
  { rewrite Hl. intros H; discriminate H. }
  exists o. split; [reflexivity|]. split; [exact Hb|].
  refine (proj1 (ini_parse_result default_config always_allocates
                   ini_reader_string one_file accept_all 100 (cs "a.ini")
                   tt 1%Z (Some o) E _)).
  intros o' Ho'. injection Ho' as <-. exact Hb.
Defined.

(** ** Lines that fit the growing buffer *)

Lemma buffer_full_no_newline size (pl : list ascii) :
  buffer_full size pl = true -> last_char pl <> NL.
Proof.
  unfold buffer_full. intros H. apply andb_true_iff in H as [_ H].
  destruct (Ascii.eqb_spec (last_char pl) NL); [discriminate|assumption].
Qed.

Section Fits.

Variable cfg : config.
Variable alloc : allocator.
Hypothesis Hrealloc : forall n, ini_realloc alloc n = true.

(** On a physical line of fewer than [INI_MAX_LINE] characters the growing
    loop ends with the whole line in the buffer. *)
Lemma ini_grow_line_fits fuel size c s :
  2 <= size <= INI_MAX_LINE cfg ->
  c_str (c :: s) = c :: s ->
  length (fst (first_line (c :: s))) < INI_MAX_LINE cfg ->
  length (fst (first_line (c :: s))) - (size - 1) < fuel ->
  let pl := fst (first_line (c :: s)) in
  let rs := snd (first_line (c :: s)) in
  exists size',
    size <= size' <= INI_MAX_LINE cfg /\
    ini_grow_line cfg alloc ini_reader_string fuel size
      (firstn (size - 1) pl) (skipn (size - 1) pl ++ rs)
    = Some (Grown size' pl rs).
Proof.
  intros Hsize Hs Hshort Hfuel pl rs.
  pose proof (first_line_app (c :: s)) as Happ. fold pl rs in Happ.
  pose proof (first_line_nonempty c s) as Hne. fold pl in Hne.
  assert (Hpl : c_str pl = pl).
  { rewrite <- Happ in Hs. apply c_str_app_inv in Hs; tauto. }
  fold pl in Hshort, Hfuel.
  assert (Hlen : 1 <= length pl) by (destruct pl; simpl; [congruence|lia]).
  revert size Hsize Hfuel; induction fuel as [|fuel IH];
    intros size Hsize Hfuel; [lia|].
  cbn [ini_grow_line].
  destruct (buffer_full size (firstn (size - 1) pl)) eqn:Hfull.
  2:{ (* the line is in the buffer *)
      exists size. split; [lia|].
      destruct (Nat.le_gt_cases (length pl) (size - 1)) as [Hle|Hgt].
      - rewrite firstn_all2, skipn_all2 by lia. reflexivity.
      - pose proof (buffer_full_first_line (c :: s) size ltac:(lia)
                      ltac:(fold pl; lia)) as F.
        fold pl in F. congruence. }
  rewrite Hrealloc. cbn [negb].
  assert (Hfl : length (firstn (size - 1) pl) = size - 1).
  { unfold buffer_full in Hfull. apply andb_true_iff in Hfull as [Hfull _].
    apply Nat.eqb_eq in Hfull. lia. }
  rewrite Hfl. rewrite length_firstn in Hfl.
  destruct (Nat.eq_dec (length pl) (size - 1)) as [Heq|Hneq].
  { (* the input ends with this line *)
    rewrite firstn_all2 in Hfull |- * by lia.
    rewrite skipn_all2 by lia.
    assert (Hrs : rs = []).
    { apply first_line_no_newline. fold pl.
      eapply buffer_full_no_newline; eauto. }
    rewrite Hrs. cbn [app]. unfold ini_reader_string at 1.
    cbn [length Nat.eqb orb].
    eexists. split; [|reflexivity].
    destruct (Nat.ltb_spec (INI_MAX_LINE cfg) (size * 2)); lia. }
  assert (Hgt : size - 1 < length pl) by lia.
  destruct (first_line_skipn (c :: s) (size - 1) ltac:(fold pl; lia))
    as [Hsk1 _].
  fold pl rs in Hsk1.
  assert (Hsk : skipn (size - 1) pl ++ rs = skipn (size - 1) (c :: s)).
  { rewrite <- Happ, skipn_app.
    replace (size - 1 - length pl) with 0 by lia. reflexivity. }
  rewrite Hsk.
  destruct (skipn (size - 1) (c :: s)) as [|d t] eqn:Hd.
  { apply (f_equal (@length _)) in Hsk.
    rewrite length_app, length_skipn in Hsk. simpl in Hsk. lia. }
  destruct (Nat.ltb_spec (INI_MAX_LINE cfg) (size * 2)) as [Hcap|Hcap].
  - rewrite ini_reader_string_first_line by lia.
    rewrite Hsk1. cbn [fst snd]. rewrite Nat.leb_refl.
    rewrite c_str_firstn by (apply c_str_skipn; exact Hpl).
    rewrite firstn_add_skipn, skipn_skipn.
    rewrite firstn_all2, skipn_all2 by lia.
    exists (INI_MAX_LINE cfg). split; [lia|reflexivity].
  - rewrite ini_reader_string_first_line by lia.
    rewrite Hsk1. cbn [fst snd].
    rewrite c_str_firstn by (apply c_str_skipn; exact Hpl).
    rewrite firstn_add_skipn, skipn_skipn.
    replace (size - 1 + (size * 2 - (size - 1) - 1))
      with (size * 2 - 1) by lia.
    replace (size * 2 - (size - 1) - 1 + (size - 1))
      with (size * 2 - 1) by lia.
    destruct (Nat.leb_spec (INI_MAX_LINE cfg) (size * 2)) as [Hle|Hlt].
    + rewrite firstn_all2, skipn_all2 by lia.
      exists (size * 2). split; [lia|reflexivity].
    + destruct (IH (size * 2) ltac:(lia) ltac:(lia)) as (size' & Hs' & ->).
      exists size'. split; [lia|reflexivity].
Qed.

End Fits.

(** X13.  With the line buffer on the heap and [realloc] allowed, a line
    of fewer than [INI_MAX_LINE] characters is never cut and never
    reported as too long, whatever the size the buffer starts with: the
    buffer grows, to [INI_MAX_LINE] bytes at most, until it holds the
    line, and the whole line is parsed. *)
Theorem short_line_is_read_whole {U} cfg alloc (handler : ini_handler U)
    fuel (st : state U) s :
  INI_ALLOW_REALLOC cfg = true ->
  INI_USE_STACK cfg = false ->
  (forall n, ini_realloc alloc n = true) ->
  2 <= max_line st <= INI_MAX_LINE cfg ->
  c_str s = s -> s <> [] -> length s < fuel ->
  length (fst (first_line s)) < INI_MAX_LINE cfg ->
  exists size,
    max_line st <= size <= INI_MAX_LINE cfg /\
    let st1 := set_lineno (set_max_line st size) (lineno st + 1) in
    let st2 := ini_parse_line cfg handler st1 (fst (first_line s)) in
    ini_parse_loop cfg alloc ini_reader_string handler fuel st s =
    if INI_STOP_ON_FIRST_ERROR cfg && negb (Z.eqb (error st2) 0)
    then Some (mkOutcome (error st2) st2 (snd (first_line s)))
    else ini_parse_loop cfg alloc ini_reader_string handler (fuel - 1) st2
                        (snd (first_line s)).
Proof.
  intros Hre Hstack Hrealloc Hsize Hs Hne Hlen Hshort.
  destruct fuel as [|fuel]; [lia|].
  destruct s as [|c s]; [congruence|].
  pose proof (first_line_app (c :: s)) as Happ.
  assert (Hpl : c_str (fst (first_line (c :: s)))
                = fst (first_line (c :: s))).
  { rewrite <- Happ in Hs. apply c_str_app_inv in Hs; tauto. }
  assert (Hls : length (fst (first_line (c :: s))) <= length (c :: s)).
  { apply (f_equal (@length _)) in Happ.
    rewrite length_app in Happ. lia. }
  destruct (ini_grow_line_fits cfg alloc Hrealloc fuel (max_line st) c s
              Hsize Hs Hshort ltac:(cbn [length] in *; lia))
    as (size & Hsz & Hg).
  cbv zeta in Hg.
  exists size. split; [exact Hsz|]. cbv zeta.
  replace (S fuel - 1) with fuel by lia.
  cbn [ini_parse_loop].
  rewrite ini_reader_string_first_line by lia.
  rewrite Hre, Hstack. cbn [negb andb].
  rewrite (c_str_firstn _ _ Hpl), Hg.
  cbn [lineno set_max_line].
  destruct (buffer_full size (fst (first_line (c :: s)))) eqn:Hfull;
    [|reflexivity].
  apply buffer_full_no_newline, first_line_no_newline in Hfull.
  rewrite Hfull.
  destruct fuel as [|fuel]; [cbn [length] in *; lia|].
  reflexivity.
Qed.

Lemma short_line_is_read_whole_witness :
  exists size,
    8 <= size <= 32 /\
    ini_parse_loop growing_config always_allocates ini_reader_string
      accept_all 30 (initial_state growing_config tt) fitting_input =
    ini_parse_loop growing_config always_allocates ini_reader_string
      accept_all 29
      (ini_parse_line growing_config accept_all
         (set_lineno (set_max_line (initial_state growing_config tt) size) 1)
         (fst (first_line fitting_input)))
      (snd (first_line fitting_input)).
Proof.
  refine (short_line_is_read_whole growing_config always_allocates
            accept_all 30 (initial_state growing_config tt) fitting_input
            eq_refl eq_refl (fun _ => eq_refl) _ eq_refl _ _ _).
  - split; apply Nat.leb_le; reflexivity.
  - discriminate.
  - apply Nat.ltb_lt. vm_compute. reflexivity.
  - apply Nat.ltb_lt. vm_compute. reflexivity.
Defined.

(** The parse of [fitting_input]: the buffer has grown to 32 bytes, no
    line is flagged and the first value is whole. *)
Lemma fitting_input_parse :
  exists o,
    ini_parse_string growing_config always_allocates accept_all
      fitting_input tt = Some o /\
    ret o = 0%Z /\ flagged (final o) = [] /\ max_line (final o) = 32 /\
    map call_args (calls (final o)) =
      [(1%Z, [], Some (cs "k"), Some (repeat "v"%char 18));
       (2%Z, [], Some (cs "a"), Some (cs "b"))].
Proof.
  eexists. split; [vm_compute; reflexivity|].
  repeat split; reflexivity.
Qed.

(** ** The byte-order mark *)

Section Fuel.

Context {U Stream : Type}.
Variable cfg : config.
Variable alloc : allocator.
Variable reader : nat -> Stream -> option (list ascii * Stream).
Variable handler : ini_handler U.

(** More fuel does not change what a loop returns. *)
Lemma ini_grow_line_more fuel k size line stream g :
  ini_grow_line cfg alloc reader fuel size line stream = Some g ->
  ini_grow_line cfg alloc reader (fuel + k) size line stream = Some g.
Proof.
  revert size line stream; induction fuel as [|fuel IH];
    intros size line stream.
  - destruct k; simpl; destruct (buffer_full size line); auto; discriminate.
  - simpl. destruct (buffer_full size line); auto.
    destruct (negb _); auto.
    destruct (reader _ stream) as [[chunk stream1]|]; auto.
    destruct (Nat.leb _ _); auto.
Qed.

Lemma ini_discard_line_more fuel k (st : state U) stream r :
  ini_discard_line reader fuel st stream = Some r ->
  ini_discard_line reader (fuel + k) st stream = Some r.
Proof.
  revert st stream; induction fuel as [|fuel IH]; intros st stream;
    simpl; [discriminate|].
  destruct (reader 16 stream) as [[abyss stream1]|]; auto.
  destruct (Ascii.eqb _ NL); auto.
Qed.

Lemma ini_parse_loop_more fuel k (st : state U) stream o :
  ini_parse_loop cfg alloc reader handler fuel st stream = Some o ->
  ini_parse_loop cfg alloc reader handler (fuel + k) st stream = Some o.
Proof.
  revert st stream; induction fuel as [|fuel IH]; intros st stream;
    simpl; [discriminate|].
  destruct (reader (max_line st) stream) as [[chunk stream1]|]; auto.
  destruct (INI_ALLOW_REALLOC cfg && negb (INI_USE_STACK cfg)).
  - destruct (ini_grow_line cfg alloc reader fuel _ _ _)
      as [[|size line stream2]|] eqn:Hg; try discriminate.
    + rewrite (ini_grow_line_more _ k _ _ _ _ Hg). auto.
    + rewrite (ini_grow_line_more _ k _ _ _ _ Hg).
      destruct (buffer_full size line).
      * destruct (ini_discard_line reader fuel _ stream2)
          as [[st2 stream3]|] eqn:Hd; try discriminate.
        rewrite (ini_discard_line_more _ k _ _ _ Hd).
        destruct (_ && _); auto.
      * destruct (_ && _); auto.
  - destruct (buffer_full (max_line st) (c_str chunk)).
    + destruct (ini_discard_line reader fuel _ stream1)
        as [[st2 stream3]|] eqn:Hd; try discriminate.
      rewrite (ini_discard_line_more _ k _ _ _ Hd).
      destruct (_ && _); auto.
    + destruct (_ && _); auto.
Qed.

End Fuel.

Section Bom.

Context {U : Type}.
Variable cfg : config.
Variable alloc : allocator.
Variable handler : ini_handler U.

(** One turn of the loop on a string, with a line buffer of fixed size. *)
Lemma ini_parse_loop_step fuel (st : state U) c s :
  fixed_buffer cfg -> 2 <= max_line st -> c_str (c :: s) = c :: s ->
  length (c :: s) <= fuel ->
  let st3 := line_step cfg handler st (fst (first_line (c :: s))) in
  ini_parse_loop cfg alloc ini_reader_string handler (S fuel) st (c :: s) =
  if INI_STOP_ON_FIRST_ERROR cfg && negb (Z.eqb (error st3) 0)
  then Some (mkOutcome (error st3) st3 (snd (first_line (c :: s))))
  else ini_parse_loop cfg alloc ini_reader_string handler fuel st3
         (snd (first_line (c :: s))).
Proof.
  intros Hfix Hm Hs Hlen. cbv zeta.
  assert (Hre : INI_ALLOW_REALLOC cfg && negb (INI_USE_STACK cfg) = false).
  { destruct Hfix as [-> | ->]; auto using andb_false_r. }
  pose proof (first_line_app (c :: s)) as Happ.
  assert (Hpl : c_str (fst (first_line (c :: s)))
                = fst (first_line (c :: s))).
  { rewrite <- Happ in Hs. apply c_str_app_inv in Hs; tauto. }
  cbn [ini_parse_loop].
  rewrite ini_reader_string_first_line by lia.
  rewrite Hre. cbv beta iota zeta.
  rewrite (c_str_firstn _ _ Hpl).
  pose proof (discard_rest_of_line fuel
    (set_lineno (set_max_line st (max_line st))
       (lineno (set_max_line st (max_line st)) + 1))
    c s (max_line st) Hm Hs Hlen) as Hd.
  cbv zeta in Hd. rewrite Hd. reflexivity.
Qed.

(** On the first line the mark is skipped. *)
Lemma ini_parse_line_bom (st : state U) line :
  INI_ALLOW_BOM cfg = true -> lineno st = 1%Z -> prev_name st = [] ->
  has_bom line = false ->
  ini_parse_line cfg handler st (BOM ++ line)
  = ini_parse_line cfg handler st line.
Proof.
  intros Hb Hl Hp Hn.
  assert (Hs : stripped cfg (lineno st) (BOM ++ line)
               = stripped cfg (lineno st) line).
  { unfold stripped, unbom. rewrite Hb, Hl, Hn. reflexivity. }
  assert (Hc : forall l, continues cfg st l = false).
  { intros l. unfold continues. rewrite Hp.
    destruct (INI_ALLOW_MULTILINE cfg); reflexivity. }
  rewrite !ini_parse_line_eq. cbv zeta.
  unfold comment_or_blank. rewrite !Hc, Hs. reflexivity.
Qed.

Lemma has_bom_app a b : has_bom a = true -> has_bom (a ++ b) = true.
Proof.
  destruct a as [|x [|y [|z a]]]; simpl; try discriminate. auto.
Qed.

Lemma line_step_bom (st : state U) pl :
  INI_ALLOW_BOM cfg = true -> lineno st = 0%Z -> prev_name st = [] ->
  has_bom pl = false -> length pl + 3 < max_line st ->
  line_step cfg handler st (BOM ++ pl) = line_step cfg handler st pl.
Proof.
  intros Hb Hl Hp Hn Hfit. unfold line_step. cbv zeta.
  rewrite length_app. cbn [length BOM].
  replace (3 + length pl - (max_line st - 1)) with 0 by lia.
  replace (length pl - (max_line st - 1)) with 0 by lia.
  rewrite !firstn_all2 by (rewrite ?length_app; cbn [length BOM]; lia).
  apply ini_parse_line_bom; auto.
  cbn [abyss_reads Nat.add Nat.div Nat.divmod fst Nat.iter nat_rect lineno
       set_lineno]. lia.
Qed.

End Bom.

Lemma comment_or_blank_nil cfg n : comment_or_blank cfg n [] = true.
Proof.
  unfold comment_or_blank, stripped, unbom.
  destruct (INI_ALLOW_BOM cfg && Z.eqb n 1 && has_bom []); reflexivity.
Qed.

Lemma c_str_bom s : c_str (BOM ++ s) = BOM ++ c_str s.
Proof. reflexivity. Qed.

Lemma first_line_bom s :
  first_line (BOM ++ s) = (BOM ++ fst (first_line s), snd (first_line s)).
Proof.
  cbn [BOM app first_line].
  destruct (first_line s); reflexivity.
Qed.

(** X14.  A byte-order mark at the start of the input is skipped: the
    string with the mark in front is parsed like the string without it,
    with the same calls of the handler and the same value returned, as
    long as its first line still fits the line buffer and the text does
    not start with a second mark. *)
Theorem bom_is_skipped {U} cfg alloc (handler : ini_handler U) string u :
  fixed_line_buffer cfg alloc ->
  INI_ALLOW_BOM cfg = true ->
  has_bom (c_str string) = false ->
  length (fst (first_line (c_str string))) + 3 < buffer_size cfg ->
  exists o o',
    ini_parse_string cfg alloc handler (BOM ++ string) u = Some o /\
    ini_parse_string cfg alloc handler string u = Some o' /\
    ret o = ret o' /\ calls (final o) = calls (final o') /\
    user (final o) = user (final o') /\
    section (final o) = section (final o') /\
    flagged (final o) = flagged (final o') /\ rest o = rest o'.
Proof.
  intros [Hbuf Hm] Hb Hn Hfit.
  assert (Hfix : fixed_buffer cfg).
  { destruct Hbuf as [H | [H _]]; [left|right]; auto. }
  assert (Hok : negb (INI_USE_STACK cfg)
                && negb (ini_malloc alloc (INI_INITIAL_ALLOC cfg)) = false).
  { destruct Hbuf as [-> | [_ ->]]; auto using andb_false_r. }
  assert (Hcs : forall s, firstn (strlen s) s = c_str s).
  { intros s. unfold strlen. induction s as [|c s IH]; simpl; auto.
    destruct (Ascii.eqb c NUL); simpl; congruence. }
  unfold ini_parse_string, ini_parse_string_length, ini_parse_stream.
  rewrite Hok, !Hcs. unfold strlen. rewrite c_str_bom.
  rewrite length_app. cbn [length BOM Nat.add].
  set (init := initial_state cfg u).
  assert (Hinit : max_line init = buffer_size cfg) by reflexivity.
  pose proof (c_str_idem string) as Hidem.
  destruct (c_str string) as [|c s] eqn:E.
  - (* the mark alone is a blank line *)
    cbn [app length].
    pose proof (ini_parse_loop_step cfg alloc handler 3 init
                  (ascii_of_nat 239) [ascii_of_nat 187; ascii_of_nat 191]
                  Hfix ltac:(rewrite Hinit; lia) eq_refl
                  ltac:(cbn [length]; lia)) as Hstep.
    cbv zeta in Hstep.
    change (fst (first_line [ascii_of_nat 239; ascii_of_nat 187;
                             ascii_of_nat 191])) with (BOM ++ []) in Hstep.
    change (snd (first_line [ascii_of_nat 239; ascii_of_nat 187;
                             ascii_of_nat 191])) with (@nil ascii) in Hstep.
    cbn [first_line fst length Nat.add] in Hfit.
    rewrite (line_step_bom cfg handler init [] Hb eq_refl eq_refl eq_refl)
      in Hstep by (rewrite Hinit; cbn [length]; lia).
    rewrite (line_step_fits_comment cfg handler init [])
      in Hstep
      by (rewrite ?Hinit; cbn [length]; try lia; apply comment_or_blank_nil).
    cbn [error set_lineno init initial_state Z.eqb negb andb] in Hstep.
    rewrite andb_false_r in Hstep.
    change (BOM) with [ascii_of_nat 239; ascii_of_nat 187; ascii_of_nat 191].
    cbn [app length Nat.add].

    rewrite Hstep.
    eexists. eexists. split; [reflexivity|]. split; [reflexivity|].
    repeat split; reflexivity.
  - pose proof (first_line_bom (c :: s)) as Hfl.
    set (pl := fst (first_line (c :: s))) in *.
    set (rs := snd (first_line (c :: s))) in *.
    assert (Hpln : has_bom pl = false).
    { destruct (has_bom pl) eqn:F; [|reflexivity].
      pose proof (first_line_app (c :: s)) as Happ. fold pl rs in Happ.
      rewrite <- Happ in Hn. rewrite (has_bom_app pl rs F) in Hn.
      discriminate. }
    pose proof (ini_parse_loop_step cfg alloc handler (length (c :: s)) init
                  c s Hfix ltac:(rewrite Hinit; lia) Hidem (le_n _))
      as Hplain.
    pose proof (ini_parse_loop_step cfg alloc handler (3 + length (c :: s))
                  init (ascii_of_nat 239) (skipn 1 (BOM ++ c :: s))
                  Hfix ltac:(rewrite Hinit; lia)) as Hmark.
    change (ascii_of_nat 239 :: skipn 1 (BOM ++ c :: s))
      with (BOM ++ c :: s) in Hmark.
    specialize (Hmark ltac:(rewrite <- E, <- c_str_bom; apply c_str_idem)
                      ltac:(rewrite length_app; cbn [length BOM]; lia)).
    cbv zeta in Hplain, Hmark. rewrite Hfl in Hmark.
    cbn [fst snd] in Hmark. fold pl rs in Hplain.
    rewrite (line_step_bom cfg handler init pl Hb eq_refl eq_refl Hpln)
      in Hmark by (rewrite Hinit; exact Hfit).
    change (S (S (S (S (length (c :: s))))))
      with (S (3 + length (c :: s))).
    rewrite Hmark, Hplain.
    destruct (INI_STOP_ON_FIRST_ERROR cfg
              && negb (Z.eqb (error (line_step cfg handler init pl)) 0)).
    + eexists. eexists. split; [reflexivity|]. split; [reflexivity|].
      repeat split; reflexivity.
    + assert (Hrs : length rs < length (c :: s)).
      { pose proof (first_line_app (c :: s)) as Happ. fold pl rs in Happ.
        pose proof (first_line_nonempty c s) as Hne. fold pl in Hne.
        apply (f_equal (@length _)) in Happ. rewrite length_app in Happ.
        destruct pl; [congruence|]. cbn [length] in *. lia. }
      destruct (ini_parse_loop_total cfg alloc handler (length (c :: s))
                  (line_step cfg handler init pl) rs Hrs) as [o Ho].
      exists o, o. split.
      * replace (3 + length (c :: s)) with (length (c :: s) + 3) by lia.
        apply ini_parse_loop_more. exact Ho.
      * split; [exact Ho|]. repeat split; reflexivity.
Qed.

Lemma bom_is_skipped_witness :
  has_bom (c_str (cs "k=v" ++ [NL])) = false /\
  exists o,
    ini_parse_string default_config always_allocates accept_all
      (BOM ++ cs "k=v" ++ [NL]) tt = Some o /\
    ret o = 0%Z /\
    map call_args (calls (final o)) = [(1%Z, [], Some (cs "k"), Some (cs "v"))].
Proof.
  split; [reflexivity|].
  destruct (bom_is_skipped default_config always_allocates accept_all
              (cs "k=v" ++ [NL]) tt default_fixed_line_buffer
              eq_refl eq_refl)
    as (o & o' & Ho & Ho' & Hr & Hc & _).
  { apply Nat.ltb_lt. reflexivity. }
  exists o. split; [exact Ho|]. rewrite Hr, Hc.
  vm_compute in Ho'. injection Ho' as <-. split; reflexivity.
Defined.

(** The mark is skipped on the first line only: on a later line its three
    bytes are part of the name. *)
Lemma bom_on_second_line :
  exists o,
    ini_parse_string default_config always_allocates accept_all
      (cs "a=1" ++ [NL] ++ BOM ++ cs "k=v" ++ [NL]) tt = Some o /\
    map call_args (calls (final o)) =
      [(1%Z, [], Some (cs "a"), Some (cs "1"));
       (2%Z, [], Some (BOM ++ cs "k"), Some (cs "v"))].
Proof.
  eexists. split; [vm_compute; reflexivity|]. reflexivity.
Qed.

(** ** The handler's answers *)

(** X15.  With stop-on-first-error off, what the handler is called with
    does not depend on the handler: two parses of a string, with any two
    handlers and user states, make the same calls with the same arguments
    and end in the same section.  The handler's answers bear on the value
    returned only. *)
Theorem calls_do_not_depend_on_handler {U1 U2} cfg alloc
    (h1 : ini_handler U1) (h2 : ini_handler U2) string u1 u2 :
  fixed_line_buffer cfg alloc ->
  INI_STOP_ON_FIRST_ERROR cfg = false ->
  exists o1 o2,
    ini_parse_string cfg alloc h1 string u1 = Some o1 /\
    ini_parse_string cfg alloc h2 string u2 = Some o2 /\
    map call_args (calls (final o1)) = map call_args (calls (final o2)) /\
    section (final o1) = section (final o2) /\
    lineno (final o1) = lineno (final o2).
Proof.
  intros Hbuf Hstop.
  destruct (ini_parse_string_same_parse cfg h1 h2 alloc string u1 u2
              Hbuf Hstop) as (o1 & o2 & H1 & H2 & Hsame).
  destruct Hsame as (_ & Hs & _ & Hl & Hc).
  exists o1, o2. repeat split; assumption.
Qed.

Lemma calls_do_not_depend_on_handler_witness :
  exists o1 o2,
    ini_parse_string default_config always_allocates accept_all
      scoped_input tt = Some o1 /\
    ini_parse_string default_config always_allocates reject_all
      scoped_input tt = Some o2 /\
    map call_args (calls (final o1)) = map call_args (calls (final o2)) /\
    ret o1 = 0%Z /\ ret o2 = 1%Z.
Proof.
  destruct (calls_do_not_depend_on_handler default_config always_allocates
              accept_all reject_all scoped_input tt tt
              default_fixed_line_buffer eq_refl)
    as (o1 & o2 & H1 & H2 & Hc & _).
  exists o1, o2. split; [exact H1|]. split; [exact H2|].
  split; [exact Hc|].
  vm_compute in H1, H2. injection H1 as <-. injection H2 as <-.
  split; reflexivity.
Defined.

(** ** Options that are not looked at *)

Section Unused.

Context {U Stream : Type}.
Variable reader : nat -> Stream -> option (list ascii * Stream).
Variable handler : ini_handler U.

Lemma ini_parse_line_with_max_line cfg n (st : state U) line :
  ini_parse_line (with_max_line cfg n) handler st line
  = ini_parse_line cfg handler st line.
Proof. reflexivity. Qed.

Lemma ini_parse_loop_with_max_line cfg alloc n fuel (st : state U) stream :
  INI_ALLOW_REALLOC cfg && negb (INI_USE_STACK cfg) = false ->
  ini_parse_loop (with_max_line cfg n) alloc reader handler fuel st stream
  = ini_parse_loop cfg alloc reader handler fuel st stream.
Proof.
  intros Hre.
  revert st stream; induction fuel as [|fuel IH]; intros st stream;
    [reflexivity|].
  cbn [ini_parse_loop].
  destruct (reader (max_line st) stream) as [[chunk stream1]|];
    [|reflexivity].
  change (INI_ALLOW_REALLOC (with_max_line cfg n))
    with (INI_ALLOW_REALLOC cfg).
  change (INI_USE_STACK (with_max_line cfg n)) with (INI_USE_STACK cfg).
  change (INI_STOP_ON_FIRST_ERROR (with_max_line cfg n))
    with (INI_STOP_ON_FIRST_ERROR cfg).
  rewrite Hre.
  destruct (if buffer_full (max_line st) (c_str chunk) then _ else _)
    as [[st2 stream2]|]; [|reflexivity].
  rewrite ini_parse_line_with_max_line.
  destruct (INI_STOP_ON_FIRST_ERROR cfg && _); [reflexivity|apply IH].
Qed.

Lemma ini_parse_loop_on_stack cfg alloc alloc' fuel (st : state U) stream :
  INI_ALLOW_REALLOC cfg && negb (INI_USE_STACK cfg) = false ->
  ini_parse_loop cfg alloc reader handler fuel st stream
  = ini_parse_loop cfg alloc' reader handler fuel st stream.
Proof.
  intros Hre.
  revert st stream; induction fuel as [|fuel IH]; intros st stream;
    [reflexivity|].
  cbn [ini_parse_loop].
  destruct (reader (max_line st) stream) as [[chunk stream1]|];
    [|reflexivity].
  rewrite Hre.
  destruct (if buffer_full (max_line st) (c_str chunk) then _ else _)
    as [[st2 stream2]|]; [|reflexivity].
  destruct (INI_STOP_ON_FIRST_ERROR cfg && _); [reflexivity|apply IH].
Qed.

End Unused.

(** X16.  With the line buffer on the heap and [realloc] not allowed,
    [INI_MAX_LINE] is not looked at: the buffer has [INI_INITIAL_ALLOC]
    bytes, and the parse is the same for every value of [INI_MAX_LINE].
    With the line buffer on the stack nothing is allocated: the parse is
    the same whatever [malloc] and [realloc] would answer. *)
Theorem options_not_looked_at {U Stream}
    (reader : nat -> Stream -> option (list ascii * Stream))
    (handler : ini_handler U) fuel stream u :
  (forall cfg alloc n,
      INI_USE_STACK cfg = false -> INI_ALLOW_REALLOC cfg = false ->
      ini_parse_stream (with_max_line cfg n) alloc reader handler fuel
        stream u
      = ini_parse_stream cfg alloc reader handler fuel stream u) /\
  (forall cfg alloc alloc',
      INI_USE_STACK cfg = true ->
      ini_parse_stream cfg alloc reader handler fuel stream u
      = ini_parse_stream cfg alloc' reader handler fuel stream u).
Proof.
  split.
  - intros cfg alloc n Hs Hr. unfold ini_parse_stream.
    change (INI_USE_STACK (with_max_line cfg n)) with (INI_USE_STACK cfg).
    change (INI_INITIAL_ALLOC (with_max_line cfg n))
      with (INI_INITIAL_ALLOC cfg).
    destruct (_ && _).
    + unfold initial_state.
      change (INI_USE_STACK (with_max_line cfg n)) with (INI_USE_STACK cfg).
      rewrite Hs. reflexivity.
    + rewrite ini_parse_loop_with_max_line by (rewrite Hr; reflexivity).
      unfold initial_state.
      change (INI_USE_STACK (with_max_line cfg n)) with (INI_USE_STACK cfg).
      rewrite Hs. reflexivity.
  - intros cfg alloc alloc' Hs. unfold ini_parse_stream.
    rewrite Hs. cbn [negb andb].
    apply ini_parse_loop_on_stack. rewrite Hs. apply andb_false_r.
Qed.

(** In the heap build without [realloc] a line of 21 characters is cut to
    the 7 that fit [INI_INITIAL_ALLOC] = 8 bytes, although [INI_MAX_LINE]
    is 32. *)
Lemma heap_buffer_parse :
  exists o,
    ini_parse_string heap_config always_allocates accept_all
      fitting_input tt = Some o /\
    ret o = 1%Z /\ max_line (final o) = 8 /\
    map call_args (calls (final o)) =
      [(1%Z, [], Some (cs "k"), Some (repeat "v"%char 5));
       (2%Z, [], Some (cs "a"), Some (cs "b"))].
Proof.
  eexists. split; [vm_compute; reflexivity|].
  repeat split; reflexivity.
Qed.

(** ** Line numbers *)



(** ** Lines that fit, and lines that do not, with a buffer of fixed size *)

(** X18.  With a line buffer of fixed size, a physical line shorter than
    the buffer is parsed whole and is not reported as too long: the loop
    counts the line, parses it, and goes on with the text after it. *)
Theorem line_that_fits_is_read_whole {U} cfg alloc (handler : ini_handler U)
    fuel (st : state U) s :
  fixed_buffer cfg -> 2 <= max_line st ->
  c_str s = s -> s <> [] -> length s < fuel ->
  length (fst (first_line s)) < max_line st ->
  let st1 := set_lineno st (lineno st + 1) in
  let st2 := ini_parse_line cfg handler st1 (fst (first_line s)) in
  ini_parse_loop cfg alloc ini_reader_string handler fuel st s =
  if INI_STOP_ON_FIRST_ERROR cfg && negb (Z.eqb (error st2) 0)
  then Some (mkOutcome (error st2) st2 (snd (first_line s)))
  else ini_parse_loop cfg alloc ini_reader_string handler (fuel - 1) st2
                      (snd (first_line s)).
Proof.
  intros Hfix Hm Hs Hne Hlen Hfit. cbv zeta.
  destruct fuel as [|fuel]; [lia|].
  destruct s as [|c s]; [congruence|].
  replace (S fuel - 1) with fuel by lia.
  rewrite (ini_parse_loop_step cfg alloc handler fuel st c s Hfix Hm Hs)
    by (cbn [length] in *; lia).
  cbv zeta. unfold line_step. cbv zeta.
  replace (length (fst (first_line (c :: s))) - (max_line st - 1))
    with 0 by lia.
  rewrite firstn_all2 by lia.
  reflexivity.
Qed.

Lemma line_that_fits_is_read_whole_witness :
  length (fst (first_line scoped_input))
  < max_line (initial_state default_config tt) /\
  let st := initial_state default_config tt in
  let st1 := set_lineno st (lineno st + 1) in
  let st2 :=
    ini_parse_line default_config accept_all st1
      (fst (first_line scoped_input)) in
  ini_parse_loop default_config always_allocates ini_reader_string
    accept_all 20 st scoped_input =
  if INI_STOP_ON_FIRST_ERROR default_config && negb (Z.eqb (error st2) 0)
  then Some (mkOutcome (error st2) st2 (snd (first_line scoped_input)))
  else ini_parse_loop default_config always_allocates ini_reader_string
         accept_all (20 - 1) st2 (snd (first_line scoped_input)).
Proof.
  assert (H2 : 2 <= max_line (initial_state default_config tt))
    by (apply Nat.leb_le; reflexivity).
  assert (Hne : scoped_input <> []) by discriminate.
  assert (Hlen : length scoped_input < 20)
    by (apply Nat.ltb_lt; vm_compute; reflexivity).
  assert (Hfit : length (fst (first_line scoped_input))
                 < max_line (initial_state default_config tt))
    by (apply Nat.ltb_lt; vm_compute; reflexivity).
  split; [exact Hfit|].
  exact (line_that_fits_is_read_whole default_config always_allocates
           accept_all 20 (initial_state default_config tt) scoped_input
           (or_introl eq_refl) H2 eq_refl Hne Hlen Hfit).
Defined.

(** X19.  With stop-on-first-error and a line buffer of fixed size, a line
    that does not fit the buffer is still parsed, cut to what the buffer
    holds, before the parse stops: the handler is called for the cut line
    if it is a name with a value, the line's number is returned unless an
    error was recorded before, and what follows the line is left
    unread. *)
Theorem overlong_line_stops_the_parse {U} cfg alloc
    (handler : ini_handler U) fuel (st : state U) s :
  fixed_buffer cfg ->
  INI_STOP_ON_FIRST_ERROR cfg = true ->
  2 <= max_line st ->
  (0 <= lineno st)%Z ->
  c_str s = s ->
  length s < fuel ->
  max_line st <= length (fst (first_line s)) ->
  let pl := fst (first_line s) in
  let n := (lineno st + 1)%Z in
  exists k,
    1 <= k /\
    let st1 :=
      mkState (max_line st) (section st) (prev_name st) n
              (if Z.eqb (error st) 0 then n else error st)
              (user st) (calls st) (flagged st ++ repeat n k) in
    let st2 := ini_parse_line cfg handler st1 (firstn (max_line st - 1) pl) in
    ini_parse_loop cfg alloc ini_reader_string handler fuel st s =
    Some (mkOutcome (error st1) st2 (snd (first_line s))) /\
    error st2 = error st1 /\ error st1 <> 0%Z.
Proof.
  intros Hfix Hstop Hm Hln Hs Hlen Hlong pl n.
  destruct fuel as [|fuel]; [lia|].
  destruct s as [|c s]; [simpl in Hlong; lia|].
  exists (abyss_reads (length pl - (max_line st - 1))).
  split; [apply abyss_reads_pos; subst pl; lia|].
  destruct (abyss_reads (length pl - (max_line st - 1))) as [|k] eqn:Hk.
  { pose proof (abyss_reads_pos (length pl - (max_line st - 1))
                  ltac:(subst pl; lia)). lia. }
  cbv zeta.
  assert (He : (if Z.eqb (error st) 0 then n else error st) <> 0%Z).
  { destruct (Z.eqb_spec (error st) 0); subst n; lia. }
  assert (Hsticky :
    error (ini_parse_line cfg handler
             (mkState (max_line st) (section st) (prev_name st) n
                (if Z.eqb (error st) 0 then n else error st)
                (user st) (calls st) (flagged st ++ repeat n (S k)))
             (firstn (max_line st - 1) pl))
    = (if Z.eqb (error st) 0 then n else error st)).
  { apply ini_parse_line_sticky. exact He. }
  split; [|split; [exact Hsticky|exact He]].
  rewrite (ini_parse_loop_step cfg alloc handler fuel st c s Hfix Hm Hs)
    by (cbn [length] in *; lia).
  cbv zeta. unfold line_step. cbv zeta. fold pl. rewrite Hk.
  rewrite iter_record_error_eq.
  cbn [max_line section prev_name lineno error user calls flagged
       set_lineno].
  fold n. rewrite Hsticky, Hstop.
  destruct (Z.eqb_spec (if Z.eqb (error st) 0 then n else error st) 0);
    [contradiction|].
  reflexivity.
Qed.

Lemma overlong_line_stops_the_parse_witness :
  exists o,
    ini_parse_string stopping_config always_allocates accept_all
      long_value tt = Some o /\
    ret o = 1%Z /\
    map call_args (calls (final o)) =
      [(1%Z, [], Some (cs "k"), Some (repeat "v"%char 197))] /\
    rest o = cs "a=b" ++ [NL].
Proof.
  destruct (overlong_line_stops_the_parse stopping_config always_allocates
              accept_all (S (strlen long_value))
              (initial_state stopping_config tt) long_value
              (or_introl eq_refl) eq_refl)
    as (k & Hk & Hrun & _).
  - apply Nat.leb_le. reflexivity.
  - discriminate.
  - vm_compute. reflexivity.
  - apply Nat.ltb_lt. vm_compute. reflexivity.
  - apply Nat.leb_le. vm_compute. reflexivity.
  - eexists. split; [vm_compute; reflexivity|].
    repeat split; reflexivity.
Defined.

(** * The loop on the lines of a string

    The value returned, the section of a call and the lines read after
    blank lines and comments, said of the physical lines of the input. *)

(** ** Well-formed text and the scan of [ini_find_chars_or_comment] *)

Lemma in_strchr chars c : In c chars -> strchr chars c = true.
Proof.
  intros H. unfold strchr. apply orb_true_iff. right.
  apply existsb_exists. exists c. split; [exact H|apply Ascii.eqb_refl].
Qed.

(** The scan stops at one of [chars] exactly when the text is separated. *)
Lemma separated_found cfg chars s :
  separated cfg chars s <->
  exists c b,
    snd (find_chars_or_comment cfg s (Some chars)) = c :: b /\ In c chars.
Proof.
  unfold find_chars_or_comment, ini_find_chars_or_comment. split.
  - intros (a & c & b & -> & Hc & Hni & Hch).
    exists c, b. rewrite (find_loop_plain cfg chars false a c b); auto.
    apply in_strchr; exact Hc.
  - intros (c & b & Hs & Hc).
    pose proof (find_loop_app (INI_ALLOW_INLINE_COMMENTS cfg)
                  (INI_INLINE_COMMENT_PREFIXES cfg) (Some chars) false s)
      as Happ.
    pose proof (find_loop_stop cfg (Some chars) false s) as Hstop.
    cbv zeta in Hstop. destruct Hstop as (Hni & Hch & _).
    rewrite Hs in Happ.
    exists (fst (find_loop (INI_ALLOW_INLINE_COMMENTS cfg)
                   (INI_INLINE_COMMENT_PREFIXES cfg) (Some chars) false s)),
      c, b.
    split; [symmetry; exact Happ|]. split; [exact Hc|].
    split; [exact Hni|]. apply Hch. reflexivity.
Qed.

Lemma separated_bracket cfg s :
  separated cfg (cs "]") s <->
  Ascii.eqb (deref (snd (find_chars_or_comment cfg s (Some (cs "]"))))) "]"
  = true.
Proof.
  rewrite separated_found. split.
  - intros (c & b & -> & [<-|[]]). reflexivity.
  - intros H.
    destruct (snd (find_chars_or_comment cfg s (Some (cs "]"))))
      as [|c b]; [discriminate H|].
    apply Ascii.eqb_eq in H. simpl in H. subst c.
    exists "]", b. split; [reflexivity|left; reflexivity].
Qed.

Lemma separated_separator cfg s :
  separated cfg (cs "=:") s <->
  Ascii.eqb (deref (snd (find_chars_or_comment cfg s (Some (cs "=:"))))) "="
  || Ascii.eqb (deref (snd (find_chars_or_comment cfg s (Some (cs "=:")))))
       ":" = true.
Proof.
  rewrite separated_found. split.
  - intros (c & b & -> & [<-|[<-|[]]]); reflexivity.
  - intros H.
    destruct (snd (find_chars_or_comment cfg s (Some (cs "=:"))))
      as [|c b]; [discriminate H|].
    apply orb_true_iff in H. simpl in H.
    exists c, b. split; [reflexivity|].
    destruct H as [H|H]; apply Ascii.eqb_eq in H; subst c; simpl; auto.
Qed.

(** [malformed] decides [ill_formed]. *)
Lemma malformed_ill_formed {U} cfg (st : state U) line :
  malformed cfg st line = true <->
  ill_formed cfg (prev_name st) (lineno st) line.
Proof.
  unfold malformed, ill_formed, continues, section_header, well_formed_text.
  cbv zeta.
  change (ini_find_chars_or_comment (INI_ALLOW_INLINE_COMMENTS cfg)
            (INI_INLINE_COMMENT_PREFIXES cfg))
    with (find_chars_or_comment cfg).
  destruct (comment_or_blank cfg (lineno st) line) eqn:Hcomment;
    cbn [negb andb]; [split; [discriminate|intros [H _]; discriminate H]|].
  assert (Hne : nonempty (stripped cfg (lineno st) line) = true).
  { unfold comment_or_blank, strchr in Hcomment. unfold nonempty.
    destruct (Ascii.eqb _ NUL); [discriminate|reflexivity]. }
  rewrite Hne, andb_true_r.
  destruct (INI_ALLOW_MULTILINE cfg && nonempty (prev_name st)
            && indented cfg (lineno st) line);
    cbn [negb andb]; [split; [discriminate|intros (_ & H & _); discriminate H]|].
  destruct (Ascii.eqb (deref (stripped cfg (lineno st) line)) "[");
    cbn [andb].
  - rewrite separated_bracket.
    destruct (Ascii.eqb _ "]"); cbn [negb].
    + split; [discriminate|intros (_ & _ & H); exfalso; auto].
    + split; [|reflexivity]. intros _. repeat split; auto.
  - rewrite separated_separator.
    destruct (INI_ALLOW_NO_VALUE cfg); cbn [negb andb].
    + split; [discriminate|intros (_ & _ & H); exfalso; auto].
    + destruct (_ || _); cbn [negb].
      * split; [discriminate|intros (_ & _ & H); exfalso; auto].
      * split; [|reflexivity]. intros _. repeat split; auto.
        intros [H|H]; discriminate H.
Qed.

(** ** The first line in error (C1) *)

Section FirstBad.

Context {U : Type}.
Variable cfg : config.
Variable handler : ini_handler U.

(** What parsing a line does to the error code while it is still 0: it
    stays 0, the line is not malformed and no call made for it was
    rejected; or it becomes the number of the line, which is malformed or
    has a rejected call. *)
Lemma ini_parse_line_first_error (st : state U) line :
  error st = 0%Z ->
  let st' := ini_parse_line cfg handler st line in
  (error st' = 0%Z /\ ~ ill_formed cfg (prev_name st) (lineno st) line /\
   (forall c, In c (calls st') -> In c (calls st) \/ c_result c <> 0%Z)) \/
  (error st' = lineno st /\
   (ill_formed cfg (prev_name st) (lineno st) line \/
    exists c, In c (calls st') /\ c_lineno c = lineno st /\
              c_result c = 0%Z)).
Proof.
  intros He. cbv zeta.
  rewrite <- malformed_ill_formed.
  assert (Hcall : forall (s : state U) x n v,
    calls s = calls st -> error s = 0%Z -> lineno s = lineno st ->
    let st' := handler_or_error cfg handler s x n v in
    (error st' = 0%Z /\
     (forall c, In c (calls st') -> In c (calls st) \/ c_result c <> 0%Z)) \/
    (error st' = lineno st /\
     exists c, In c (calls st') /\ c_lineno c = lineno st /\
               c_result c = 0%Z)).
  { intros s x n v Ec Ee El.
    pose proof (handler_or_error_fields cfg handler s x n v) as H.
    cbv zeta in *.
    destruct H as (_ & _ & _ & _ & _ & Hc & Herr & _).
    rewrite Hc, Herr, Ec, Ee, El.
    set (r := snd (handler (user s) x n v _)).
    destruct (Z.eqb_spec r 0) as [E|E]; cbn [andb Z.eqb].
    - right. split; [reflexivity|].
      exists (mkCall (lineno st) x n v r). split.
      + apply in_or_app; right; left; reflexivity.
      + split; [reflexivity|exact E].
    - left. split; [reflexivity|].
      intros c Hin. apply in_app_or in Hin as [Hin|[<-|[]]]; auto. }
  unfold malformed, section_header.
  rewrite ini_parse_line_eq. cbv zeta.
  change (ini_find_chars_or_comment (INI_ALLOW_INLINE_COMMENTS cfg)
            (INI_INLINE_COMMENT_PREFIXES cfg))
    with (find_chars_or_comment cfg).
  destruct (comment_or_blank cfg (lineno st) line) eqn:Hcomment;
    cbn [negb andb].
  { left. split; [exact He|]. split; [discriminate|auto]. }
  destruct (continues cfg st line); cbn [negb andb].
  { destruct (Hcall st (section st) (Some (prev_name st))
               (Some (if INI_ALLOW_INLINE_COMMENTS cfg
                      then ini_rstrip
                             (fst (find_chars_or_comment cfg
                                     (stripped cfg (lineno st) line) None))
                      else stripped cfg (lineno st) line))
               eq_refl He eq_refl) as [[H1 H2]|[H1 H2]];
      [left|right]; repeat split; auto; try discriminate. }
  destruct (Ascii.eqb _ "[").
  { destruct (find_chars_or_comment cfg _ _) as [inside found].
    cbn [snd].
    destruct (Ascii.eqb (deref found) "]"); cbn [negb].
    - destruct (INI_CALL_HANDLER_ON_NEW_SECTION cfg).
      + match goal with
        | |- context [handler_or_error cfg handler ?s ?x ?n ?v] =>
            destruct (Hcall s x n v) as [[H1 H2]|[H1 H2]]
        end; try (destruct (INI_ALLOW_MULTILINE cfg); reflexivity || exact He);
          [left|right]; repeat split; auto; try discriminate.
      + left. destruct (INI_ALLOW_MULTILINE cfg);
          cbn [error set_prev_name set_section calls];
          (split; [exact He|]); (split; [discriminate|auto]).
    - right. cbn [record_error error]. rewrite He. cbn [Z.eqb].
      split; [reflexivity|left; reflexivity]. }
  destruct (nonempty _) eqn:Hne.
  2:{ unfold comment_or_blank, strchr in Hcomment. unfold nonempty in Hne.
      destruct (Ascii.eqb _ NUL); discriminate. }
  destruct (find_chars_or_comment cfg _ _) as [before found]. cbn [snd].
  destruct (_ || _); cbn [negb andb].
  - rewrite andb_false_r.
    match goal with
    | |- context [handler_or_error cfg handler ?s ?x ?n ?v] =>
        destruct (Hcall s x n v) as [[H1 H2]|[H1 H2]]
    end; try (destruct (INI_ALLOW_MULTILINE cfg); reflexivity || exact He);
      [left|right]; repeat split; auto; try discriminate.
  - destruct (INI_ALLOW_NO_VALUE cfg); cbn [negb andb].
    + destruct (Hcall st (section st) (Some (ini_rstrip before)) None
                 eq_refl He eq_refl) as [[H1 H2]|[H1 H2]];
        [left|right]; repeat split; auto; try discriminate.
    + right. cbn [record_error error]. rewrite He. cbn [Z.eqb].
      split; [reflexivity|left; reflexivity].
Qed.

(** The same for a whole iteration of the loop: a line too long for the
    buffer is in error as well. *)
Lemma line_step_first_error (st : state U) pl :
  1 <= max_line st -> (0 <= lineno st)%Z -> error st = 0%Z ->
  let n := (lineno st + 1)%Z in
  let line := firstn (max_line st - 1) pl in
  let st' := line_step cfg handler st pl in
  (error st' = 0%Z /\ length pl < max_line st /\
   ~ ill_formed cfg (prev_name st) n line /\
   (forall c, In c (calls st') -> In c (calls st) \/ c_result c <> 0%Z)) \/
  (error st' = n /\
   (max_line st <= length pl \/ ill_formed cfg (prev_name st) n line \/
    exists c, In c (calls st') /\ c_lineno c = n /\ c_result c = 0%Z)).
Proof.
  intros Hm Hl He. cbv zeta.
  destruct (line_step_fields_before cfg handler st pl)
    as (Heq & _ & _ & Hp & Hn & _ & Hc).
  rewrite Heq.
  destruct (Nat.le_gt_cases (max_line st) (length pl)) as [Hlong|Hfit].
  - right. split; [|left; exact Hlong].
    pose proof (abyss_reads_pos (length pl - (max_line st - 1))
                  ltac:(lia)) as Hpos.
    destruct (abyss_reads (length pl - (max_line st - 1))) as [|k];
      [lia|].
    rewrite iter_record_error_eq. cbn [error set_lineno lineno].
    rewrite ini_parse_line_sticky; cbn [error]; rewrite He; cbn [Z.eqb].
    + reflexivity.
    + lia.
  - replace (length pl - (max_line st - 1)) with 0 in * by lia.
    change (abyss_reads 0) with 0 in *. cbn [Nat.iter] in *.
    destruct (ini_parse_line_first_error
                (set_lineno st (lineno st + 1))
                (firstn (max_line st - 1) pl) He)
      as [(H1 & H2 & H3)|(H1 & H2)]; [left|right]; auto.
Qed.

End FirstBad.

Lemma firstn_snoc_nth {A} k (l : list A) d :
  k < length l -> firstn (S k) l = firstn k l ++ [nth k l d].
Proof.
  revert k; induction l as [|x l IH]; intros k Hk; [simpl in Hk; lia|].
  destruct k as [|k]; [reflexivity|].
  cbn [firstn nth app]. f_equal. apply IH. simpl in Hk. lia.
Qed.

Section LineByLine.

Context {U : Type}.
Variable cfg : config.
Variable handler : ini_handler U.

Lemma ini_parse_lines_app (st : state U) a b :
  ini_parse_lines cfg handler st (a ++ b)
  = ini_parse_lines cfg handler (ini_parse_lines cfg handler st a) b.
Proof. apply fold_left_app. Qed.

Lemma ini_parse_lines_max_line (st : state U) lines :
  max_line (ini_parse_lines cfg handler st lines) = max_line st.
Proof.
  revert st; induction lines as [|pl lines IH]; intros st; [reflexivity|].
  rewrite ini_parse_lines_cons, IH. apply line_step_max_line.
Qed.

Lemma ini_parse_lines_calls_incl (st : state U) lines c :
  In c (calls st) -> In c (calls (ini_parse_lines cfg handler st lines)).
Proof.
  revert st; induction lines as [|pl lines IH]; intros st Hin; [exact Hin|].
  rewrite ini_parse_lines_cons. apply IH.
  destruct (line_step_calls cfg handler st pl) as (_ & _ & Hc & _).
  cbv zeta in Hc. destruct Hc as [-> | (n & v & r & ->)]; auto.
  apply in_or_app; left; exact Hin.
Qed.

Variable u : U.
Variable lines : list (list ascii).

Lemma state_after_S k :
  k < length lines ->
  state_after cfg handler u lines (S k)
  = line_step cfg handler (state_after cfg handler u lines k)
      (nth k lines []).
Proof.
  intros Hk. unfold state_after.
  rewrite (firstn_snoc_nth k lines [] Hk), ini_parse_lines_app.
  reflexivity.
Qed.

Lemma state_after_split i k :
  i <= k ->
  state_after cfg handler u lines k
  = ini_parse_lines cfg handler (state_after cfg handler u lines i)
      (skipn i (firstn k lines)).
Proof.
  intros Hik. unfold state_after.
  rewrite <- ini_parse_lines_app. f_equal.
  rewrite <- (firstn_skipn i (firstn k lines)) at 1.
  rewrite firstn_firstn. replace (Nat.min i k) with i by lia. reflexivity.
Qed.

Lemma state_after_lineno k :
  k <= length lines ->
  lineno (state_after cfg handler u lines k) = Z.of_nat k.
Proof.
  intros Hk. unfold state_after.
  rewrite ini_parse_lines_lineno, length_firstn. cbn [lineno initial_state].
  lia.
Qed.

Lemma state_after_max_line k :
  max_line (state_after cfg handler u lines k) = buffer_size cfg.
Proof. unfold state_after. rewrite ini_parse_lines_max_line. reflexivity. Qed.

Lemma state_after_sticky i k :
  i <= k -> error (state_after cfg handler u lines i) <> 0%Z ->
  error (state_after cfg handler u lines k)
  = error (state_after cfg handler u lines i).
Proof.
  intros Hik He. rewrite (state_after_split i k Hik).
  apply ini_parse_lines_sticky. exact He.
Qed.

Lemma state_after_zero i k :
  i <= k -> error (state_after cfg handler u lines k) = 0%Z ->
  error (state_after cfg handler u lines i) = 0%Z.
Proof.
  intros Hik He.
  destruct (Z.eq_dec (error (state_after cfg handler u lines i)) 0)
    as [E|E]; [exact E|].
  rewrite (state_after_sticky i k Hik E) in He. contradiction.
Qed.

Lemma state_after_calls_incl i k c :
  i <= k -> In c (calls (state_after cfg handler u lines i)) ->
  In c (calls (state_after cfg handler u lines k)).
Proof.
  intros Hik Hin. rewrite (state_after_split i k Hik).
  apply ini_parse_lines_calls_incl. exact Hin.
Qed.

(** A call made for line [n] or an earlier one is made once line [n] is
    parsed. *)
Lemma state_after_calls_before n k c :
  n <= k -> k <= length lines ->
  In c (calls (state_after cfg handler u lines k)) ->
  (c_lineno c <= Z.of_nat n)%Z ->
  In c (calls (state_after cfg handler u lines n)).
Proof.
  intros Hnk Hk Hin Hc. rewrite (state_after_split n k Hnk) in Hin.
  apply ini_parse_lines_calls in Hin.
  destruct Hin as [Hin | (i & _ & Hi & _)]; [exact Hin|].
  rewrite state_after_lineno in Hi by lia. lia.
Qed.


(** While no error is recorded every line has fit the buffer, none was
    malformed and no call was rejected. *)
Lemma state_after_no_error k :
  2 <= buffer_size cfg -> k <= length lines ->
  error (state_after cfg handler u lines k) = 0%Z ->
  (forall i, i < k ->
     length (nth i lines []) < buffer_size cfg /\
     (~ ill_formed cfg (prev_name (state_after cfg handler u lines i))
          (Z.of_nat (S i))
          (firstn (buffer_size cfg - 1) (nth i lines [])))) /\
  (forall c, In c (calls (state_after cfg handler u lines k)) ->
             c_result c <> 0%Z).
Proof.
  intros Hm. induction k as [|k IH]; intros Hk He.
  - split; [intros i Hi; lia|]. intros c [].
  - pose proof (state_after_zero k (S k) ltac:(lia) He) as He'.
    destruct (IH ltac:(lia) He') as [IH1 IH2].
    pose proof (line_step_first_error cfg handler
                  (state_after cfg handler u lines k) (nth k lines [])) as H.
    rewrite state_after_max_line, state_after_lineno in H by lia.
    rewrite <- state_after_S in H by lia.
    cbv zeta in H.
    destruct (H ltac:(lia) ltac:(lia) He') as [(H1 & H2 & H3 & H4)|(H1 & _)];
      [|lia].
    split.
    + intros i Hi. destruct (Nat.eq_dec i k) as [->|Hne].
      * split; [exact H2|].
        replace (Z.of_nat (S k)) with (Z.of_nat k + 1)%Z by lia. exact H3.
      * apply IH1. lia.
    + intros c Hin. destruct (H4 c Hin) as [Hold|Hr]; auto.
Qed.

(** The error recorded is the number of the first line that did not fit
    the buffer, was malformed or had its call rejected. *)
Lemma state_after_error k :
  2 <= buffer_size cfg -> k <= length lines ->
  error (state_after cfg handler u lines k) <> 0%Z ->
  exists i,
    i < k /\
    error (state_after cfg handler u lines k) = Z.of_nat (S i) /\
    error (state_after cfg handler u lines i) = 0%Z /\
    (buffer_size cfg <= length (nth i lines []) \/
     ill_formed cfg (prev_name (state_after cfg handler u lines i))
       (Z.of_nat (S i)) (firstn (buffer_size cfg - 1) (nth i lines [])) \/
     exists c, In c (calls (state_after cfg handler u lines (S i))) /\
               c_lineno c = Z.of_nat (S i) /\ c_result c = 0%Z).
Proof.
  intros Hm. induction k as [|k IH]; intros Hk He.
  - exfalso. apply He. reflexivity.
  - destruct (Z.eq_dec (error (state_after cfg handler u lines k)) 0)
      as [E|E].
    + pose proof (line_step_first_error cfg handler
                    (state_after cfg handler u lines k) (nth k lines []))
        as H.
      rewrite state_after_max_line, state_after_lineno in H by lia.
      rewrite <- state_after_S in H by lia.
      cbv zeta in H.
      replace (Z.of_nat k + 1)%Z with (Z.of_nat (S k)) in H by lia.
      destruct (H ltac:(lia) ltac:(lia) E) as [(H1 & _)|(H1 & H2)];
        [contradiction|].
      exists k. repeat split; auto.
    + destruct (IH ltac:(lia) E) as (i & Hi & H1 & H2 & H3).
      exists i. split; [lia|].
      rewrite (state_after_sticky k (S k)) by (auto; lia).
      repeat split; auto.
Qed.

End LineByLine.

(** ** The parse of the first lines of an input *)

Lemma first_line_fst s t :
  last_char (fst (first_line s)) = NL \/ t = [] ->
  first_line (fst (first_line s) ++ t) = (fst (first_line s), t).
Proof.
  induction s as [|c s IH]; intros H.
  - destruct H as [H| ->]; [discriminate H|reflexivity].
  - cbn [first_line] in *. destruct (Ascii.eqb_spec c NL) as [E|E].
    + cbn [fst app first_line]. subst c. reflexivity.
    + destruct (first_line s) as [l r] eqn:El. cbn [fst app] in *.
      cbn [first_line]. destruct (Ascii.eqb_spec c NL); [contradiction|].
      rewrite IH; [reflexivity|].
      destruct H as [H|H]; [|right; exact H]. left.
      destruct l as [|x l]; [unfold last_char in H; simpl in H; congruence|exact H].
Qed.

Lemma physical_lines_prefix s k :
  physical_lines (concat (firstn k (physical_lines s)))
  = firstn k (physical_lines s).
Proof.
  remember (length s) as n eqn:Hn. revert s k Hn.
  induction n as [n IH] using lt_wf_ind. intros s k Hn.
  destruct s as [|c s]; [destruct k; reflexivity|].
  rewrite physical_lines_first_line.
  destruct k as [|k]; [reflexivity|].
  cbn [firstn concat].
  pose proof (first_line_app (c :: s)) as Happ.
  pose proof (first_line_nonempty c s) as Hne.
  set (pl := fst (first_line (c :: s))) in *.
  set (rs := snd (first_line (c :: s))) in *.
  assert (Hlen : length rs < n).
  { subst n. rewrite <- Happ, length_app.
    destruct pl; [congruence|simpl; lia]. }
  specialize (IH (length rs) Hlen rs k eq_refl).
  set (t := concat (firstn k (physical_lines rs))) in *.
  assert (Hfl : first_line (pl ++ t) = (pl, t)).
  { apply first_line_fst.
    destruct (Ascii.eqb_spec (last_char pl) NL) as [E|E]; [left; exact E|].
    right. subst t.
    rewrite (first_line_no_newline (c :: s) E : rs = []).
    destruct k; reflexivity. }
  destruct pl as [|x pl'] eqn:Epl; [congruence|].
  cbn [app]. rewrite physical_lines_first_line.
  change (x :: pl' ++ t) with ((x :: pl') ++ t). rewrite Hfl.
  cbn [fst snd]. rewrite IH. reflexivity.
Qed.

Lemma c_str_concat_firstn s k :
  c_str s = s ->
  c_str (concat (firstn k (physical_lines s)))
  = concat (firstn k (physical_lines s)).
Proof.
  intros Hs.
  pose proof (concat_physical_lines s) as Hc.
  rewrite <- (firstn_skipn k (physical_lines s)), concat_app in Hc.
  rewrite <- Hc in Hs. apply c_str_app_inv in Hs. tauto.
Qed.

Section Prefix.

Context {U : Type}.
Variable cfg : config.
Variable alloc : allocator.
Variable handler : ini_handler U.
Variable string : list ascii.
Variable u : U.

Hypothesis fixed : fixed_line_buffer cfg alloc.

(** The parse of the first [k] lines ends in the state after these lines,
    or earlier when stop-on-first-error has ended it. *)
Lemma parse_of_lines_state k :
  let lines := physical_lines (c_str string) in
  k <= length lines ->
  exists j,
    j <= k /\
    parse_of_lines cfg alloc handler lines u k =
      Some (mkOutcome (error (state_after cfg handler u lines j))
                      (state_after cfg handler u lines j)
                      (concat (skipn j (firstn k lines)))) /\
    (INI_STOP_ON_FIRST_ERROR cfg = false -> j = k) /\
    (j < k -> error (state_after cfg handler u lines j) <> 0%Z).
Proof.
  intros lines Hk. unfold parse_of_lines.
  destruct (ini_parse_string_lines cfg alloc handler
              (concat (firstn k lines)) u fixed)
    as (j & Hj & Hrun & Hall & Herr).
  cbv zeta in Hj, Hrun, Hall, Herr.
  subst lines.
  rewrite c_str_concat_firstn, physical_lines_prefix in *
    by apply c_str_idem.
  set (lines := physical_lines (c_str string)) in *.
  rewrite length_firstn in Hj, Hall, Herr.
  replace (Nat.min k (length lines)) with k in * by lia.
  assert (E : firstn j (firstn k lines) = firstn j lines).
  { rewrite firstn_firstn. f_equal. lia. }
  rewrite E in *.
  exists j. split; [exact Hj|]. split; [exact Hrun|].
  split; [exact Hall|exact Herr].
Qed.

(** The name remembered at line [n] is the one in the state after the
    lines before it, when the parse gets that far. *)
Lemma remembered_at_state n :
  let lines := physical_lines (c_str string) in
  (1 <= n)%Z -> Z.to_nat (n - 1) <= length lines ->
  INI_STOP_ON_FIRST_ERROR cfg = false \/
  error (state_after cfg handler u lines (Z.to_nat (n - 1))) = 0%Z ->
  remembered_at cfg alloc handler lines u n
  = prev_name (state_after cfg handler u lines (Z.to_nat (n - 1))).
Proof.
  intros lines Hn Hk Hgo. unfold remembered_at.
  destruct (parse_of_lines_state (Z.to_nat (n - 1)) Hk)
    as (j & Hj & Hrun & Hall & Herr).
  fold lines in Hrun, Hall, Herr. rewrite Hrun. cbn [final].
  assert (E : j = Z.to_nat (n - 1)).
  { destruct Hgo as [Hstop|He]; [auto|].
    destruct (Nat.eq_dec j (Z.to_nat (n - 1))) as [E|E]; [exact E|].
    exfalso. apply (Herr ltac:(lia)).
    apply (state_after_zero cfg handler u lines j (Z.to_nat (n - 1)));
      [lia|exact He]. }
  rewrite E. reflexivity.
Qed.

(** One step of the parse while no error is recorded. *)
Lemma state_after_step k :
  let lines := physical_lines (c_str string) in
  k < length lines ->
  error (state_after cfg handler u lines k) = 0%Z ->
  let pl := nth k lines [] in
  let st' := state_after cfg handler u lines (S k) in
  (error st' = 0%Z /\ length pl < buffer_size cfg /\
   (~ ill_formed cfg (prev_name (state_after cfg handler u lines k))
        (Z.of_nat (S k)) (firstn (buffer_size cfg - 1) pl)) /\
   (forall c, In c (calls st') -> c_result c <> 0%Z)) \/
  (error st' = Z.of_nat (S k) /\
   (buffer_size cfg <= length pl \/
    ill_formed cfg (prev_name (state_after cfg handler u lines k))
      (Z.of_nat (S k)) (firstn (buffer_size cfg - 1) pl) \/
    exists c, In c (calls st') /\ c_lineno c = Z.of_nat (S k) /\
              c_result c = 0%Z)).
Proof.
  intros lines Hk He pl st'.
  destruct fixed as [_ Hm].
  destruct (Z.eq_dec (error st') 0) as [E|E].
  - left. split; [exact E|].
    destruct (state_after_no_error cfg handler u lines (S k) Hm
                ltac:(lia) E) as [H1 H2].
    destruct (H1 k ltac:(lia)) as [H3 H4]. auto.
  - right.
    pose proof (line_step_first_error cfg handler
                  (state_after cfg handler u lines k) (nth k lines []))
      as H.
    rewrite state_after_max_line, state_after_lineno in H by lia.
    rewrite <- state_after_S in H by lia.
    cbv zeta in H.
    replace (Z.of_nat k + 1)%Z with (Z.of_nat (S k)) in H by lia.
    destruct (H ltac:(lia) ltac:(lia) He) as [(H1 & _)|H1];
      [contradiction|exact H1].
Qed.

(** The value [ini_parse_string] returns is the number of the first line
    in error, and 0 when there is none. *)
Lemma ini_parse_string_first_bad :
  let lines := physical_lines (c_str string) in
  exists o,
    ini_parse_string cfg alloc handler string u = Some o /\
    let bad := bad_line cfg alloc handler lines u o in
    let N := Z.of_nat (length lines) in
    (ret o = 0%Z <-> forall n, (1 <= n <= N)%Z -> ~ bad n) /\
    (forall n, (1 <= n <= N)%Z -> bad n ->
               (forall i, (1 <= i < n)%Z -> ~ bad i) -> ret o = n) /\
    (INI_STOP_ON_FIRST_ERROR cfg = false ->
     rest o = [] /\ lineno (final o) = N).
Proof.
  intros lines.
  destruct (ini_parse_string_lines cfg alloc handler string u fixed)
    as (j & Hj & Hrun & Hall & Herr).
  cbv zeta in Hj, Hrun, Hall, Herr. fold lines in Hj, Hrun, Hall, Herr.
  fold (state_after cfg handler u lines j) in Hrun, Herr.
  pose proof fixed as [_ Hm].
  eexists. split; [exact Hrun|]. cbv zeta. cbn [ret final rest].
  set (o := mkOutcome _ _ _).
  (* a state without error is one the parse goes through *)
  assert (Hreach : forall k,
    k < length lines ->
    error (state_after cfg handler u lines k) = 0%Z -> k < j).
  { intros k Hk He.
    destruct (Nat.lt_ge_cases k j) as [H|H]; [exact H|].
    exfalso. apply (Herr ltac:(lia)).
    apply (state_after_zero cfg handler u lines j k H He). }
  (* what [bad_line] says of a line the parse gets to *)
  assert (Hbad : forall k,
    k < length lines ->
    error (state_after cfg handler u lines k) = 0%Z ->
    bad_line cfg alloc handler lines u o (Z.of_nat (S k)) <->
    (buffer_size cfg <= length (nth k lines []) \/
     ill_formed cfg (prev_name (state_after cfg handler u lines k))
       (Z.of_nat (S k)) (firstn (buffer_size cfg - 1) (nth k lines [])) \/
     exists c, In c (calls (state_after cfg handler u lines j)) /\
               c_lineno c = Z.of_nat (S k) /\ c_result c = 0%Z)).
  { intros k Hk He. unfold bad_line. cbv zeta.
    pose proof (remembered_at_state (Z.of_nat (S k))) as Hr.
    cbv zeta in Hr. fold lines in Hr.
    replace (Z.to_nat (Z.of_nat (S k) - 1)) with k in * by lia.
    rewrite Hr by (auto; lia). reflexivity. }
  (* a line in error while no error is recorded sets the error *)
  assert (Hset : forall k,
    k < length lines ->
    error (state_after cfg handler u lines k) = 0%Z ->
    bad_line cfg alloc handler lines u o (Z.of_nat (S k)) ->
    error (state_after cfg handler u lines j) = Z.of_nat (S k)).
  { intros k Hk He Hb. apply (Hbad k Hk He) in Hb.
    pose proof (Hreach k Hk He) as Hkj.
    assert (Hn : error (state_after cfg handler u lines (S k))
                 = Z.of_nat (S k)).
    { pose proof (state_after_step k Hk He) as Hs.
      cbv zeta in Hs. fold lines in Hs.
      destruct Hs as [(H1 & H2 & H3 & H4)|[H1 _]]; [|exact H1].
      exfalso. destruct Hb as [Hb|[Hb|(c & Hin & Hc & Hr)]];
        [lia|contradiction|].
      apply (H4 c); [|exact Hr].
      apply (state_after_calls_before cfg handler u lines (S k) j c);
        auto; lia. }
    rewrite (state_after_sticky cfg handler u lines (S k) j) by lia.
    exact Hn. }
  (* the error recorded is the number of a line in error *)
  assert (Hfirst :
    error (state_after cfg handler u lines j) <> 0%Z ->
    exists k,
      k < j /\ error (state_after cfg handler u lines j) = Z.of_nat (S k) /\
      error (state_after cfg handler u lines k) = 0%Z /\
      bad_line cfg alloc handler lines u o (Z.of_nat (S k))).
  { intros He.
    destruct (state_after_error cfg handler u lines j Hm Hj He)
      as (k & Hk & H1 & H2 & H3).
    exists k. repeat split; auto.
    apply (Hbad k ltac:(lia) H2).
    destruct H3 as [H3|[H3|(c & Hin & Hc & Hr)]]; auto.
    right; right. exists c. repeat split; auto.
    apply (state_after_calls_incl cfg handler u lines (S k) j c); auto. }
  split; [split|split].
  - intros He n Hn Hb.
    replace n with (Z.of_nat (S (Z.to_nat (n - 1)))) in Hb by lia.
    assert (Hz : error (state_after cfg handler u lines (Z.to_nat (n - 1)))
                 = 0%Z).
    { destruct (Nat.le_gt_cases (Z.to_nat (n - 1)) j) as [H|H].
      - apply (state_after_zero cfg handler u lines _ j H He).
      - exfalso. apply (Herr ltac:(lia)). exact He. }
    rewrite (Hset (Z.to_nat (n - 1)) ltac:(lia) Hz Hb) in He. lia.
  - intros Hnone.
    destruct (Z.eq_dec (error (state_after cfg handler u lines j)) 0)
      as [E|E]; [exact E|].
    exfalso. destruct (Hfirst E) as (k & Hk & _ & _ & Hb).
    apply (Hnone (Z.of_nat (S k))); [lia|exact Hb].
  - intros n Hn Hb Hleast.
    assert (Hz : error (state_after cfg handler u lines (Z.to_nat (n - 1)))
                 = 0%Z).
    { destruct (Z.eq_dec
                  (error (state_after cfg handler u lines
                            (Z.to_nat (n - 1)))) 0) as [E|E]; [exact E|].
      exfalso.
      destruct (state_after_error cfg handler u lines (Z.to_nat (n - 1))
                  Hm ltac:(lia) E) as (k & Hk & _ & H2 & H3).
      apply (Hleast (Z.of_nat (S k))); [lia|].
      apply (Hbad k ltac:(lia) H2).
      destruct H3 as [H3|[H3|(c & Hin & Hc & Hr)]]; auto.
      right; right. exists c. repeat split; auto.
      pose proof (Hreach k ltac:(lia) H2) as Hkj.
      apply (state_after_calls_incl cfg handler u lines (S k) j c); auto. }
    replace n with (Z.of_nat (S (Z.to_nat (n - 1)))) in Hb |- * by lia.
    apply Hset; auto; lia.
  - intros Hstop. specialize (Hall Hstop). subst j.
    rewrite skipn_all. split; [reflexivity|].
    apply state_after_lineno. lia.
Qed.

End Prefix.

(** C1.  [ini_parse_stream] returns the number of the first line at which
    it met a malformed line or a rejected callback, and 0 when there is
    none; with stop-on-first-error off it goes on to the end of the input
    and keeps that number.

    For a string parsed with a line buffer of fixed size this is said of
    the physical lines of the string: a line is in error ([bad_line]) when
    it does not fit the line buffer, when it is malformed, or when the
    handler has rejected the call made for it; the parse returns 0 exactly
    when no line is in error, and else the number of the first line that
    is; with stop-on-first-error off it has then read every line.

    For every reader for which the loop returns, the value returned is the
    head of the log of the line numbers at which an error was met (0 when
    the log is empty), no later entry of the log is lower, every rejected
    call is in the log, and with stop-on-first-error off the loop has run
    until the reader reported the end of the input.

    The line counter is an [int]: both parts are about inputs of at most
    [INT_MAX] lines. *)
Theorem ini_parse_stream_first_error {U} cfg alloc (handler : ini_handler U) :
  (forall string u,
      fixed_line_buffer cfg alloc ->
      let lines := physical_lines (c_str string) in
      let N := Z.of_nat (length lines) in
      (N <= INT_MAX)%Z ->
      exists o,
        ini_parse_string cfg alloc handler string u = Some o /\
        let bad := bad_line cfg alloc handler lines u o in
        (ret o = 0%Z <-> forall n, (1 <= n <= N)%Z -> ~ bad n) /\
        (forall n, (1 <= n <= N)%Z -> bad n ->
                   (forall i, (1 <= i < n)%Z -> ~ bad i) -> ret o = n) /\
        (INI_STOP_ON_FIRST_ERROR cfg = false ->
         rest o = [] /\ lineno (final o) = N)) /\
  (forall Stream (reader : nat -> Stream -> option (list ascii * Stream))
          fuel stream u o,
      allocates alloc ->
      ini_parse_stream cfg alloc reader handler fuel stream u = Some o ->
      (lineno (final o) <= INT_MAX)%Z ->
      reports_first_error cfg reader o).
Proof.
  split.
  - intros string u Hbuf lines N _.
    apply (ini_parse_string_first_bad cfg alloc handler string u Hbuf).
  - intros Stream reader fuel stream u o Ha H _.
    eapply ini_parse_stream_inv; eauto.
Qed.

(** The parse of [two_errors] returns 1: its first line, a section header
    without closing bracket, is the first line in error. *)
Lemma ini_parse_stream_first_error_witness :
  exists o,
    ini_parse_string default_config always_allocates accept_all
      two_errors tt = Some o /\
    ret o = 1%Z /\ rest o = [] /\ lineno (final o) = 3%Z.
Proof.
  destruct (proj1 (ini_parse_stream_first_error default_config
                     always_allocates accept_all)
              two_errors tt default_fixed_line_buffer)
    as (o & Ho & _ & Hfirst & Hall).
  - intros H; discriminate H.
  - exists o. split; [exact Ho|]. split.
    + apply Hfirst.
      * split; [reflexivity|intros H; discriminate H].
      * right. left. split; [reflexivity|]. split; [reflexivity|].
        unfold well_formed_text. cbn [deref stripped].
        intros H. apply separated_bracket in H. discriminate H.
      * intros i Hi. lia.
    + apply Hall. reflexivity.
Defined.

(** ** Section scoping (C2) *)

Section Reach.

Context {U : Type}.
Variable cfg : config.
Variable alloc : allocator.
Variable handler : ini_handler U.

(** With stop-on-first-error the loop goes on only while no error is
    recorded. *)
Lemma ini_parse_loop_lines_stop fuel (st : state U) s :
  fixed_buffer cfg -> 2 <= max_line st -> c_str s = s -> length s < fuel ->
  INI_STOP_ON_FIRST_ERROR cfg = true -> error st = 0%Z ->
  exists j,
    j <= length (physical_lines s) /\
    let st' :=
      ini_parse_lines cfg handler st (firstn j (physical_lines s)) in
    ini_parse_loop cfg alloc ini_reader_string handler fuel st s =
      Some (mkOutcome (error st') st'
                      (concat (skipn j (physical_lines s)))) /\
    (forall m, m < j ->
       error (ini_parse_lines cfg handler st (firstn m (physical_lines s)))
       = 0%Z) /\
    (j < length (physical_lines s) -> error st' <> 0%Z).
Proof.
  intros Hfix.
  revert st s; induction fuel as [|fuel IH]; intros st s Hm Hs Hlen Hstop He;
    [lia|].
  destruct s as [|c s].
  { exists 0; simpl. repeat split; auto; lia. }
  rewrite (ini_parse_loop_step cfg alloc handler fuel st c s Hfix Hm Hs)
    by (simpl in *; lia).
  cbv zeta. rewrite physical_lines_first_line.
  pose proof (first_line_app (c :: s)) as Happ.
  pose proof (first_line_nonempty c s) as Hne.
  set (pl := fst (first_line (c :: s))) in *.
  set (rs := snd (first_line (c :: s))) in *.
  assert (Hrs : c_str rs = rs).
  { apply (c_str_app_inv pl rs). rewrite Happ. exact Hs. }
  assert (Hls : length rs < length (c :: s)).
  { rewrite <- Happ, length_app. destruct pl; [congruence|simpl; lia]. }
  set (st3 := line_step cfg handler st pl).
  rewrite Hstop. cbn [andb].
  destruct (Z.eqb_spec (error st3) 0) as [E|E]; cbn [negb].
  - destruct (IH st3 rs) as (j & Hj & Hrun & Hzero & Herr); auto.
    { unfold st3. rewrite line_step_max_line. exact Hm. }
    { simpl in *; lia. }
    exists (S j). cbn [firstn skipn length].
    rewrite ini_parse_lines_cons. fold st3.
    cbv zeta in Hrun. rewrite Hrun.
    split; [lia|]. split; [reflexivity|]. split.
    + intros [|m] Hmj; [exact He|].
      cbn [firstn]. rewrite ini_parse_lines_cons. apply Hzero. lia.
    + intros Hlt. apply Herr. lia.
  - exists 1. cbn [firstn skipn length].
    rewrite ini_parse_lines_cons. fold st3.
    rewrite concat_physical_lines.
    split; [lia|]. split; [reflexivity|]. split.
    + intros m Hm1. replace m with 0 by lia. exact He.
    + intros _. exact E.
Qed.

(** The parse of a string ends in the state after [j] of its lines, and
    every line up to that one was reached with stop-on-first-error off or
    without an error recorded. *)
Lemma ini_parse_string_reach string (u : U) :
  fixed_line_buffer cfg alloc ->
  let lines := physical_lines (c_str string) in
  exists j,
    j <= length lines /\
    ini_parse_string cfg alloc handler string u =
      Some (mkOutcome (error (state_after cfg handler u lines j))
                      (state_after cfg handler u lines j)
                      (concat (skipn j lines))) /\
    (forall m, m < j ->
       INI_STOP_ON_FIRST_ERROR cfg = false \/
       error (state_after cfg handler u lines m) = 0%Z).
Proof.
  intros Hbuf lines.
  destruct (INI_STOP_ON_FIRST_ERROR cfg) eqn:Hstop.
  - destruct Hbuf as [Hb Hm].
    unfold ini_parse_string, ini_parse_string_length, ini_parse_stream.
    assert (Hok : negb (INI_USE_STACK cfg)
                  && negb (ini_malloc alloc (INI_INITIAL_ALLOC cfg)) = false).
    { destruct Hb as [-> | [_ ->]]; auto using andb_false_r. }
    rewrite Hok.
    assert (Hcs : firstn (strlen string) string = c_str string).
    { unfold strlen. clear. induction string as [|c s IH]; simpl; auto.
      destruct (Ascii.eqb c NUL); simpl; congruence. }
    rewrite Hcs.
    assert (Hfix : fixed_buffer cfg).
    { destruct Hb as [H | [H _]]; [left|right]; auto. }
    destruct (ini_parse_loop_lines_stop (S (strlen string))
                (initial_state cfg u) (c_str string) Hfix Hm
                (c_str_idem string) ltac:(unfold strlen; lia)
                Hstop eq_refl)
      as (j & Hj & Hrun & Hzero & _).
    exists j. split; [exact Hj|]. split; [exact Hrun|].
    intros m Hmj. right. apply Hzero. exact Hmj.
  - destruct (ini_parse_string_lines cfg alloc handler string u Hbuf)
      as (j & Hj & Hrun & _).
    exists j. split; [exact Hj|]. split; [exact Hrun|].
    intros m _. left. reflexivity.
Qed.

End Reach.

Section Taken.

Context {U : Type}.
Variable cfg : config.
Variable handler : ini_handler U.

Lemma continues_no_name (st : state U) line :
  INI_ALLOW_MULTILINE cfg && nonempty (prev_name st)
  && indented cfg (lineno st) line = false ->
  continues cfg st line = false.
Proof.
  unfold continues. intros H.
  destruct (INI_ALLOW_MULTILINE cfg), (nonempty (prev_name st)),
    (indented cfg (lineno st) line); cbn in *;
    rewrite ?andb_false_r; auto; discriminate.
Qed.

(** A well-formed header that is not taken as a continuation line sets the
    section. *)
Lemma line_step_sets_section (st : state U) pl name tail :
  let n := (lineno st + 1)%Z in
  let line := firstn (max_line st - 1) pl in
  strchr (INI_START_COMMENT_PREFIXES cfg) "[" = false ->
  INI_ALLOW_MULTILINE cfg && nonempty (prev_name st) && indented cfg n line
  = false ->
  stripped cfg n line = "[" :: name ++ "]" :: tail ->
  plain cfg (cs "]") name ->
  section (line_step cfg handler st pl) = firstn 49 name.
Proof.
  intros n line Hcomment Hind Hst Hplain.
  destruct (line_step_fields_before cfg handler st pl)
    as (Heq & Hm & Hs & Hp & Hl & Hu & Hc).
  set (st1 := Nat.iter _ record_error _) in *.
  rewrite Heq. fold line. subst n. rewrite <- Hl, <- Hp in Hind.
  rewrite <- Hl in Hst.
  rewrite (ini_parse_line_section cfg handler st1 line name tail); auto.
  - destruct (enter_section_same_logs cfg st1 name) as [_ Hsec].
    destruct (INI_CALL_HANDLER_ON_NEW_SECTION cfg); auto.
    pose proof (handler_or_error_fields cfg handler
      (enter_section cfg st1 name) (section (enter_section cfg st1 name))
      None None) as H.
    cbv zeta in H. destruct H as (_ & -> & _). exact Hsec.
  - unfold comment_or_blank. rewrite Hst. exact Hcomment.
  - apply continues_no_name; auto.
Qed.

(** After a well-formed header that is not taken as a continuation line
    the section is its name until the next well-formed header. *)
Lemma ini_parse_lines_sets_section (st : state U) lines i j name tail :
  i < j -> i < length lines ->
  let n := (lineno st + Z.of_nat i + 1)%Z in
  let line := firstn (max_line st - 1) (nth i lines []) in
  strchr (INI_START_COMMENT_PREFIXES cfg) "[" = false ->
  INI_ALLOW_MULTILINE cfg
  && nonempty (prev_name (ini_parse_lines cfg handler st (firstn i lines)))
  && indented cfg n line = false ->
  stripped cfg n line = "[" :: name ++ "]" :: tail ->
  plain cfg (cs "]") name ->
  (forall k, i < k -> k < j -> k < length lines ->
     section_header cfg (lineno st + Z.of_nat k + 1)
       (firstn (max_line st - 1) (nth k lines [])) = false) ->
  section (ini_parse_lines cfg handler st (firstn j lines)) = firstn 49 name.
Proof.
  revert st i j; induction lines as [|pl lines IH];
    intros st i j Hij Hi n line Hcomment Hind Hst Hplain Hnone;
    [simpl in Hi; lia|].
  destruct j as [|j]; [lia|].
  cbn [firstn]. rewrite ini_parse_lines_cons.
  destruct (line_step_calls cfg handler st pl) as (Hl & Hm & _).
  destruct i as [|i].
  - rewrite (ini_parse_lines_section cfg handler).
    + subst n line. cbn [nth firstn] in *.
      replace (lineno st + Z.of_nat 0 + 1)%Z with (lineno st + 1)%Z
        in * by lia.
      eapply line_step_sets_section; eauto.
    + intros k Hk Hk'. rewrite Hl, Hm.
      specialize (Hnone (S k) ltac:(lia) ltac:(lia) ltac:(simpl; lia)).
      cbn [nth] in Hnone. rewrite <- Hnone. f_equal. lia.
  - apply (IH _ i j); try (simpl in Hi; lia); auto.
    + subst n line. rewrite Hl, Hm. cbn [nth firstn] in Hind.
      rewrite ini_parse_lines_cons in Hind.
      rewrite <- Hind. do 2 f_equal. lia.
    + subst n line. rewrite Hl, Hm. cbn [nth] in Hst.
      rewrite <- Hst. f_equal. lia.
    + intros k Hk Hk' Hk''. rewrite Hl, Hm.
      specialize (Hnone (S k) ltac:(lia) ltac:(lia) ltac:(simpl; lia)).
      cbn [nth] in Hnone. rewrite <- Hnone. f_equal. lia.
Qed.

End Taken.

(** C2 as stated fails: in the default configuration an indented section
    header that follows a key is read as a continuation of that key's
    value.  Line 2 of [indented_header_input] is the well-formed header
    "[foo]", no header follows it, and the call for the key on line 3 has the
    empty section. *)
Lemma section_scoping_counterexample :
  exists o,
    ini_parse_string default_config always_allocates accept_all
      indented_header_input tt = Some o /\
    let line := line_at 200 (physical_lines indented_header_input) in
    stripped default_config 2 (line 2%Z) = cs "[foo]" /\
    section_header default_config 2 (line 2%Z) = true /\
    section_header default_config 3 (line 3%Z) = false /\
    map call_args (calls (final o)) =
      [(1%Z, [], Some (cs "a"), Some (cs "1"));
       (2%Z, [], Some (cs "a"), Some (cs "[foo]"));
       (3%Z, [], Some (cs "b"), Some (cs "2"))].
Proof.
  eexists. split; [vm_compute; reflexivity|].
  repeat split; reflexivity.
Qed.

(** C2, as amended.  Every call of the handler made before any well-formed
    section header carries the empty section; every call made at or after a
    well-formed header that is not read as a continuation line, and before
    the next well-formed header, carries that header's name, cut to 49
    characters.  A header is read as a continuation line when continuation
    lines are allowed, a name is remembered and the header is indented;
    so it is not when continuation lines are off, on the first line, or
    when the header is not indented.  Lines are numbered from 1 and
    [line_at] gives the text of a line as the line buffer holds it. *)
Theorem section_scoping {U} cfg alloc (handler : ini_handler U) string u :
  fixed_line_buffer cfg alloc ->
  exists o,
    ini_parse_string cfg alloc handler string u = Some o /\
    let lines := physical_lines (c_str string) in
    let line := line_at (buffer_size cfg) lines in
    let continuation i :=
      INI_ALLOW_MULTILINE cfg
      && nonempty (remembered_at cfg alloc handler lines u i)
      && indented cfg i (line i) in
    (forall c,
        In c (calls (final o)) ->
        (forall k, (1 <= k <= c_lineno c)%Z ->
                   section_header cfg k (line k) = false) ->
        c_section c = []) /\
    (forall c i name tail,
        In c (calls (final o)) ->
        (1 <= i <= c_lineno c)%Z ->
        strchr (INI_START_COMMENT_PREFIXES cfg) "[" = false ->
        continuation i = false ->
        stripped cfg i (line i) = "[" :: name ++ "]" :: tail ->
        plain cfg (cs "]") name ->
        (forall k, (i < k <= c_lineno c)%Z ->
                   section_header cfg k (line k) = false) ->
        c_section c = firstn 49 name) /\
    (forall i, may_continue cfg i (line i) = false ->
               continuation i = false).
Proof.
  intros Hbuf.
  destruct (ini_parse_string_reach cfg alloc handler string u Hbuf)
    as (j & Hj & Hrun & Hreach).
  cbv zeta in Hj, Hrun, Hreach.
  set (lines := physical_lines (c_str string)) in *.
  eexists. split; [exact Hrun|]. cbn [final]. cbv zeta.
  assert (Hcall : forall c,
    In c (calls (state_after cfg handler u lines j)) ->
    exists k, k < j /\ c_lineno c = (Z.of_nat k + 1)%Z /\
      c_section c = section (state_after cfg handler u lines (S k))).
  { intros c Hin. apply ini_parse_lines_calls in Hin.
    destruct Hin as [[] | (k & Hk & Hn & Hs)].
    rewrite length_firstn in Hk.
    exists k. split; [lia|].
    split; [cbn [lineno initial_state] in Hn; lia|].
    rewrite Hs, firstn_firstn.
    replace (Nat.min (S k) j) with (S k) by lia. reflexivity. }
  assert (Hat : forall k,
    line_at (buffer_size cfg) lines (Z.of_nat k + 1)
    = firstn (max_line (initial_state cfg u) - 1) (nth k lines [])).
  { intros k. unfold line_at. do 2 f_equal. lia. }
  split; [|split].
  - intros c Hin Hnone.
    destruct (Hcall c Hin) as (k & Hk & Hn & ->).
    apply (ini_parse_lines_section cfg handler).
    intros k' Hk1 Hk2. rewrite <- Hat.
    cbn [lineno initial_state]. apply Hnone. lia.
  - intros c i name tail Hin Hi Hcomment Hind Hst Hplain Hnone.
    destruct (Hcall c Hin) as (k & Hk & Hn & ->).
    pose proof (remembered_at_state cfg alloc handler string u Hbuf i) as Hr.
    cbv zeta in Hr. fold lines in Hr.
    rewrite Hr in Hind by (try apply Hreach; lia).
    change (line_at (buffer_size cfg) lines i)
      with (firstn (max_line (initial_state cfg u) - 1)
                   (nth (Z.to_nat (i - 1)) lines [])) in Hind, Hst.
    assert (En : (lineno (initial_state cfg u)
                  + Z.of_nat (Z.to_nat (i - 1)) + 1)%Z = i)
      by (cbn [lineno initial_state]; lia).
    apply (ini_parse_lines_sets_section cfg handler (initial_state cfg u)
             lines (Z.to_nat (i - 1)) (S k) name tail); auto; try lia.
    + rewrite En. exact Hind.
    + rewrite En. exact Hst.
    + intros k' Hk1 Hk2 Hk3. rewrite <- Hat.
      cbn [lineno initial_state]. apply Hnone. lia.
  - intros i Hmay.
    unfold may_continue in Hmay.
    destruct (INI_ALLOW_MULTILINE cfg); [|reflexivity].
    destruct (indented cfg i _); [|apply andb_false_r].
    destruct (Z.eqb_spec i 1) as [E|Hne]; [|discriminate Hmay].
    pose proof (remembered_at_state cfg alloc handler string u Hbuf i) as Hr.
    cbv zeta in Hr. fold lines in Hr.
    rewrite Hr by (try (right; rewrite E; reflexivity); rewrite E; simpl; lia).
    rewrite E. reflexivity.
Qed.

Lemma section_scoping_witness :
  fixed_line_buffer default_config always_allocates /\
  exists o,
    ini_parse_string default_config always_allocates accept_all
      scoped_input tt = Some o /\
    (forall c, In c (calls (final o)) -> c_lineno c = 1%Z ->
               c_section c = []) /\
    (forall c, In c (calls (final o)) -> c_lineno c = 3%Z ->
               c_section c = cs "foo").
Proof.
  split; [exact default_fixed_line_buffer|].
  pose proof (section_scoping default_config always_allocates accept_all
                scoped_input tt default_fixed_line_buffer) as H.
  cbv zeta in H. destruct H as (o & Ho & Ha & Hb & Hc).
  exists o. split; [exact Ho|]. split.
  - intros c Hin Hl. apply Ha; [exact Hin|].
    intros k Hk. rewrite Hl in Hk.
    assert (E : k = 1%Z) by lia. rewrite E. vm_compute. reflexivity.
  - intros c Hin Hl.
    apply (Hb c 2%Z (cs "foo") []); try exact Hin.
    + rewrite Hl. lia.
    + reflexivity.
    + apply Hc. vm_compute. reflexivity.
    + vm_compute. reflexivity.
    + split; reflexivity.
    + intros k Hk. rewrite Hl in Hk.
      assert (E : k = 3%Z) by lia. rewrite E. vm_compute. reflexivity.
Defined.

(** ** Blank lines and comments (C9) *)

Lemma first_line_skipn_lines s m :
  m < length (physical_lines s) ->
  first_line (concat (skipn m (physical_lines s)))
  = (nth m (physical_lines s) [], concat (skipn (S m) (physical_lines s))).
Proof.
  remember (length s) as n eqn:Hn. revert s m Hn.
  induction n as [n IH] using lt_wf_ind. intros s m Hn Hm.
  destruct s as [|c s]; [simpl in Hm; lia|].
  rewrite physical_lines_first_line in *.
  pose proof (first_line_app (c :: s)) as Happ.
  pose proof (first_line_nonempty c s) as Hne.
  set (pl := fst (first_line (c :: s))) in *.
  set (rs := snd (first_line (c :: s))) in *.
  destruct m as [|m].
  - cbn [skipn nth concat]. rewrite concat_physical_lines, Happ.
    apply surjective_pairing.
  - cbn [skipn nth]. cbn [length] in Hm.
    apply (IH (length rs)); [|reflexivity|lia].
    subst n. rewrite <- Happ, length_app.
    destruct pl; [congruence|simpl; lia].
Qed.

Lemma length_concat_skipn s m :
  length (concat (skipn m (physical_lines s))) <= length s.
Proof.
  pose proof (concat_physical_lines s) as Hc.
  rewrite <- (firstn_skipn m (physical_lines s)), concat_app in Hc.
  apply (f_equal (@length _)) in Hc. rewrite length_app in Hc. lia.
Qed.

Lemma c_str_concat_skipn s m :
  c_str s = s ->
  c_str (concat (skipn m (physical_lines s)))
  = concat (skipn m (physical_lines s)).
Proof.
  intros Hs.
  pose proof (concat_physical_lines s) as Hc.
  rewrite <- (firstn_skipn m (physical_lines s)), concat_app in Hc.
  rewrite <- Hc in Hs. apply c_str_app_inv in Hs. tauto.
Qed.

Lemma set_lineno_set_lineno {U} (st : state U) a b :
  set_lineno (set_lineno st a) b = set_lineno st b.
Proof. reflexivity. Qed.

Section Comments.

Context {U : Type}.
Variable cfg : config.
Variable alloc : allocator.
Variable handler : ini_handler U.

(** On a string the result of the loop does not depend on the fuel, once
    there is enough of it. *)
Lemma ini_parse_loop_fuel f1 f2 (st : state U) s :
  length s < f1 -> length s < f2 ->
  ini_parse_loop cfg alloc ini_reader_string handler f1 st s
  = ini_parse_loop cfg alloc ini_reader_string handler f2 st s.
Proof.
  intros H1 H2.
  destruct (ini_parse_loop_total cfg alloc handler f1 st s H1) as [o1 Ho1].
  destruct (ini_parse_loop_total cfg alloc handler f2 st s H2) as [o2 Ho2].
  destruct (Nat.le_ge_cases f1 f2) as [H|H].
  - pose proof (ini_parse_loop_more cfg alloc ini_reader_string handler
                  f1 (f2 - f1) st s o1 Ho1) as Hm.
    replace (f1 + (f2 - f1)) with f2 in Hm by lia. congruence.
  - pose proof (ini_parse_loop_more cfg alloc ini_reader_string handler
                  f2 (f1 - f2) st s o2 Ho2) as Hm.
    replace (f2 + (f1 - f2)) with f1 in Hm by lia. congruence.
Qed.

(** The loop never takes back a call. *)
Lemma ini_parse_loop_keeps_calls {Stream}
    (reader : nat -> Stream -> option (list ascii * Stream))
    fuel (st : state U) stream o c :
  ini_parse_loop cfg alloc reader handler fuel st stream = Some o ->
  In c (calls st) -> In c (calls (final o)).
Proof.
  intros H Hin.
  apply (ini_parse_loop_rule cfg alloc reader handler
           (fun s => In c (calls s)) (fun s => In c (calls s))
           (fun s => In c (calls s))) in H; auto.
  - destruct H as [[H|H] _]; exact H.
  - intros s line Hs.
    destruct (ini_parse_line_calls cfg handler s line) as [Hc _].
    cbv zeta in Hc. destruct Hc as [-> | (n & v & r & ->)]; auto.
    apply in_or_app; left; exact Hs.
Qed.

(** Blank lines and comments at the head of the input: the loop reads them
    and goes on with the lines after them in a state that differs from the
    one it started in by the line number, and by the errors recorded for
    those too long for the line buffer. *)
Lemma ini_parse_loop_comments m :
  fixed_buffer cfg ->
  forall fuel (st : state U) s,
    2 <= max_line st -> c_str s = s -> length s < fuel ->
    m <= length (physical_lines s) ->
    (forall i, i < m ->
       comment_or_blank cfg (lineno st + Z.of_nat i + 1)
         (firstn (max_line st - 1) (nth i (physical_lines s) [])) = true) ->
    INI_STOP_ON_FIRST_ERROR cfg = false \/
    (error st = 0%Z /\
     forall i, i < m -> length (nth i (physical_lines s) []) < max_line st) ->
    exists st1,
      ini_parse_loop cfg alloc ini_reader_string handler fuel st s
      = ini_parse_loop cfg alloc ini_reader_string handler fuel st1
          (concat (skipn m (physical_lines s))) /\
      max_line st1 = max_line st /\ section st1 = section st /\
      prev_name st1 = prev_name st /\ user st1 = user st /\
      calls st1 = calls st /\
      lineno st1 = (lineno st + Z.of_nat m)%Z /\
      ((forall i, i < m ->
          length (nth i (physical_lines s) []) < max_line st) ->
       st1 = set_lineno st (lineno st + Z.of_nat m)).
Proof.
  intros Hfix. induction m as [|m IH]; intros fuel st s Hm Hs Hlen Hle Hcom Hgo.
  - exists st. cbn [skipn]. rewrite concat_physical_lines.
    repeat split; try lia.
    intros _. destruct st; unfold set_lineno; cbn. f_equal. lia.
  - destruct s as [|c s]; [simpl in Hle; lia|].
    destruct fuel as [|fuel]; [lia|].
    rewrite (ini_parse_loop_step cfg alloc handler fuel st c s Hfix Hm Hs)
      by (simpl in *; lia).
    cbv zeta.
    rewrite physical_lines_first_line in *.
    pose proof (first_line_app (c :: s)) as Happ.
    pose proof (first_line_nonempty c s) as Hne.
    set (pl := fst (first_line (c :: s))) in *.
    set (rs := snd (first_line (c :: s))) in *.
    assert (Hrs : c_str rs = rs).
    { apply (c_str_app_inv pl rs). rewrite Happ. exact Hs. }
    assert (Hls : length rs < length (c :: s)).
    { rewrite <- Happ, length_app. destruct pl; [congruence|simpl; lia]. }
    pose proof (Hcom 0 ltac:(lia)) as Hc0. cbn [nth] in Hc0.
    replace (lineno st + Z.of_nat 0 + 1)%Z with (lineno st + 1)%Z in Hc0
      by lia.
    destruct (line_step_comment cfg handler st pl Hc0)
      as (Hm3 & Hs3 & Hp3 & Hl3 & Hu3 & Hc3).
    set (st3 := line_step cfg handler st pl) in *.
    assert (Hfit3 : length pl < max_line st ->
                    st3 = set_lineno st (lineno st + 1)).
    { intros Hfit. apply line_step_fits_comment; [exact Hfit|].
      rewrite firstn_all2 in Hc0 by lia. exact Hc0. }
    assert (Hnext : INI_STOP_ON_FIRST_ERROR cfg
                    && negb (Z.eqb (error st3) 0) = false).
    { destruct Hgo as [->|[He Hfit]]; [reflexivity|].
      rewrite (Hfit3 (Hfit 0 ltac:(lia))). cbn [error set_lineno].
      rewrite He. apply andb_false_r. }
    rewrite Hnext.
    destruct (IH fuel st3 rs) as (st1 & Hrun & H1 & H2 & H3 & H4 & H5 & H6 & H7).
    + lia.
    + exact Hrs.
    + simpl in *; lia.
    + cbn [length] in Hle. lia.
    + intros i Hi. rewrite Hl3, Hm3.
      specialize (Hcom (S i) ltac:(lia)). cbn [nth] in Hcom.
      rewrite <- Hcom. f_equal. lia.
    + destruct Hgo as [Hstop|[He Hfit]]; [left; exact Hstop|right].
      split.
      * rewrite (Hfit3 (Hfit 0 ltac:(lia))). exact He.
      * intros i Hi. rewrite Hm3. apply (Hfit (S i)). lia.
    + exists st1. cbn [skipn]. split.
      * rewrite Hrun. apply ini_parse_loop_fuel.
        { pose proof (length_concat_skipn rs m). lia. }
        { pose proof (length_concat_skipn rs m). simpl in *; lia. }
      * repeat split; try congruence; try lia.
        intros Hfit. rewrite H7.
        { rewrite (Hfit3 (Hfit 0 ltac:(lia))), set_lineno_set_lineno.
          cbn [lineno set_lineno]. f_equal. lia. }
        intros i Hi. rewrite Hm3. apply (Hfit (S i)). lia.
Qed.

End Comments.

(** C9 as stated fails for a comment that does not fit the line buffer: it
    is an error like every line that is too long.  The second line of
    [long_comment_input] is a comment of 251 characters.  In the default
    configuration the parse returns 2 because of it; the indented line
    after it still continues the value of k.  With stop-on-first-error the
    parse ends at the comment, and the indented line is not read. *)
Lemma blank_and_comment_counterexample :
  comment_or_blank default_config 2
    (line_at 200 (physical_lines long_comment_input) 2) = true /\
  (exists o,
      ini_parse_string default_config always_allocates accept_all
        long_comment_input tt = Some o /\
      ret o = 2%Z /\ error (final o) = 2%Z /\
      map call_args (calls (final o)) =
        [(1%Z, [], Some (cs "k"), Some (cs "v"));
         (3%Z, [], Some (cs "k"), Some (cs "more"))]) /\
  (exists o,
      ini_parse_string stopping_config always_allocates accept_all
        long_comment_input tt = Some o /\
      ret o = 2%Z /\
      map call_args (calls (final o)) =
        [(1%Z, [], Some (cs "k"), Some (cs "v"))] /\
      rest o = cs "  more" ++ [NL]).
Proof.
  split; [vm_compute; reflexivity|]. split.
  - eexists. split; [vm_compute; reflexivity|]. repeat split; reflexivity.
  - eexists. split; [vm_compute; reflexivity|]. repeat split; reflexivity.
Qed.

(** C9, as amended.  Blank lines and comment lines that fit the line buffer
    leave the parse state as it was.  When the loop of [ini_parse_stream],
    in any state, meets [m] lines that are blank or comments, it goes on
    with the lines after them in a state with the same section, remembered
    name, user state and calls and with the line number advanced by [m];
    when these lines fit the line buffer the state is the same in every
    other field too, the error code included.  One that does not fit has an
    error recorded for it; with stop-on-first-error off the loop still goes
    on as said.  So, with continuation lines allowed and a name remembered,
    an indented line with text that follows them is a continuation line:
    the handler is called for it with the section and the name that were
    current before the blank lines and comments. *)
Theorem blank_and_comment_lines_keep_context {U} cfg alloc
    (handler : ini_handler U) fuel (st : state U) s m :
  fixed_buffer cfg -> 2 <= max_line st -> c_str s = s -> length s < fuel ->
  let lines := physical_lines s in
  let line i := firstn (max_line st - 1) (nth i lines []) in
  let number i := (lineno st + Z.of_nat i + 1)%Z in
  m <= length lines ->
  (forall i, i < m -> comment_or_blank cfg (number i) (line i) = true) ->
  INI_STOP_ON_FIRST_ERROR cfg = false \/
  (error st = 0%Z /\
   forall i, i < m -> length (nth i lines []) < max_line st) ->
  exists st1,
    ini_parse_loop cfg alloc ini_reader_string handler fuel st s
    = ini_parse_loop cfg alloc ini_reader_string handler fuel st1
        (concat (skipn m lines)) /\
    (max_line st1 = max_line st /\ section st1 = section st /\
     prev_name st1 = prev_name st /\ user st1 = user st /\
     calls st1 = calls st /\
     lineno st1 = (lineno st + Z.of_nat m)%Z) /\
    ((forall i, i < m -> length (nth i lines []) < max_line st) ->
     st1 = set_lineno st (lineno st + Z.of_nat m)) /\
    (INI_ALLOW_MULTILINE cfg = true ->
     nonempty (prev_name st) = true ->
     comment_or_blank cfg (number m) (line m) = false ->
     indented cfg (number m) (line m) = true ->
     let v :=
       if INI_ALLOW_INLINE_COMMENTS cfg
       then ini_rstrip
              (fst (find_chars_or_comment cfg
                      (stripped cfg (number m) (line m)) None))
       else stripped cfg (number m) (line m) in
     exists o r,
       ini_parse_loop cfg alloc ini_reader_string handler fuel st s = Some o /\
       In (mkCall (number m) (section st) (Some (prev_name st)) (Some v) r)
          (calls (final o))).
Proof.
  intros Hfix Hm Hs Hlen lines line number Hle Hcom Hgo.
  destruct (ini_parse_loop_comments cfg alloc handler m Hfix fuel st s
              Hm Hs Hlen Hle Hcom Hgo)
    as (st1 & Hrun & H1 & H2 & H3 & H4 & H5 & H6 & H7).
  fold lines in Hrun, H7.
  exists st1. split; [exact Hrun|]. split; [repeat split; auto|].
  split; [exact H7|].
  intros Hmulti Hprev Hcomment Hind v.
  assert (Hlt : m < length lines).
  { destruct (Nat.eq_dec m (length lines)) as [E|E]; [|lia].
    exfalso. unfold line in Hcomment.
    rewrite nth_overflow, firstn_nil, comment_or_blank_nil in Hcomment
      by lia.
    discriminate Hcomment. }
  pose proof (first_line_skipn_lines s m Hlt) as Hfl. fold lines in Hfl.
  pose proof (length_concat_skipn s m) as Hlr. fold lines in Hlr.
  pose proof (c_str_concat_skipn s m Hs) as Hcr. fold lines in Hcr.
  rewrite Hrun.
  set (tl0 := concat (skipn m lines)) in *.
  assert (Hne : nonempty (stripped cfg (number m) (line m)) = true).
  { unfold comment_or_blank, strchr in Hcomment. unfold nonempty.
    destruct (Ascii.eqb _ NUL); [discriminate|reflexivity]. }
  destruct tl0 as [|c t] eqn:Et.
  { exfalso. cbn in Hfl. injection Hfl as Hnil _.
    unfold line in Hcomment.
    rewrite <- Hnil, firstn_nil, comment_or_blank_nil in Hcomment.
    discriminate Hcomment. }
  destruct fuel as [|fuel]; [lia|].
  rewrite (ini_parse_loop_step cfg alloc handler fuel st1 c t Hfix
             ltac:(lia) Hcr) by lia.
  cbv zeta. rewrite Hfl. cbn [fst snd].
  destruct (line_step_fields_before cfg handler st1 (nth m lines []))
    as (Heq & Hm2 & Hs2 & Hp2 & Hl2 & Hu2 & Hc2).
  set (st2 := Nat.iter _ record_error _) in *.
  set (st3 := line_step cfg handler st1 (nth m lines [])) in *.
  assert (En : lineno st2 = number m) by (unfold number; lia).
  assert (Hcall : exists r,
    calls st3 =
    calls st ++ [mkCall (number m) (section st) (Some (prev_name st))
                        (Some v) r]).
  { rewrite Heq, H1. fold (line m).
    rewrite (ini_parse_line_continuation cfg handler st2 (line m)).
    - match goal with
      | |- context [handler_or_error cfg handler st2 ?x ?n ?w] =>
          pose proof (handler_or_error_fields cfg handler st2 x n w) as H
      end.
      cbv zeta in H. destruct H as (_ & _ & _ & _ & _ & Hcalls & _).
      rewrite Hcalls, Hc2, Hs2, Hp2, En, H5, H2, H3.
      eexists. reflexivity.
    - rewrite En. exact Hcomment.
    - unfold continues. rewrite En, Hp2, H3, Hmulti, Hprev, Hne, Hind.
      reflexivity. }
  destruct Hcall as [r Hcall].
  assert (Hin : In (mkCall (number m) (section st) (Some (prev_name st))
                            (Some v) r) (calls st3)).
  { rewrite Hcall. apply in_or_app; right; left; reflexivity. }
  destruct (INI_STOP_ON_FIRST_ERROR cfg && negb (Z.eqb (error st3) 0)).
  - eexists. exists r. split; [reflexivity|exact Hin].
  - destruct (ini_parse_loop_total cfg alloc handler fuel st3
                (concat (skipn (S m) lines))) as [o Ho].
    { pose proof (first_line_app (c :: t)) as Happ.
      pose proof (first_line_nonempty c t) as Hn0.
      rewrite Hfl in Happ, Hn0. cbn [fst snd] in Happ, Hn0.
      apply (f_equal (@length _)) in Happ. rewrite length_app in Happ.
      cbn [length] in Happ, Hlr.
      destruct (nth m lines []); [congruence|].
      cbn [length] in Happ. lia. }
    exists o, r. split; [exact Ho|].
    eapply ini_parse_loop_keeps_calls; eauto.
Qed.

Lemma blank_and_comment_lines_keep_context_witness :
  exists o r,
    ini_parse_loop default_config always_allocates ini_reader_string
      accept_all 100 after_key commented_input = Some o /\
    In (mkCall 4 [] (Some (cs "k")) (Some (cs "more")) r) (calls (final o)).
Proof.
  destruct (blank_and_comment_lines_keep_context default_config
              always_allocates accept_all 100 after_key commented_input 2)
    as (st1 & _ & _ & _ & H).
  - left; reflexivity.
  - apply Nat.leb_le. reflexivity.
  - reflexivity.
  - apply Nat.ltb_lt. reflexivity.
  - apply Nat.leb_le. reflexivity.
  - intros [|[|i]] Hi; [reflexivity|reflexivity|lia].
  - left; reflexivity.
  - apply H; reflexivity.
Defined.
